(** * Session, authorization and data-fetching layer of the support dashboard

    A shallow embedding of the client-side session layer of the frontend:

    - [stores/authStore.ts]: the zustand store ([set], [setUser],
      [setIsAuthenticated], [setSelectedCompanyId], [clearAuth]);
    - [services/api.ts]: the axios response interceptor, including the
      422 validation-message normalisation;
    - [services/authService.ts]: [login], [logout], [isTokenValid],
      [refreshToken];
    - number arithmetic as binary64 rounding of exact results, where the
      code multiplies, divides, adds or subtracts;
    - [components/ProtectedRoute.tsx]: the route guard;
    - [App.tsx]: [attemptRehydrate] and the effect that runs it;
    - the sign-in page: [validateForm] and [handleSubmit];
    - the tickets resource client: [getTickets].

    The browser is single threaded: a handler runs to completion before the
    next one starts.  An [async] function is therefore embedded as one state
    transformer of the [World], with the answer of the backend supplied as an
    argument.  Exceptions are explicit: a computation returns either a thrown
    value or a result.

    Two record fields could not keep their source names, because a field
    name is global here: [LoginResponse.user] is [response_user], and
    [TicketsResponse.page] and [.limit] are [response_page] and
    [response_limit]; the fields of the router's location carry the prefix
    [location_]. *)

From Stdlib Require Import String Ascii List Bool ZArith QArith Qround Lia.
Import ListNotations.

Local Open Scope string_scope.
Local Open Scope Z_scope.

(* ================================================================== *)
(** ** JavaScript values *)
(* ================================================================== *)

(** A value that may be [undefined], [null] or present. *)
Inductive nullable (A : Type) : Type :=
| Undefined
| Null
| Val (a : A).
Arguments Undefined {A}.
Arguments Null {A}.
Arguments Val {A} a.

(** [!!s] for a string: only the empty string is falsy. *)
Definition truthy_string (s : string) : bool := negb (String.eqb s "").

(** [!!x] for [x : string | null | undefined]. *)
Definition truthy_opt (o : option string) : bool :=
  match o with
  | Some s => truthy_string s
  | None => false
  end.

(** [Array.prototype.join]. *)
Fixpoint join (sep : string) (l : list string) : string :=
  match l with
  | [] => ""
  | [x] => x
  | x :: rest => x ++ sep ++ join sep rest
  end.

(** A parsed JSON document, as axios hands it over in [response.data].
    A number is given by the rational it denotes; an object lists its
    members in the order the engine enumerates them, each key once. *)
Unset Elimination Schemes.
Inductive json : Type :=
| JNull
| JBool (b : bool)
| JNum (q : Q)
| JStr (s : string)
| JArr (items : list json)
| JObj (members : list (string * json)).
Set Elimination Schemes.

(** [!!v] for a JSON value. *)
Definition truthy (v : json) : bool :=
  match v with
  | JNull => false
  | JBool b => b
  | JNum q => negb (Qeq_bool q 0)
  | JStr s => truthy_string s
  | JArr _ => true
  | JObj _ => true
  end.

(** [!!v] where [v] may also be [undefined] ([None]). *)
Definition truthy_u (o : option json) : bool :=
  match o with
  | Some v => truthy v
  | None => false
  end.

Fixpoint assoc (k : string) (members : list (string * json)) : option json :=
  match members with
  | [] => None
  | (k', v) :: rest => if String.eqb k k' then Some v else assoc k rest
  end.

(** [v.k] for a value that is neither [null] nor [undefined], and a key
    [k] among [detail], [msg] and [message]: only an object can own such a
    member; an array, string, number or boolean yields [undefined]. *)
Definition member (k : string) (v : json) : option json :=
  match v with
  | JObj members => assoc k members
  | _ => None
  end.

(** The double quote and the backslash, built from their codes. *)
Definition dquote : string := String (ascii_of_nat 34) EmptyString.
Definition backslash : string := String (ascii_of_nat 92) EmptyString.

Definition hex_digit (n : nat) : string :=
  String (ascii_of_nat (if Nat.ltb n 10 then 48 + n else 87 + n)) EmptyString.

(** One character of a string, as [JSON.stringify] writes it. *)
Definition escape_char (c : ascii) : string :=
  let n := nat_of_ascii c in
  if Nat.eqb n 34 then backslash ++ dquote
  else if Nat.eqb n 92 then backslash ++ backslash
  else if Nat.eqb n 8 then backslash ++ "b"
  else if Nat.eqb n 9 then backslash ++ "t"
  else if Nat.eqb n 10 then backslash ++ "n"
  else if Nat.eqb n 12 then backslash ++ "f"
  else if Nat.eqb n 13 then backslash ++ "r"
  else if Nat.ltb n 32 then
    backslash ++ "u00" ++ hex_digit (Nat.div n 16) ++ hex_digit (Nat.modulo n 16)
  else String c EmptyString.

Fixpoint escape (s : string) : string :=
  match s with
  | EmptyString => EmptyString
  | String c rest => escape_char c ++ escape rest
  end.

Definition quote (s : string) : string := dquote ++ escape s ++ dquote.

(* ================================================================== *)
(** ** JavaScript numbers *)
(* ================================================================== *)

(** A number is an IEEE 754 binary64 value.  [+], [-], [*] and [/] give
    the exact result rounded to the nearest value with 53 significant
    bits, ties to the one with an even significand.  The definitions below
    compute that rounding on exact rationals; [-0] and [0] are one value
    here. *)

(** [n / d] rounded to the nearest integer, ties to even ([0 <= n],
    [0 < d]). *)
Definition nearest_even (n d : Z) : Z :=
  let m := n / d in
  let r := n mod d in
  if 2 * r <? d then m
  else if d <? 2 * r then m + 1
  else if Z.even m then m else m + 1.

(** The [j] with [2^j <= n / d < 2^(j+1)] ([0 < n], [0 < d]). *)
Definition floor_log2 (n d : Z) : Z :=
  let j := Z.log2 n - Z.log2 d in
  if d * 2 ^ Z.max j 0 <=? n * 2 ^ Z.max (- j) 0 then j else j - 1.

(** The binary64 value nearest to [n / d] ([0 <= n], [0 < d]), as a
    significand [m] and an exponent [e]: the value is [m * 2^e].  The
    exponent is the one that leaves 53 bits to the significand, and not
    less than -1074, the exponent of the subnormal numbers. *)
Definition nearest_binary64 (n d : Z) : Z * Z :=
  if n =? 0 then (0, 0)
  else
    let e := Z.max (floor_log2 n d - 52) (-1074) in
    (nearest_even (n * 2 ^ Z.max (- e) 0) (d * 2 ^ Z.max e 0), e).

(** [m * 2^e] as a rational. *)
Definition binary64_value (me : Z * Z) : Q :=
  let (m, e) := me in
  Qmake (m * 2 ^ Z.max e 0) (Z.to_pos (2 ^ Z.max (- e) 0)).

(** The binary64 value nearest to a rational.  A result of magnitude
    [2^1024] or more stands for an infinity, see [is_infinite]. *)
Definition binary64 (q : Q) : Q :=
  if Qnum q <? 0
  then Qopp (binary64_value (nearest_binary64 (- Qnum q) (Zpos (Qden q))))
  else binary64_value (nearest_binary64 (Qnum q) (Zpos (Qden q))).

(** The same rounding for an integer; the result is an integer again. *)
Definition binary64_integer (z : Z) : Z :=
  let (m, e) := nearest_binary64 (Z.abs z) 1 in
  Z.sgn z * (m * 2 ^ Z.max e 0 / 2 ^ Z.max (- e) 0).

(** A rounded result too large for a finite binary64 value. *)
Definition is_infinite (z : Z) : bool := 2 ^ 1024 <=? Z.abs z.

(** [a + b], [a - b] and [a * b] for integer-valued numbers. *)
Definition js_add (a b : Z) : Z := binary64_integer (a + b).
Definition js_sub (a b : Z) : Z := binary64_integer (a - b).
Definition js_mul (a b : Z) : Z := binary64_integer (a * b).

(** [a / b] for integer-valued numbers, [b] not zero. *)
Definition js_div (a b : Z) : Q := binary64 (inject_Z a / inject_Z b).

(** What [ToNumber] yields. *)
Inductive JsNumber : Type :=
| NaN
| Num (q : Q)
| PlusInfinity
| MinusInfinity.

(** [x > t] for a finite [t]: false when [x] is [NaN]. *)
Definition number_gt (x : JsNumber) (t : Q) : bool :=
  match x with
  | Num q => negb (Qle_bool q t)
  | PlusInfinity => true
  | NaN | MinusInfinity => false
  end.

(* ================================================================== *)
(** ** stores/authStore.ts *)
(* ================================================================== *)

(** [User] of authService.ts.  At run time the backend may leave [role]
    out ([None]); [company_id] may be a string, [null] or missing;
    [department_id] is only ever tested for truthiness, so [null] and
    [undefined] are both [None]. *)
Record User : Type := mkUser {
  id : string;
  username : string;
  email : string;
  role : option string;
  company_id : nullable string;
  department_id : option string
}.

(** The data fields of [AuthState]. *)
Record AuthState : Type := mkAuthState {
  isAuthenticated : bool;
  user : option User;
  selectedCompanyId : nullable string
}.

(** The argument of zustand's [set]: the fields to overwrite. *)
Record AuthPatch : Type := mkAuthPatch {
  patch_isAuthenticated : option bool;
  patch_user : option (option User);
  patch_selectedCompanyId : option (nullable string)
}.

Definition or_keep {A : Type} (p : option A) (old : A) : A :=
  match p with
  | Some a => a
  | None => old
  end.

(** zustand's [set(partial)]: a shallow merge into the current state. *)
Definition set (p : AuthPatch) (s : AuthState) : AuthState :=
  {| isAuthenticated := or_keep (patch_isAuthenticated p) (isAuthenticated s);
     user := or_keep (patch_user p) (user s);
     selectedCompanyId := or_keep (patch_selectedCompanyId p) (selectedCompanyId s) |}.

(** The state [create] starts from. *)
Definition initialState : AuthState :=
  {| isAuthenticated := false; user := None; selectedCompanyId := Null |}.

Definition setUser (u : option User) : AuthState -> AuthState :=
  set {| patch_isAuthenticated := None;
         patch_user := Some u;
         patch_selectedCompanyId := None |}.

Definition setIsAuthenticated (b : bool) : AuthState -> AuthState :=
  set {| patch_isAuthenticated := Some b;
         patch_user := None;
         patch_selectedCompanyId := None |}.

Definition setSelectedCompanyId (c : nullable string) : AuthState -> AuthState :=
  set {| patch_isAuthenticated := None;
         patch_user := None;
         patch_selectedCompanyId := Some c |}.

Definition clearAuth : AuthState -> AuthState :=
  set {| patch_isAuthenticated := Some false;
         patch_user := Some None;
         patch_selectedCompanyId := Some Null |}.

(** The role of the stored user, when it is there and truthy: what
    [!user || !user.role] tests. *)
Definition current_role (s : AuthState) : option string :=
  match user s with
  | Some u =>
      match role u with
      | Some r => if truthy_string r then Some r else None
      | None => None
      end
  | None => None
  end.

(** "Role is required whenever [isAuthenticated] is true." *)
Definition role_invariant (s : AuthState) : Prop :=
  isAuthenticated s = true -> exists r, current_role s = Some r.

(* ================================================================== *)
(** ** The browser tab: storage, client defaults, store, side effects *)
(* ================================================================== *)

(** Everything the modelled modules read or write.  [localStorage] is
    only ever used under the key [token]. *)
Record World : Type := mkWorld {
  token : option string;        (* localStorage.getItem('token') *)
  authHeader : option string;   (* api.defaults.headers.common['Authorization'] *)
  store : AuthState;            (* useAuthStore.getState() *)
  hrefs : list string;          (* assignments to window.location.href, newest first *)
  toasts : list json;           (* arguments of toast.error, newest first *)
  navigations : list string     (* arguments of the router's navigate, newest first *)
}.

Definition setItem_token (t : string) (w : World) : World :=
  {| token := Some t; authHeader := authHeader w; store := store w;
     hrefs := hrefs w; toasts := toasts w; navigations := navigations w |}.

Definition removeItem_token (w : World) : World :=
  {| token := None; authHeader := authHeader w; store := store w;
     hrefs := hrefs w; toasts := toasts w; navigations := navigations w |}.

Definition set_authHeader (h : option string) (w : World) : World :=
  {| token := token w; authHeader := h; store := store w;
     hrefs := hrefs w; toasts := toasts w; navigations := navigations w |}.

Definition update_store (f : AuthState -> AuthState) (w : World) : World :=
  {| token := token w; authHeader := authHeader w; store := f (store w);
     hrefs := hrefs w; toasts := toasts w; navigations := navigations w |}.

Definition set_href (url : string) (w : World) : World :=
  {| token := token w; authHeader := authHeader w; store := store w;
     hrefs := url :: hrefs w; toasts := toasts w; navigations := navigations w |}.

Definition toast_error (m : json) (w : World) : World :=
  {| token := token w; authHeader := authHeader w; store := store w;
     hrefs := hrefs w; toasts := m :: toasts w; navigations := navigations w |}.

Definition navigate (path : string) (w : World) : World :=
  {| token := token w; authHeader := authHeader w; store := store w;
     hrefs := hrefs w; toasts := toasts w; navigations := path :: navigations w |}.

(** What axios rejects with: an error carrying the response (its status
    and parsed body, [None] for a body that is [undefined]), or one
    without a response. *)
Inductive AxiosError : Type :=
| ResponseError (status : Z) (data : option json)
| NetworkError.

(** What a [throw] or a rejected promise carries. *)
Inductive Thrown : Type :=
| Rejected (e : AxiosError)
| TypeError
| InvalidTokenError.

(** Computations over the tab that may throw. *)
Definition M (A : Type) : Type := World -> World * (Thrown + A).

Definition ret {A : Type} (a : A) : M A := fun w => (w, inr a).

Definition throw {A : Type} (t : Thrown) : M A := fun w => (w, inl t).

Definition bind {A B : Type} (m : M A) (k : A -> M B) : M B :=
  fun w =>
    match m w with
    | (w1, inr a) => k a w1
    | (w1, inl t) => (w1, inl t)
    end.

(** [try { body } catch (error) { handler }]. *)
Definition try_catch {A : Type} (body : M A) (handler : Thrown -> M A) : M A :=
  fun w =>
    match body w with
    | (w1, inr a) => (w1, inr a)
    | (w1, inl t) => handler t w1
    end.

(** A statement executed for its effect on the tab. *)
Definition exec (f : World -> World) : M unit := fun w => (f w, inr tt).

Definition get_world : M World := fun w => (w, inr w).

Notation "x <- m ;; k" := (bind m (fun x => k))
  (at level 61, m at next level, right associativity).
Notation "m ;;; k" := (bind m (fun _ => k))
  (at level 61, right associativity).

(* ================================================================== *)
(** ** services/api.ts: the response interceptor *)
(* ================================================================== *)

Section Platform.

(** How the engine prints a number inside [JSON.stringify]. *)
Variable show_number : Q -> string.

(** What reading [.exp] of a decoded token yields: a JSON value, or
    [undefined] ([None]) when the payload has no such claim. *)
Record JwtPayload : Type := mkJwtPayload { exp : option json }.

(** The outcomes of [jwtDecode(token)] followed by reading [.exp]:
    the library throws, or it returns [null] (reading [.exp] throws), or
    it returns a payload object. *)
Inductive Decoded : Type :=
| DecodeThrows
| DecodedNull
| DecodedPayload (p : JwtPayload).

(** The jwt-decode library. *)
Variable jwtDecode : string -> Decoded.

(** The engine's conversion of a string to a number ([StringToNumber]):
    the number a numeric literal denotes, [NaN] for any other text. *)
Variable string_to_number : string -> JsNumber.

(** [JSON.stringify(v)] for a parsed JSON value. *)
Fixpoint stringify (v : json) : string :=
  match v with
  | JNull => "null"
  | JBool true => "true"
  | JBool false => "false"
  | JNum q => show_number q
  | JStr s => quote s
  | JArr items => "[" ++ join "," (map stringify items) ++ "]"
  | JObj members =>
      "{" ++ join "," (map (fun kv => let '(k, x) := kv in
                                      quote k ++ ":" ++ stringify x) members)
          ++ "}"
  end.

(** The callback of [detail.map] in the 422 case.  Reading [err.msg]
    throws when [err] is [null]. *)
Definition describe_error (err : json) : Thrown + string :=
  match err with
  | JStr s => inr s
  | JNull => inl TypeError
  | _ =>
      match member "msg" err with
      | Some (JStr m) => if truthy_string m then inr m else inr (stringify err)
      | _ => inr (stringify err)
      end
  end.

(** [detail.map(callback)]: the first callback that throws ends the map. *)
Fixpoint describe_errors (errs : list json) : Thrown + list string :=
  match errs with
  | [] => inr []
  | err :: rest =>
      match describe_error err with
      | inl t => inl t
      | inr s =>
          match describe_errors rest with
          | inl t => inl t
          | inr ss => inr (s :: ss)
          end
      end
  end.

(** [response.data.detail], read only once [response.data] is truthy
    (the left operand of [&&]); [None] is [undefined]. *)
Definition response_detail (data : option json) : option json :=
  match data with
  | Some d => if truthy d then member "detail" d else None
  | None => None
  end.

(** [validationMessage] after the [if (response.data && response.data.detail)]
    block of the 422 case. *)
Definition validationMessage (data : option json) : Thrown + string :=
  let default := "Invalid input data." in
  match response_detail data with
  | None => inr default
  | Some detail =>
      if negb (truthy detail) then inr default
      else
        match detail with
        | JArr errs =>
            match describe_errors errs with
            | inl t => inl t
            | inr msgs => inr (join "; " msgs)
            end
        | JStr s => inr s
        | _ =>
            (* else if (typeof detail === 'object'), else nothing *)
            let otherwise :=
              match detail with
              | JObj _ => inr (stringify detail)
              | _ => inr default
              end in
            (* else if (detail.message && typeof detail.message === 'string') *)
            match member "message" detail with
            | Some (JStr m) => if truthy_string m then inr m else otherwise
            | _ => otherwise
            end
        end
  end.

(** The message the 422 case settles on when the detail is an object:
    its [message] text, or else the serialised object. *)
Definition object_message (members : list (string * json)) : string :=
  match assoc "message" members with
  | Some (JStr m) =>
      if truthy_string m then m else stringify (JObj members)
  | _ => stringify (JObj members)
  end.

(** The argument of [toast.error] in the 422 case.  [validationMessage]
    is a string on every path, so [finalMessage] is that string. *)
Definition validationToast (data : option json) : Thrown + string :=
  match validationMessage data with
  | inl t => inl t
  | inr finalMessage =>
      inr (if truthy_string finalMessage then finalMessage
           else "Unprocessable Content")
  end.

(** [response.data?.message || 'An unexpected error occurred.'] *)
Definition defaultToast (data : option json) : json :=
  let fallback := JStr "An unexpected error occurred." in
  match data with
  | None => fallback
  | Some JNull => fallback
  | Some d =>
      match member "message" d with
      | Some m => if truthy m then m else fallback
      | None => fallback
      end
  end.

Definition session_expired : string :=
  "Your session has expired. Please login again.".

(** The error callback of [api.interceptors.response.use].  It returns
    the tab after its side effects and what the promise is rejected with:
    [Promise.reject(error)] at its end, or whatever it threw on the way. *)
Definition responseError (error : AxiosError) (w : World) : World * Thrown :=
  match error with
  | ResponseError status data =>
      if status =? 401 then
        let w1 := removeItem_token w in
        let w2 := set_href "/login" w1 in
        let w3 := toast_error (JStr session_expired) w2 in
        (w3, Rejected error)
      else if status =? 403 then
        (toast_error (JStr "You do not have permission to perform this action.") w,
         Rejected error)
      else if status =? 404 then
        (toast_error (JStr "The requested resource was not found.") w,
         Rejected error)
      else if status =? 422 then
        match validationToast data with
        | inl t => (w, t)
        | inr m => (toast_error (JStr m) w, Rejected error)
        end
      else if status =? 500 then
        (toast_error
           (JStr "An error occurred on the server. Please try again later.") w,
         Rejected error)
      else
        (toast_error (defaultToast data) w, Rejected error)
  | NetworkError =>
      (toast_error
         (JStr "Unable to connect to the server. Please check your internet connection.")
         w,
       Rejected error)
  end.

(** What the backend answered to one request: a response axios resolves
    with (its body), or a failure axios rejects with. *)
Inductive HttpOutcome (A : Type) : Type :=
| HttpOk (data : A)
| HttpFail (e : AxiosError).
#[global] Arguments HttpOk {A} data.
#[global] Arguments HttpFail {A} e.

(** [await api.get(...)] / [await api.post(...)]: the success callback of
    the interceptor returns the response unchanged, the error callback is
    [responseError]. *)
Definition api_call {A : Type} (answer : HttpOutcome A) : M A :=
  fun w =>
    match answer with
    | HttpOk data => (w, inr data)
    | HttpFail e =>
        let (w1, t) := responseError e w in (w1, inl t)
    end.

(** The error callback run once per failing request, in the order the
    failures arrive, with no reload of the page in between. *)
Fixpoint handle_failures (errors : list AxiosError) (w : World) : World :=
  match errors with
  | [] => w
  | e :: rest => handle_failures rest (fst (responseError e w))
  end.

(* ================================================================== *)
(** ** services/authService.ts *)
(* ================================================================== *)

Record LoginCredentials : Type := mkLoginCredentials {
  credentials_username : string;
  credentials_password : string
}.

(** The body of a successful [/auth/login] response. *)
Record LoginResponse : Type := mkLoginResponse {
  access_token : string;
  token_type : string;
  response_user : User
}.

(** The [try] block of [login].  [answer] is what the backend sent for
    the posted credentials: a failure, or a response whose body is a
    [LoginResponse] or JSON [null]; on [null] the destructuring of
    [response.data] throws.  A response of another shape (an empty body,
    an object without [user]) is not a value of this type: what [login]
    does on it is not modelled, and no statement below speaks of it. *)
Definition login_try (answer : HttpOutcome (option LoginResponse)) : M User :=
  data <- api_call answer ;;
  match data with
  | None => throw TypeError
  | Some d =>
      exec (setItem_token (access_token d)) ;;;
      exec (set_authHeader (Some ("Bearer " ++ access_token d))) ;;;
      exec (update_store (setUser (Some (response_user d)))) ;;;
      exec (update_store (setIsAuthenticated true)) ;;;
      ret (response_user d)
  end.

(** The [catch] block of [login]. *)
Definition login_catch (error : Thrown) : M User :=
  exec removeItem_token ;;;
  exec (set_authHeader None) ;;;
  exec (update_store clearAuth) ;;;
  throw error.

Definition login (credentials : LoginCredentials)
    (answer : HttpOutcome (option LoginResponse)) : M User :=
  try_catch (login_try answer) login_catch.

Definition logout : World -> World :=
  fun w =>
    let w1 := removeItem_token w in
    let w2 := set_authHeader None w1 in
    let w3 := update_store clearAuth w2 in
    set_href "/login" w3.

(** [Date.now() / 1000] for a clock reading in milliseconds: the quotient
    as a binary64 value. *)
Definition currentTime (now : Z) : Q := js_div now 1000.

(** The text [Array.prototype.join] writes for one element: nothing for
    [null], the element's own [toString] otherwise. *)
Fixpoint element_string (v : json) : string :=
  match v with
  | JNull => ""
  | JBool true => "true"
  | JBool false => "false"
  | JNum q => show_number q
  | JStr s => s
  | JArr items => join "," (map element_string items)
  | JObj _ => "[object Object]"
  end.

(** [ToNumber(v)], the conversion [>] applies to an operand that is not
    a number: [null] is 0, a boolean 0 or 1, a string what it denotes, an
    array what its [toString] denotes.  An object is [NaN] (where its
    conversion throws instead, [isTokenValid] catches the exception and
    answers false as it does for [NaN]). *)
Definition ToNumber (v : json) : JsNumber :=
  match v with
  | JNull => Num 0
  | JBool true => Num 1
  | JBool false => Num 0
  | JNum q => Num q
  | JStr s => string_to_number s
  | JArr items => string_to_number (join "," (map element_string items))
  | JObj _ => NaN
  end.

(** [decoded.exp > currentTime]; [undefined] converts to [NaN]. *)
Definition exp_in_future (p : JwtPayload) (now : Z) : bool :=
  match exp p with
  | Some v => number_gt (ToNumber v) (currentTime now)
  | None => false
  end.

(** [isTokenValid], with the clock reading [now] of its [Date.now()]. *)
Definition isTokenValid (now : Z) : M bool :=
  fun w =>
    if negb (truthy_opt (token w)) then ret false w
    else
      try_catch
        (match token w with
         | Some t =>
             match jwtDecode t with
             | DecodeThrows => throw InvalidTokenError
             | DecodedNull => throw TypeError
             | DecodedPayload p => ret (exp_in_future p now)
             end
         | None => ret false
         end)
        (fun _ => ret false) w.

(** [refreshToken]; [answer] is what the backend sent for [/auth/me],
    [None] standing for a body that is [null]. *)
Definition refreshToken (now : Z) (answer : HttpOutcome (option User))
    : M (option User) :=
  valid <- isTokenValid now ;;
  if negb valid then
    exec (update_store clearAuth) ;;;
    ret None
  else
    try_catch
      (data <- api_call answer ;;
       exec (update_store (setUser data)) ;;;
       exec (update_store (setIsAuthenticated true)) ;;;
       ret data)
      (fun _ =>
         exec (update_store clearAuth) ;;;
         ret None).

(* ================================================================== *)
(** ** components/ProtectedRoute.tsx *)
(* ================================================================== *)

(** The [role] prop: one role or an array of roles. *)
Inductive RoleProp : Type :=
| OneRole (r : string)
| Roles (rs : list string).

Record Location : Type := mkLocation {
  location_pathname : string;
  location_search : string;
  location_hash : string
}.

(** What the guard renders: a [<Navigate to state={{from}} replace />]
    or its children. *)
Inductive Element : Type :=
| Navigate (to : string) (from : option Location) (replace : bool)
| Children.

(** [if (role)]: a missing prop and the empty string are falsy, an
    array is truthy whatever it holds. *)
Definition role_truthy (role : option RoleProp) : bool :=
  match role with
  | None => false
  | Some (OneRole r) => truthy_string r
  | Some (Roles _) => true
  end.

(** [Array.isArray(role) ? role : [role]] *)
Definition requiredRoles (role : RoleProp) : list string :=
  match role with
  | OneRole r => [r]
  | Roles rs => rs
  end.

(** [requiredRoles.includes(userRole)] *)
Definition includes (l : list string) (x : string) : bool :=
  existsb (String.eqb x) l.

(** The component; [roleProp] is its [role] prop.  [current_role] is
    [None] exactly when [!user || !user.role] holds. *)
Definition ProtectedRoute (roleProp : option RoleProp) (location : Location)
    (w : World) : World * Element :=
  let s := store w in
  if negb (isAuthenticated s) then
    (w, Navigate "/login" (Some location) true)
  else
    match current_role s with
    | None =>
        (update_store clearAuth w, Navigate "/login" (Some location) true)
    | Some userRole =>
        match roleProp with
        | Some r =>
            if role_truthy roleProp then
              let hasRequiredRole := includes (requiredRoles r) userRole in
              if negb hasRequiredRole then
                if String.eqb userRole "superAdmin" then
                  (w, Navigate "/admin/select-company" None true)
                else if String.eqb userRole "admin" then
                  (w, Navigate "/admin/analytics-dashboard" None true)
                else if String.eqb userRole "employee" then
                  (w, Navigate "/" None true)
                else
                  (w, Navigate "/" None true)
              else (w, Children)
            else (w, Children)
        | None => (w, Children)
        end
    end.

(* ================================================================== *)
(** ** App.tsx: session rehydration *)
(* ================================================================== *)

(** [u.role === name] *)
Definition role_is (u : User) (name : string) : bool :=
  match role u with
  | Some r => String.eqb r name
  | None => false
  end.

Definition forget_session : M unit :=
  exec (update_store clearAuth) ;;;
  exec removeItem_token.

(** [attemptRehydrate].  [captured] is the [isAuthenticated] of the
    render whose effect runs it; [now1] and [now2] are the clock readings
    of the two [isTokenValid] calls (here and inside [refreshToken]). *)
Definition attemptRehydrate (captured : bool) (now1 now2 : Z)
    (answer : HttpOutcome (option User)) : M unit :=
  w <- get_world ;;
  if truthy_opt (token w) then
    valid <- isTokenValid now1 ;;
    if valid then
      try_catch
        (refreshedUserData <- refreshToken now2 answer ;;
         match refreshedUserData with
         | Some u =>
             if negb (truthy_opt (role u)) then forget_session
             else
               exec (update_store (setUser (Some u))) ;;;
               exec (update_store (setIsAuthenticated true)) ;;;
               if role_is u "superAdmin" then
                 exec (update_store (setSelectedCompanyId Null))
               else if role_is u "admin" || role_is u "employee" then
                 match company_id u with
                 | Undefined => exec (update_store (setSelectedCompanyId Null))
                 | c => exec (update_store (setSelectedCompanyId c))
                 end
               else ret tt
         | None => forget_session
         end)
        (fun _ => forget_session)
    else forget_session
  else
    if captured then exec (update_store clearAuth) else ret tt.

(** The effect of [App]: rehydrate when the render saw no session. *)
Definition App_effect (now1 now2 : Z) (answer : HttpOutcome (option User))
    : M unit :=
  w <- get_world ;;
  let captured := isAuthenticated (store w) in
  if negb captured then attemptRehydrate captured now1 now2 answer
  else ret tt.

(* ================================================================== *)
(** ** pages/SignInPage.tsx *)
(* ================================================================== *)

(** [\s] on a code unit below 256. *)
Definition is_space (c : ascii) : bool :=
  let n := nat_of_ascii c in
  (Nat.leb 9 n && Nat.leb n 13) || Nat.eqb n 32 || Nat.eqb n 160.

(** The threads of a search for [\S+@\S+\.\S+] after some prefix of the
    input: [in_local], inside the first [\S+]; [at_sign], just past the
    [@]; [in_domain], inside the second [\S+]; [at_dot], just past the
    dot; [matched], a match has been completed. *)
Record Threads : Type := mkThreads {
  in_local : bool;
  at_sign : bool;
  in_domain : bool;
  at_dot : bool;
  matched : bool
}.

Definition no_threads : Threads :=
  {| in_local := false; at_sign := false; in_domain := false;
     at_dot := false; matched := false |}.

Definition step_threads (t : Threads) (c : ascii) : Threads :=
  let ns := negb (is_space c) in
  {| in_local := ns;
     at_sign := Ascii.eqb c (ascii_of_nat 64) && in_local t;
     in_domain := ns && (at_sign t || in_domain t);
     at_dot := Ascii.eqb c (ascii_of_nat 46) && in_domain t;
     matched := matched t || (ns && at_dot t) |}.

Fixpoint run_threads (t : Threads) (s : string) : Threads :=
  match s with
  | EmptyString => t
  | String c rest => run_threads (step_threads t c) rest
  end.

(** [/\S+@\S+\.\S+/.test(s)] *)
Definition email_regex_test (s : string) : bool :=
  matched (run_threads no_threads s).

(** The pattern read declaratively.  [non_space s]: every character of
    [s] matches [\S]; [word s]: [s] matches [\S+]. *)
Fixpoint non_space (s : string) : Prop :=
  match s with
  | EmptyString => True
  | String c rest => is_space c = false /\ non_space rest
  end.

Definition word (s : string) : Prop := s <> "" /\ non_space s.

(** Some substring of [s] matches [\S+@\S+\.\S+]. *)
Definition contains_email (s : string) : Prop :=
  exists pre a b c post,
    s = (pre ++ a ++ "@" ++ b ++ "." ++ c ++ post)%string
    /\ word a /\ word b /\ word c.

(** What a thread still has to read, by its position in the pattern:
    past the dot, inside the second [\S+], past the [@], inside the first
    [\S+], and not started yet. *)
Definition after_dot (s : string) : Prop :=
  match s with
  | EmptyString => False
  | String c _ => is_space c = false
  end.

Fixpoint domain_tail (s : string) : Prop :=
  match s with
  | EmptyString => False
  | String c rest =>
      (is_space c = false /\ domain_tail rest)
      \/ (c = "."%char /\ after_dot rest)
  end.

Definition after_at (s : string) : Prop :=
  match s with
  | EmptyString => False
  | String c rest => is_space c = false /\ domain_tail rest
  end.

Fixpoint local_tail (s : string) : Prop :=
  match s with
  | EmptyString => False
  | String c rest =>
      (is_space c = false /\ local_tail rest)
      \/ (c = "@"%char /\ after_at rest)
  end.

Fixpoint anywhere (s : string) : Prop :=
  match s with
  | EmptyString => False
  | String c rest =>
      anywhere rest \/ (is_space c = false /\ local_tail rest)
  end.

(** The [errors] state of the page. *)
Record FormErrors : Type := mkFormErrors {
  error_email : option string;
  error_password : option string;
  error_general : option string
}.

Definition no_errors : FormErrors :=
  {| error_email := None; error_password := None; error_general := None |}.

(** [newErrors] of [validateForm]. *)
Definition newErrors (email_input password_input : string) : FormErrors :=
  {| error_email :=
       if negb (truthy_string email_input) then Some "Email is required"
       else if negb (email_regex_test email_input) then Some "Email is invalid"
       else None;
     error_password :=
       if negb (truthy_string password_input) then Some "Password is required"
       else None;
     error_general := None |}.

(** [Object.keys(newErrors).length === 0] *)
Definition validateForm (email_input password_input : string) : bool :=
  match error_email (newErrors email_input password_input),
        error_password (newErrors email_input password_input) with
  | None, None => true
  | _, _ => false
  end.

Definition general_error (msg : string) : FormErrors :=
  {| error_email := None; error_password := None; error_general := Some msg |}.

(** The [try] block of [handleSubmit]; it yields the [errors] state it
    leaves behind. *)
Definition handleSubmit_try (email_input password_input : string)
    (answer : HttpOutcome (option LoginResponse)) : M FormErrors :=
  u <- login {| credentials_username := email_input;
                credentials_password := password_input |} answer ;;
  exec (update_store (setUser (Some u))) ;;;
  exec (update_store (setIsAuthenticated true)) ;;;
  if role_is u "superAdmin" then
    exec (update_store (setSelectedCompanyId Null)) ;;;
    exec (navigate "/admin/select-company") ;;;
    ret no_errors
  else if role_is u "admin" then
    exec (update_store (setSelectedCompanyId (company_id u))) ;;;
    exec (navigate "/admin/analytics-dashboard") ;;;
    ret no_errors
  else if role_is u "employee" then
    exec (update_store (setSelectedCompanyId (company_id u))) ;;;
    if negb (truthy_opt (department_id u)) then
      exec (update_store (setIsAuthenticated false)) ;;;
      exec (update_store (setUser None)) ;;;
      ret (general_error
             "Your account is not associated with a department. Please contact your administrator.")
    else
      exec (navigate "/tickets") ;;;
      ret no_errors
  else
    exec (navigate "/") ;;;
    ret no_errors.

(** [handleSubmit]: the tab afterwards and the [errors] state shown. *)
Definition handleSubmit (email_input password_input : string)
    (answer : HttpOutcome (option LoginResponse)) (w : World)
    : World * FormErrors :=
  if negb (validateForm email_input password_input) then
    (w, newErrors email_input password_input)
  else
    match handleSubmit_try email_input password_input answer w with
    | (w1, inr errors) => (w1, errors)
    | (w1, inl _) =>
        (w1, general_error "Failed to sign in. Please check your credentials.")
    end.

(* ================================================================== *)
(** ** The tickets resource client: [getTickets] *)
(* ================================================================== *)

(** [GetTicketsParams].  The numeric fields hold integer-valued numbers:
    a page number and a page size are whole. *)
Record GetTicketsParams : Type := mkGetTicketsParams {
  companyId : option string;
  departmentId : option string;
  priority : option string;
  status : option string;
  sortBy : option string;
  sortOrder : option string;
  page : option Z;
  limit : option Z;
  search : option string;
  is_critical_only : option bool
}.

(** A value of the query string; [QInfinity] is the number a product
    overflows to. *)
Inductive QueryValue : Type :=
| QString (s : string)
| QNumber (n : Z)
| QBool (b : bool)
| QInfinity (negative : bool).

(** The result of an integer operation as a value of the query. *)
Definition number_value (z : Z) : QueryValue :=
  if is_infinite z then QInfinity (z <? 0) else QNumber z.

(** [x || d] for a number that may be [undefined]: zero is falsy. *)
Definition number_or (x : option Z) (d : Z) : Z :=
  match x with
  | Some n => if n =? 0 then d else n
  | None => d
  end.

(** [if (x) apiParams[key] = x] for a string that may be [undefined]. *)
Definition when_truthy (key : string) (x : option string)
    : list (string * QueryValue) :=
  match x with
  | Some s => if truthy_string s then [(key, QString s)] else []
  | None => []
  end.

(** [apiParams], in the order the properties are assigned.  The rest of
    the destructuring, [otherFilters], is empty: [GetTicketsParams] has no
    field beyond the ten named ones. *)
Definition apiParams (params : GetTicketsParams) : list (string * QueryValue) :=
  when_truthy "company_id" (companyId params)
  ++ when_truthy "department_id" (departmentId params)
  ++ when_truthy "search" (search params)
  ++ when_truthy "status" (status params)
  ++ when_truthy "priority" (priority params)
  ++ match is_critical_only params with
     | Some b => [("is_critical_only", QBool b)]
     | None => []
     end
  ++ match limit params with
     | Some l => [("limit", QNumber l)]
     | None => []
     end
  ++ match page params with
     | Some _ =>
         [("offset",
           number_value
             (js_mul (js_sub (number_or (page params) 1) 1)
                     (number_or (limit params) 15)))]
     | None => []
     end
  ++ when_truthy "sort_by" (sortBy params)
  ++ when_truthy "sort_order" (sortOrder params).

(** The value sent under a key of the query string. *)
Fixpoint wire (key : string) (q : list (string * QueryValue)) : option QueryValue :=
  match q with
  | [] => None
  | (k, v) :: rest => if String.eqb key k then Some v else wire key rest
  end.

(** The part of the list response [getTickets] reads. *)
Record TicketsData (Ticket : Type) : Type := mkTicketsData {
  data_tickets : list Ticket;
  data_total : Z
}.
#[global] Arguments data_tickets {Ticket} t.
#[global] Arguments data_total {Ticket} t.

(** [TicketsResponse], the value [getTickets] returns. *)
Record TicketsResponse (Ticket : Type) : Type := mkTicketsResponse {
  tickets : list Ticket;
  total : Z;
  response_page : Z;
  response_limit : Z;
  totalPages : Z
}.
#[global] Arguments tickets {Ticket} t.
#[global] Arguments total {Ticket} t.
#[global] Arguments response_page {Ticket} t.
#[global] Arguments response_limit {Ticket} t.
#[global] Arguments totalPages {Ticket} t.

(** [Math.ceil(a / b)] on integer-valued numbers, [b] not zero. *)
Definition ceil_quotient (a b : Z) : Z := Qceiling (js_div a b).

(** The object [getTickets] builds from the response body. *)
Definition shape_response {Ticket : Type} (params : GetTicketsParams)
    (responseData : TicketsData Ticket) : TicketsResponse Ticket :=
  {| tickets := data_tickets responseData;
     total := data_total responseData;
     response_page := number_or (page params) 1;
     response_limit := number_or (limit params) 15;
     totalPages := ceil_quotient (data_total responseData)
                                 (number_or (limit params) 15) |}.

(** [getTickets]: the query it sends and, once [answer] is in, what it
    resolves with. *)
Definition getTickets {Ticket : Type} (params : GetTicketsParams)
    (answer : HttpOutcome (TicketsData Ticket))
    : list (string * QueryValue) * M (TicketsResponse Ticket) :=
  (apiParams params,
   responseData <- api_call answer ;;
   ret (shape_response params responseData)).

(* ================================================================== *)
(** ** The documented behaviour, for comparison with the code *)
(* ================================================================== *)

(** The default landing screen of a role, as section 4.3 lists them:
    the cross-tenant administrator goes to the company selection, the
    tenant administrator to the analytics dashboard, the tenant employee
    to the site root, anything else to the generic fallback. *)
Definition default_landing (userRole : string) : string :=
  if String.eqb userRole "superAdmin" then "/admin/select-company"
  else if String.eqb userRole "admin" then "/admin/analytics-dashboard"
  else if String.eqb userRole "employee" then "/"
  else "/".

(** The branches of the component, one constructor for each [return],
    with the tests that lead to it; for case analysis in proofs. *)
Inductive guard_case (roleProp : option RoleProp) (location : Location)
    (w : World) : World -> Element -> Prop :=
| case_not_authenticated :
    isAuthenticated (store w) = false ->
    guard_case roleProp location w
      w (Navigate "/login" (Some location) true)
| case_corrupted_session :
    isAuthenticated (store w) = true ->
    current_role (store w) = None ->
    guard_case roleProp location w
      (update_store clearAuth w) (Navigate "/login" (Some location) true)
| case_role_mismatch (required : RoleProp) (userRole : string) :
    isAuthenticated (store w) = true ->
    current_role (store w) = Some userRole ->
    roleProp = Some required ->
    role_truthy roleProp = true ->
    ~ In userRole (requiredRoles required) ->
    guard_case roleProp location w
      w (Navigate (default_landing userRole) None true)
| case_render (userRole : string) :
    isAuthenticated (store w) = true ->
    current_role (store w) = Some userRole ->
    (role_truthy roleProp = false
     \/ exists required,
          roleProp = Some required /\ In userRole (requiredRoles required)) ->
    guard_case roleProp location w w Children.

(** The session store after "clear the session". *)
Definition with_cleared_session (w : World) : World :=
  {| token := token w;
     authHeader := authHeader w;
     store := {| isAuthenticated := false; user := None;
                 selectedCompanyId := Null |};
     hrefs := hrefs w;
     toasts := toasts w;
     navigations := navigations w |}.

(** "The current user's role": the user record is there and carries a
    role, which is not the empty text. *)
Definition has_role (s : AuthState) (r : string) : Prop :=
  exists u, user s = Some u /\ role u = Some r /\ r <> "".

(** "The user record is absent or its role is absent." *)
Definition role_absent (s : AuthState) : Prop :=
  user s = None
  \/ exists u, user s = Some u /\ (role u = None \/ role u = Some "").

(** "A required role or set of roles is given": the roles the route asks
    for.  One role is given by its name, which is not the empty text; a
    set of roles is given by its list, which may be empty. *)
Inductive required (roleProp : option RoleProp) : list string -> Prop :=
| required_one (r : string) :
    roleProp = Some (OneRole r) -> r <> "" -> required roleProp [r]
| required_set (rs : list string) :
    roleProp = Some (Roles rs) -> required roleProp rs.

(** No role is asked for. *)
Definition nothing_required (roleProp : option RoleProp) : Prop :=
  roleProp = None \/ roleProp = Some (OneRole "").

(** The four ordered rules of section 4.3, in the words of the
    specification.  Each rule carries the negation of the rules before
    it, so at most one applies. *)
Inductive guard_rule (roleProp : option RoleProp) (location : Location)
    (w : World) : World -> Element -> Prop :=
| rule_not_authenticated :
    isAuthenticated (store w) = false ->
    guard_rule roleProp location w
      w (Navigate "/login" (Some location) true)
| rule_corrupted_session :
    isAuthenticated (store w) = true ->
    role_absent (store w) ->
    guard_rule roleProp location w
      (with_cleared_session w) (Navigate "/login" (Some location) true)
| rule_role_mismatch (rs : list string) (userRole : string) :
    isAuthenticated (store w) = true ->
    has_role (store w) userRole ->
    required roleProp rs ->
    ~ In userRole rs ->
    guard_rule roleProp location w
      w (Navigate (default_landing userRole) None true)
| rule_render (userRole : string) :
    isAuthenticated (store w) = true ->
    has_role (store w) userRole ->
    (nothing_required roleProp
     \/ exists rs, required roleProp rs /\ In userRole rs) ->
    guard_rule roleProp location w w Children.

(** "The object has the member [k], with value [v]": the first member
    of that name. *)
Inductive has_member (k : string) : list (string * json) -> json -> Prop :=
| member_here (v : json) (rest : list (string * json)) :
    has_member k ((k, v) :: rest) v
| member_later (k' : string) (v' : json) (rest : list (string * json))
    (v : json) :
    k' <> k -> has_member k rest v -> has_member k ((k', v') :: rest) v.

(** "The validation detail of the body is [v]": the body is an object
    whose [detail] member is [v]. *)
Definition detail_is (data : option json) (v : json) : Prop :=
  exists members, data = Some (JObj members) /\ has_member "detail" members v.

(** One entry of a validation array: an object whose [msg] member is the
    non-empty string [m]. *)
Definition field_error (m : string) (err : json) : Prop :=
  exists members,
    err = JObj members /\ assoc "msg" members = Some (JStr m) /\ m <> "".

(** The state every reset ends in. *)
Definition signed_out (w : World) : Prop :=
  token w = None /\ authHeader w = None /\ store w = initialState.

(* ================================================================== *)
(** ** services/api.ts: the request interceptor *)
(* ================================================================== *)

(** The request callback of [api.interceptors.request.use], on the
    Authorization header of the config it is handed. *)
Definition requestInterceptor (authorization : option string) (w : World)
    : option string :=
  match token w with
  | Some t => if truthy_string t then Some ("Bearer " ++ t)%string
              else authorization
  | None => authorization
  end.

(** The Authorization header a request of the client leaves with.  No
    call in the repository passes one of its own, so the config starts
    from the default header of the client. *)
Definition outgoing_authorization (w : World) : option string :=
  requestInterceptor (authHeader w) w.

(* ================================================================== *)
(** ** App.tsx: the two route tables *)
(* ================================================================== *)

(** The [element] of a [<Route>]: a page behind [<ProtectedRoute role>],
    or a page on its own. *)
Inductive RouteElement : Type :=
| Guarded (roleProp : option RoleProp) (page : string)
| Unguarded (page : string).

(** The routes of the layout with the sidebar, in source order. *)
Definition sidebar_routes : list (string * RouteElement) :=
  [ ("/tickets", Guarded (Some (Roles ["admin"; "employee"])) "AllTicketsPage");
    ("/ticket/:ticketId",
       Guarded (Some (Roles ["admin"; "employee"])) "TicketDetailPage");
    ("/profile", Guarded None "ProfilePage");
    ("/admin/select-company",
       Guarded (Some (OneRole "superAdmin")) "SelectCompanyPage");
    ("/admin/company-dashboard",
       Guarded (Some (OneRole "superAdmin")) "CompanyDashboard");
    ("/admin/analytics-dashboard",
       Guarded (Some (OneRole "admin")) "AdminAnalyticsDashboardPage");
    ("/employee/dashboard",
       Guarded (Some (OneRole "employee")) "AdminAnalyticsDashboardPage");
    ("/admin/team", Guarded (Some (OneRole "admin")) "AdminTeamManagementPage");
    ("/admin/dummy-create-ticket",
       Guarded (Some (Roles ["admin"; "superAdmin"])) "DummyCreateTicketPage");
    ("/admin/documentation",
       Guarded (Some (Roles ["admin"; "superAdmin"])) "AdminDocsPage");
    ("/product", Unguarded "ProductPage");
    ("/company", Unguarded "CompanyDetailsPage") ].

(** The routes of the layout with the top navigation bar. *)
Definition public_routes : list (string * RouteElement) :=
  [ ("/", Unguarded "HomePage");
    ("/product", Unguarded "ProductPage");
    ("/company", Unguarded "CompanyDetailsPage");
    ("/login", Unguarded "SignInPage");
    ("/signup", Unguarded "SignUpPage") ].

(** [isAuthenticated && !["/login", "/signup", "/"].includes(pathname)] *)
Definition shouldUseSidebar (w : World) (location : Location) : bool :=
  isAuthenticated (store w)
  && negb (includes ["/login"; "/signup"; "/"] (location_pathname location)).

(** The segments of a path: the text between its slashes. *)
Fixpoint segments_from (current : string) (s : string) : list string :=
  match s with
  | EmptyString => [current]
  | String c rest =>
      if Ascii.eqb c "/"%char then current :: segments_from EmptyString rest
      else segments_from (current ++ String c EmptyString)%string rest
  end.

Definition segments (path : string) : list string :=
  segments_from EmptyString path.

(** A segment of a route pattern against a segment of the path: a
    [:param] takes any non-empty segment, anything else must be equal. *)
Definition segment_matches (pattern segment : string) : bool :=
  match pattern with
  | String c _ =>
      if Ascii.eqb c ":"%char then truthy_string segment
      else String.eqb pattern segment
  | EmptyString => String.eqb pattern segment
  end.

Fixpoint segments_match (patterns path : list string) : bool :=
  match patterns, path with
  | [], [] => true
  | p :: ps, x :: xs => segment_matches p x && segments_match ps xs
  | _, _ => false
  end.

(** The router's choice of a route for a path that is written the way
    the links, redirects and [navigate] calls of the application write
    their paths: in lower case, without a trailing slash and without
    percent escapes.  Patterns are compared segment by segment; the tables
    hold no two patterns that overlap.  (The router itself also accepts
    other spellings of the same path: it ignores letter case and trailing
    slashes and decodes escapes first.) *)
Fixpoint match_route (routes : list (string * RouteElement)) (path : string)
    : option RouteElement :=
  match routes with
  | [] => None
  | (pattern, element) :: rest =>
      if segments_match (segments pattern) (segments path) then Some element
      else match_route rest path
  end.

(** What [App] mounts in its [<Routes>] once it has initialised: the
    page component of the route that matches ([Page], behind its guard
    where the route has one), the redirect of the guard, or nothing.  What
    a page component does once it is mounted is its own business, see
    [AllTicketsPage_checks] and [AdminAnalyticsDashboardPage_checks]. *)
Inductive Outlet : Type :=
| Page (name : string)
| Redirect (to : string) (from : option Location) (replace : bool)
| NoMatch.

(** The [<Routes>] of [App] for a location: the table is chosen by
    [shouldUseSidebar], the route by the path, and a guarded page goes
    through [ProtectedRoute]. *)
Definition App_outlet (location : Location) (w : World) : World * Outlet :=
  let routes :=
    if shouldUseSidebar w location then sidebar_routes else public_routes in
  match match_route routes (location_pathname location) with
  | None => (w, NoMatch)
  | Some (Unguarded page) => (w, Page page)
  | Some (Guarded roleProp page) =>
      match ProtectedRoute roleProp location w with
      | (w1, Children) => (w1, Page page)
      | (w1, Navigate to from replace) => (w1, Redirect to from replace)
      end
  end.

(** The location the router is at after a navigation to [path]. *)
Definition location_of (path : string) : Location :=
  {| location_pathname := path; location_search := ""; location_hash := "" |}.

(* ================================================================== *)
(** ** components/Sidebar.tsx: the links it shows *)
(* ================================================================== *)

(** [!!selectedCompanyId] *)
Definition truthy_nullable (x : nullable string) : bool :=
  match x with
  | Val s => truthy_string s
  | _ => false
  end.

(** [user?.role === name] *)
Definition user_role_is (s : AuthState) (name : string) : bool :=
  match user s with
  | Some u => role_is u name
  | None => false
  end.

(** The [to] of every [<NavLink>] the sidebar renders, top to bottom. *)
Definition Sidebar_links (s : AuthState) : list string :=
  ((if user_role_is s "superAdmin" then
      ["/admin/select-company"; "/admin/select-company"]
      ++ (if truthy_nullable (selectedCompanyId s)
          then ["/admin/company-dashboard"] else [])
      ++ ["/admin/documentation"]
    else [])
   ++ (if user_role_is s "admin" then
         ["/admin/analytics-dashboard"; "/admin/team"; "/tickets";
          "/admin/documentation"]
       else [])
   ++ (if user_role_is s "employee" then
         ["/employee/dashboard"; "/tickets"]
       else [])
   ++ ["/product"]
   ++ (match user s with
       | Some _ => ["/profile"]
       | None => []
       end))%list.

(** [response.status === 401] for an error that carries a response. *)
Definition is_401 (error : AxiosError) : bool :=
  match error with
  | ResponseError status _ => status =? 401
  | NetworkError => false
  end.

(** The company [attemptRehydrate] selects for a rehydrated user, given
    the one selected before. *)
Definition rehydrated_company (u : User) (before : nullable string)
    : nullable string :=
  if role_is u "superAdmin" then Null
  else if role_is u "admin" || role_is u "employee" then
    match company_id u with
    | Undefined => Null
    | c => c
    end
  else before.

(** The pages of the layout without the sidebar. *)
Definition public_pages : list string :=
  ["HomePage"; "ProductPage"; "CompanyDetailsPage"; "SignInPage"; "SignUpPage"].

(* ================================================================== *)
(** ** pages/AllTicketsPage.tsx: filters, sorting and paging *)
(* ================================================================== *)

Definition initialFilters : GetTicketsParams :=
  {| companyId := None; departmentId := None; priority := None;
     status := None; sortBy := Some "created_at"; sortOrder := Some "desc";
     page := Some 1; limit := Some 15;
     search := Some ""; is_critical_only := None |}.

(** [x || undefined] for [x : string | null | undefined]. *)
Definition nullable_or_undefined (x : nullable string) : option string :=
  match x with
  | Val s => if truthy_string s then Some s else None
  | _ => None
  end.

Definition option_or_undefined (x : option string) : option string :=
  match x with
  | Some s => if truthy_string s then Some s else None
  | None => None
  end.

(** [queryParams]: the filters of the page with the company and the
    department the signed-in user is bound to. *)
Definition queryParams (u : option User) (filters : GetTicketsParams)
    : GetTicketsParams :=
  {| companyId :=
       match u with
       | Some usr =>
           if role_is usr "admin" || role_is usr "superAdmin"
           then nullable_or_undefined (company_id usr)
           else None
       | None => None
       end;
     departmentId :=
       match u with
       | Some usr =>
           if role_is usr "employee"
           then option_or_undefined (department_id usr)
           else departmentId filters
       | None => departmentId filters
       end;
     priority := priority filters;
     status := status filters;
     sortBy := sortBy filters;
     sortOrder := sortOrder filters;
     page := page filters;
     limit := limit filters;
     search := search filters;
     is_critical_only := is_critical_only filters |}.

(** The [name] of the four inputs that call [handleFilterChange]. *)
Inductive FilterField : Type :=
| SearchField
| StatusField
| PriorityField
| DepartmentIdField.

(** [{...prev, [name]: value || undefined, page: 1}] *)
Definition handleFilterChange (name : FilterField) (value : string)
    (prev : GetTicketsParams) : GetTicketsParams :=
  let v := if truthy_string value then Some value else None in
  {| companyId := companyId prev;
     departmentId :=
       match name with DepartmentIdField => v | _ => departmentId prev end;
     priority := match name with PriorityField => v | _ => priority prev end;
     status := match name with StatusField => v | _ => status prev end;
     sortBy := sortBy prev;
     sortOrder := sortOrder prev;
     page := Some 1;
     limit := limit prev;
     search := match name with SearchField => v | _ => search prev end;
     is_critical_only := is_critical_only prev |}.

(** [prev.sortBy === sortKey && prev.sortOrder === "asc"] *)
Definition sorted_ascending_by (sortKey : string) (prev : GetTicketsParams)
    : bool :=
  match sortBy prev, sortOrder prev with
  | Some k, Some o => String.eqb k sortKey && String.eqb o "asc"
  | _, _ => false
  end.

Definition handleSort (sortKey : string) (prev : GetTicketsParams)
    : GetTicketsParams :=
  {| companyId := companyId prev;
     departmentId := departmentId prev;
     priority := priority prev;
     status := status prev;
     sortBy := Some sortKey;
     sortOrder := Some (if sorted_ascending_by sortKey prev
                        then "desc" else "asc");
     page := Some 1;
     limit := limit prev;
     search := search prev;
     is_critical_only := is_critical_only prev |}.

Definition clearFilters (prev : GetTicketsParams) : GetTicketsParams :=
  initialFilters.

Definition with_page (p : Z) (prev : GetTicketsParams) : GetTicketsParams :=
  {| companyId := companyId prev;
     departmentId := departmentId prev;
     priority := priority prev;
     status := status prev;
     sortBy := sortBy prev;
     sortOrder := sortOrder prev;
     page := Some p;
     limit := limit prev;
     search := search prev;
     is_critical_only := is_critical_only prev |}.

(** The click handler of the Previous button:
    [page: Math.max((prev.page || 1) - 1, 1)]. *)
Definition previousPage (prev : GetTicketsParams) : GetTicketsParams :=
  with_page (Z.max (js_sub (number_or (page prev) 1) 1) 1) prev.

(** The click handler of the Next button, with the [totalPages] of the
    render: [page: Math.min((prev.page || 1) + 1, totalPages)]. *)
Definition nextPage (totalPages : Z) (prev : GetTicketsParams)
    : GetTicketsParams :=
  with_page (Z.min (js_add (number_or (page prev) 1) 1) totalPages) prev.

(** A click on one of the two paging buttons. *)
Inductive PageClick : Type :=
| ClickPrevious
| ClickNext.

Definition click (totalPages : Z) (c : PageClick) (prev : GetTicketsParams)
    : GetTicketsParams :=
  match c with
  | ClickPrevious => previousPage prev
  | ClickNext => nextPage totalPages prev
  end.

(** The filters after a series of clicks, first click first. *)
Definition clicks (totalPages : Z) (cs : list PageClick)
    (filters : GetTicketsParams) : GetTicketsParams :=
  fold_left (fun f c => click totalPages c f) cs filters.

(** What [apiParams] sends for a string filter: nothing when the filter
    is missing or empty. *)
Definition sent (x : option string) : option QueryValue :=
  match x with
  | Some s => if truthy_string s then Some (QString s) else None
  | None => None
  end.

(** The keys of the ticket query. *)
Definition ticket_query_keys : list string :=
  ["company_id"; "department_id"; "search"; "status"; "priority";
   "is_critical_only"; "limit"; "offset"; "sort_by"; "sort_order"].

(* ================================================================== *)
(** ** services/analyticsService.ts and services/userService.ts *)
(* ================================================================== *)

Record AnalyticsFilters : Type := mkAnalyticsFilters {
  analytics_companyId : option string;
  analytics_departmentId : option string;
  analytics_startDate : option string;
  analytics_endDate : option string;
  analytics_userId : option string;
  analytics_interval : option string
}.

Definition prepareAnalyticsParams (filters : AnalyticsFilters)
    : list (string * QueryValue) :=
  when_truthy "company_id" (analytics_companyId filters)
  ++ when_truthy "department_id" (analytics_departmentId filters)
  ++ when_truthy "start_date" (analytics_startDate filters)
  ++ when_truthy "end_date" (analytics_endDate filters)
  ++ when_truthy "user_id" (analytics_userId filters)
  ++ when_truthy "interval" (analytics_interval filters).

Record UserFilters : Type := mkUserFilters {
  users_departmentId : option string;
  users_companyId : option string;
  users_role : option string;
  users_search : option string;
  users_limit : option Z;
  users_offset : option Z
}.

(** A property of [params] that survives the removal of the undefined
    ones. *)
Definition when_defined {A : Type} (key : string) (inject : A -> QueryValue)
    (x : option A) : list (string * QueryValue) :=
  match x with
  | Some a => [(key, inject a)]
  | None => []
  end.

(** The [params] of [getUsers] once the undefined keys are deleted. *)
Definition getUsers_params (filters : UserFilters)
    : list (string * QueryValue) :=
  when_defined "company_id" QString (users_companyId filters)
  ++ when_defined "department_id" QString (users_departmentId filters)
  ++ when_defined "role" QString (users_role filters)
  ++ when_defined "search" QString (users_search filters)
  ++ when_defined "limit" QNumber (users_limit filters)
  ++ when_defined "offset" QNumber (users_offset filters).

(** The filters [getUsersInDepartment] hands to [getUsers]. *)
Definition getUsersInDepartment_filters (departmentId_arg : string)
    (limit_arg offset_arg : option Z) : UserFilters :=
  {| users_departmentId := Some departmentId_arg;
     users_companyId := None;
     users_role := None;
     users_search := None;
     users_limit := limit_arg;
     users_offset := offset_arg |}.

(** The key of the ticket query fed by each filter input. *)
Definition filter_key (name : FilterField) : string :=
  match name with
  | SearchField => "search"
  | StatusField => "status"
  | PriorityField => "priority"
  | DepartmentIdField => "department_id"
  end.

(** The keys of the analytics query. *)
Definition analytics_query_keys : list string :=
  ["company_id"; "department_id"; "start_date"; "end_date"; "user_id";
   "interval"].

(* ================================================================== *)
(** ** pages/AllTicketsPage.tsx: what the page shows *)
(* ================================================================== *)

(** [enabled] of the tickets query: [!!user && (user.role === "superAdmin"
    || !!user.company_id || user.role === "employee")]. *)
Definition query_enabled (u : option User) : bool :=
  match u with
  | Some u =>
      role_is u "superAdmin" || truthy_nullable (company_id u)
      || role_is u "employee"
  | None => false
  end.

(** The checks the page makes before it renders the table: the target of
    the [<Navigate>] it returns, if any. *)
Definition AllTicketsPage_checks (u : option User) (w : World)
    : World * option string :=
  match u with
  | None => (w, Some "/login")
  | Some u =>
      if role_is u "admin" && negb (truthy_nullable (company_id u)) then
        (toast_error (JStr "Admin account not associated with a company.") w,
         Some "/admin/analytics-dashboard")
      else if role_is u "employee" && negb (truthy_opt (department_id u)) then
        (toast_error
           (JStr "Employee account not associated with a department.") w,
         Some "/login")
      else (w, None)
  end.

(* ================================================================== *)
(** ** pages/HomePage.tsx *)
(* ================================================================== *)


(* ================================================================== *)
(** ** components/UploadDropzone.tsx *)
(* ================================================================== *)

(** What the component reads of a [File]. *)
Record File : Type := mkFile {
  file_name : string;
  file_type : string
}.

(** [s.split(".")] *)
Fixpoint split_dot (s : string) : list string :=
  match s with
  | EmptyString => [EmptyString]
  | String c rest =>
      if Ascii.eqb c "." then EmptyString :: split_dot rest
      else match split_dot rest with
           | first :: others => String c first :: others
           | [] => [String c EmptyString]
           end
  end.

(** [Array.prototype.pop]: the last element, [undefined] on an empty
    array. *)
Fixpoint pop (l : list string) : option string :=
  match l with
  | [] => None
  | [x] => Some x
  | _ :: rest => pop rest
  end.

(** [toLowerCase] of a code unit below 256: the letters A to Z and the
    capital letters of Latin-1 (U+00C0 to U+00DE without the
    multiplication sign U+00D7) move up by 32. *)
Definition lower_char (c : ascii) : ascii :=
  let n := nat_of_ascii c in
  if (Nat.leb 65 n && Nat.leb n 90)
     || (Nat.leb 192 n && Nat.leb n 222 && negb (Nat.eqb n 215))
  then ascii_of_nat (n + 32) else c.

Fixpoint toLowerCase (s : string) : string :=
  match s with
  | EmptyString => EmptyString
  | String c rest => String (lower_char c) (toLowerCase rest)
  end.

(** [`.${file.name.split('.').pop()?.toLowerCase()}`] *)
Definition fileExtension (file : File) : string :=
  ("." ++ match pop (split_dot (file_name file)) with
          | Some last => toLowerCase last
          | None => "undefined"
          end)%string.

(** [handleDrop]: the file handed to [onFileSelect], if any. *)
Definition handleDrop (accept : list string) (files : list File)
    : option File :=
  match files with
  | [] => None
  | file :: _ =>
      if includes accept (fileExtension file)
         || includes accept (file_type file)
      then Some file else None
  end.

(** [handleFileChange]; [files] is [e.target.files], which may be
    null. *)
Definition handleFileChange (files : option (list File)) : option File :=
  match files with
  | Some (file :: _) => Some file
  | _ => None
  end.

(** No dot occurs in [s]. *)
Fixpoint dotless (s : string) : bool :=
  match s with
  | EmptyString => true
  | String c rest => negb (Ascii.eqb c ".") && dotless rest
  end.

(* ================================================================== *)
(** ** components/SignUpStepper.tsx *)
(* ================================================================== *)

(** [String.prototype.trim] on code units below 256, where the white
    space and the line terminators are the characters of [\s]. *)
Fixpoint trimStart (s : string) : string :=
  match s with
  | EmptyString => EmptyString
  | String c rest => if is_space c then trimStart rest else s
  end.

Fixpoint trimEnd (s : string) : string :=
  match s with
  | EmptyString => EmptyString
  | String c rest =>
      match trimEnd rest with
      | EmptyString => if is_space c then EmptyString else String c EmptyString
      | kept => String c kept
      end
  end.

Definition trim (s : string) : string := trimEnd (trimStart s).

Record FormData : Type := mkFormData {
  form_companyName : string;
  form_adminName : string;
  form_email : string;
  form_password : string;
  form_confirmPassword : string;
  form_companyProfile : option File
}.

(** [newErrors] of [validateStep1]. *)
Record Step1Errors : Type := mkStep1Errors {
  step1_companyName : option string;
  step1_adminName : option string;
  step1_email : option string;
  step1_password : option string;
  step1_confirmPassword : option string
}.

Definition step1_errors (f : FormData) : Step1Errors :=
  {| step1_companyName :=
       if negb (truthy_string (trim (form_companyName f)))
       then Some "Company name is required" else None;
     step1_adminName :=
       if negb (truthy_string (trim (form_adminName f)))
       then Some "Admin name is required" else None;
     step1_email :=
       if negb (truthy_string (trim (form_email f)))
       then Some "Email is required"
       else if negb (email_regex_test (form_email f))
       then Some "Email is invalid" else None;
     step1_password :=
       if negb (truthy_string (form_password f))
       then Some "Password is required"
       else if Nat.ltb (String.length (form_password f)) 8
       then Some "Password must be at least 8 characters" else None;
     step1_confirmPassword :=
       if negb (String.eqb (form_password f) (form_confirmPassword f))
       then Some "Passwords do not match" else None |}.

(** [Object.keys(newErrors).length === 0] *)
Definition validateStep1 (f : FormData) : bool :=
  match step1_companyName (step1_errors f), step1_adminName (step1_errors f),
        step1_email (step1_errors f), step1_password (step1_errors f),
        step1_confirmPassword (step1_errors f) with
  | None, None, None, None, None => true
  | _, _, _, _, _ => false
  end.

Definition validateStep2 (f : FormData) : bool :=
  match form_companyProfile f with
  | Some _ => true
  | None => false
  end.

(** The [currentStep] and [formData] states of the component. *)
Record Stepper : Type := mkStepper {
  currentStep : Z;
  formData : FormData
}.

Inductive InputName : Type :=
| CompanyNameInput | AdminNameInput | EmailInput | PasswordInput
| ConfirmPasswordInput.

(** [setFormData((prev) => ({ ...prev, [name]: value }))] *)
Definition handleInputChange (name : InputName) (value : string)
    (prev : FormData) : FormData :=
  {| form_companyName :=
       match name with CompanyNameInput => value | _ => form_companyName prev end;
     form_adminName :=
       match name with AdminNameInput => value | _ => form_adminName prev end;
     form_email :=
       match name with EmailInput => value | _ => form_email prev end;
     form_password :=
       match name with PasswordInput => value | _ => form_password prev end;
     form_confirmPassword :=
       match name with
       | ConfirmPasswordInput => value
       | _ => form_confirmPassword prev
       end;
     form_companyProfile := form_companyProfile prev |}.

Definition handleCompanyProfileSelect (file : File) (prev : FormData)
    : FormData :=
  {| form_companyName := form_companyName prev;
     form_adminName := form_adminName prev;
     form_email := form_email prev;
     form_password := form_password prev;
     form_confirmPassword := form_confirmPassword prev;
     form_companyProfile := Some file |}.

Definition nextStep (st : Stepper) : Stepper :=
  if (currentStep st =? 1)%Z && validateStep1 (formData st)
  then {| currentStep := 2; formData := formData st |}
  else st.

Definition prevStep (st : Stepper) : Stepper :=
  if (currentStep st >? 1)%Z
  then {| currentStep := currentStep st - 1; formData := formData st |}
  else st.

(** What the user can do with the form. *)
Inductive StepperEvent : Type :=
| Typed (name : InputName) (value : string)
| Selected (file : File)
| Next
| Back.

Definition handle_event (st : Stepper) (ev : StepperEvent) : Stepper :=
  match ev with
  | Typed name value =>
      {| currentStep := currentStep st;
         formData := handleInputChange name value (formData st) |}
  | Selected file =>
      {| currentStep := currentStep st;
         formData := handleCompanyProfileSelect file (formData st) |}
  | Next => nextStep st
  | Back => prevStep st
  end.

Definition handle_events (st : Stepper) (evs : list StepperEvent) : Stepper :=
  fold_left handle_event evs st.

(** Some character of [s] is not white space. *)
Definition visible (s : string) : Prop :=
  exists pre c post,
    s = (pre ++ String c post)%string /\ is_space c = false.

(** Every character of [s] is white space. *)
Fixpoint blank (s : string) : bool :=
  match s with
  | EmptyString => true
  | String c rest => is_space c && blank rest
  end.

(* ================================================================== *)
(** ** pages/admin/AdminAnalyticsDashboardPage.tsx: its own check *)
(* ================================================================== *)

(** The check the dashboard page makes before it renders, on the [user]
    of the store: [if (user?.role !== "admin")] it notifies and returns a
    [<Navigate to="/login" replace />]; the target of that redirect, if
    any. *)
Definition AdminAnalyticsDashboardPage_checks (u : option User) (w : World)
    : World * option string :=
  if match u with
     | Some usr => role_is usr "admin"
     | None => false
     end
  then (w, None)
  else
    (toast_error
       (JStr "Access Denied. You must be an Admin to view this page.") w,
     Some "/login").

(* ================================================================== *)
(** ** Concrete inputs for the runs at the end of the file *)
(* ================================================================== *)

(** A stand-in number printer; no run below serialises a number. *)
Definition sample_show_number (q : Q) : string := "0".

(** The binary64 value nearest to one thousandth; it lies above it. *)
Definition one_thousandth : Q :=
  1152921504606847 # 1152921504606846976.

(** A decoder that knows five tokens: "good" carries [exp = 2000],
    "text" carries the string "2000" as [exp], "edge" carries
    [one_thousandth], "null" decodes to [null], anything else is
    rejected. *)
Definition sample_jwtDecode (t : string) : Decoded :=
  if String.eqb t "good"
  then DecodedPayload {| exp := Some (JNum (inject_Z 2000)) |}
  else if String.eqb t "text" then DecodedPayload {| exp := Some (JStr "2000") |}
  else if String.eqb t "edge" then DecodedPayload {| exp := Some (JNum one_thousandth) |}
  else if String.eqb t "null" then DecodedNull
  else DecodeThrows.

(** A tab that holds nothing but the given token. *)
Definition tab_with_token (t : string) : World :=
  {| token := Some t; authHeader := None; store := initialState;
     hrefs := []; toasts := []; navigations := [] |}.

(** A stand-in for [StringToNumber] that knows the literal "2000". *)
Definition sample_string_to_number (s : string) : JsNumber :=
  if String.eqb s "2000" then Num (inject_Z 2000) else NaN.

Definition fresh_world : World :=
  {| token := None; authHeader := None; store := initialState;
     hrefs := []; toasts := []; navigations := [] |}.

(** A tenant administrator of company "T1". *)
Definition sample_admin : User :=
  {| id := "u1"; username := "ada"; email := "ada@t1.example";
     role := Some "admin"; company_id := Val "T1"; department_id := None |}.

(** The same kind of record with the role left out by the backend. *)
Definition roleless_user : User :=
  {| id := "u2"; username := "bob"; email := "bob@t1.example";
     role := None; company_id := Val "T1"; department_id := None |}.

Definition signed_in_world : World :=
  {| token := Some "good"; authHeader := Some "Bearer good";
     store := {| isAuthenticated := true; user := Some sample_admin;
                 selectedCompanyId := Val "T1" |};
     hrefs := []; toasts := []; navigations := [] |}.

(** A tab holding a token whose store is authenticated as a user
    without a role. *)
Definition corrupted_world : World :=
  {| token := Some "good"; authHeader := Some "Bearer good";
     store := {| isAuthenticated := true; user := Some roleless_user;
                 selectedCompanyId := Val "T1" |};
     hrefs := []; toasts := []; navigations := [] |}.

Definition admin_login_response : LoginResponse :=
  {| access_token := "good"; token_type := "bearer";
     response_user := sample_admin |}.

Definition roleless_login_response : LoginResponse :=
  {| access_token := "good"; token_type := "bearer";
     response_user := roleless_user |}.

Definition tickets_location : Location :=
  {| location_pathname := "/tickets"; location_search := "";
     location_hash := "" |}.

(** A FastAPI validation body: two field errors. *)
Definition sample_field_errors : list json :=
  [ JObj [("loc", JArr [JStr "body"; JStr "email"]);
          ("msg", JStr "field required");
          ("type", JStr "value_error.missing")];
    JObj [("msg", JStr "value is not a valid email")] ].

Definition sample_validation_body : option json :=
  Some (JObj [("detail", JArr sample_field_errors)]).

(** The third page of a list shown fifteen per page. *)
Definition page_three : GetTicketsParams :=
  {| companyId := Some "T1"; departmentId := None; priority := None;
     status := None; sortBy := None; sortOrder := None;
     page := Some 3; limit := Some 15;
     search := None; is_critical_only := None |}.

(** Page 3 asked for with a page size of 0. *)
Definition page_three_unsized : GetTicketsParams :=
  {| companyId := Some "T1"; departmentId := None; priority := None;
     status := None; sortBy := None; sortOrder := None;
     page := Some 3; limit := Some 0;
     search := None; is_critical_only := None |}.

(** Page 4 at the largest safe integer per page. *)
Definition page_four_huge : GetTicketsParams :=
  {| companyId := Some "T1"; departmentId := None; priority := None;
     status := None; sortBy := None; sortOrder := None;
     page := Some 4; limit := Some (2 ^ 53 - 1);
     search := None; is_critical_only := None |}.

(** A list response announcing forty-two tickets. *)
Definition forty_two_tickets : TicketsData string :=
  {| data_tickets := ["t1"; "t2"]; data_total := 42 |}.

(** An employee of department "D7" of company "T1". *)
Definition sample_employee : User :=
  {| id := "u3"; username := "eve"; email := "eve@t1.example";
     role := Some "employee"; company_id := Val "T1";
     department_id := Some "D7" |}.

(** An employee whose record names no department. *)
Definition unassigned_employee : User :=
  {| id := "u4"; username := "dan"; email := "dan@t1.example";
     role := Some "employee"; company_id := Val "T1";
     department_id := None |}.

Definition unassigned_login_response : LoginResponse :=
  {| access_token := "good"; token_type := "bearer";
     response_user := unassigned_employee |}.

(** A tab that holds a token the decoder rejects, not yet signed in. *)
Definition stale_world : World :=
  {| token := Some "stale"; authHeader := Some "Bearer stale";
     store := initialState; hrefs := []; toasts := []; navigations := [] |}.

(** A tab that holds the token "good" before its session is restored. *)
Definition reloaded_world : World :=
  {| token := Some "good"; authHeader := Some "Bearer good";
     store := initialState; hrefs := []; toasts := []; navigations := [] |}.

(** The sign-up form filled in, and the stepper on its first step. *)
Definition sample_form : FormData :=
  {| form_companyName := "Acme"; form_adminName := "Ada";
     form_email := "ada@t1.example"; form_password := "correct horse";
     form_confirmPassword := "correct horse"; form_companyProfile := None |}.

Definition sample_stepper : Stepper :=
  {| currentStep := 1; formData := sample_form |}.

Definition sample_profile : File :=
  {| file_name := "Profile.PDF"; file_type := "" |}.

(* ================================================================== *)
(** ** The e-mail pattern on a few inputs *)
(* ================================================================== *)

Example email_plain : email_regex_test "ada@t1.example" = true.
Proof. reflexivity. Qed.

Example email_inside_text : email_regex_test "to ada@t1.example now" = true.
Proof. reflexivity. Qed.

Example email_no_local_part : email_regex_test "@t1.example" = false.
Proof. reflexivity. Qed.

Example email_no_domain : email_regex_test "ada@.example" = false.
Proof. reflexivity. Qed.

Example email_nothing_after_dot : email_regex_test "ada@t1." = false.
Proof. reflexivity. Qed.

Example email_space_before_at : email_regex_test "ada @t1.example" = false.
Proof. reflexivity. Qed.

Example email_backtracking : email_regex_test "a@@..c" = true.
Proof. reflexivity. Qed.

(** The threads after reading [s] from the state [t]: a match is found
    exactly when one was found already, or a live thread, or a new one,
    can finish inside [s]. *)
Lemma run_threads_matched (s : string) (t : Threads) :
  matched (run_threads t s) = true
  <-> matched t = true
      \/ (at_dot t = true /\ after_dot s)
      \/ (in_domain t = true /\ domain_tail s)
      \/ (at_sign t = true /\ after_at s)
      \/ (in_local t = true /\ local_tail s)
      \/ anywhere s.
Proof.
  revert t. induction s as [|c rest IH]; intros t.
  - simpl. tauto.
  - change (run_threads t (String c rest))
      with (run_threads (step_threads t c) rest).
    rewrite IH. unfold step_threads; simpl.
    change (ascii_of_nat 64) with "@"%char.
    change (ascii_of_nat 46) with "."%char.
    rewrite !andb_true_iff, !orb_true_iff, !andb_true_iff,
      !negb_true_iff, !Ascii.eqb_eq.
    tauto.
Qed.

Lemma after_dot_word (s : string) :
  after_dot s <-> exists c post, s = (c ++ post)%string /\ word c.
Proof.
  split.
  - destruct s as [|x rest]; simpl; [tauto|]. intros Hx.
    exists (String x EmptyString), rest. repeat split; auto. discriminate.
  - intros [c [post [-> [Hne Hns]]]].
    destruct c as [|x c']; [congruence|]. simpl. apply Hns.
Qed.

Lemma domain_tail_split (s : string) :
  domain_tail s
  <-> exists b c post,
        s = (b ++ "." ++ c ++ post)%string /\ non_space b /\ word c.
Proof.
  split.
  - induction s as [|x rest IH]; simpl; [tauto|].
    intros [[Hx Hrest] | [-> Hdot]].
    + destruct (IH Hrest) as [b [c [post [-> [Hb Hc]]]]].
      exists (String x b), c, post.
      split; [reflexivity|]. split; [split; assumption | exact Hc].
    + apply after_dot_word in Hdot. destruct Hdot as [c [post [-> Hc]]].
      exists EmptyString, c, post.
      split; [reflexivity|]. split; [exact I | exact Hc].
  - intros [b [c [post [-> [Hb Hc]]]]].
    induction b as [|x b IH]; simpl.
    + right. split; [reflexivity|]. apply after_dot_word. eauto.
    + destruct Hb as [Hx Hb]. left. split; [exact Hx | now apply IH].
Qed.

Lemma after_at_split (s : string) :
  after_at s
  <-> exists b c post,
        s = (b ++ "." ++ c ++ post)%string /\ word b /\ word c.
Proof.
  split.
  - destruct s as [|x rest]; simpl; [tauto|]. intros [Hx Hrest].
    apply domain_tail_split in Hrest.
    destruct Hrest as [b [c [post [-> [Hb Hc]]]]].
    exists (String x b), c, post.
    split; [reflexivity|]. split; [|exact Hc].
    split; [discriminate | split; assumption].
  - intros [b [c [post [-> [[Hne Hb] Hc]]]]].
    destruct b as [|x b]; [congruence|]. destruct Hb as [Hx Hb]. simpl.
    split; [exact Hx|]. apply domain_tail_split.
    exists b, c, post. split; [reflexivity|]. split; assumption.
Qed.

Lemma local_tail_split (s : string) :
  local_tail s
  <-> exists a b c post,
        s = (a ++ "@" ++ b ++ "." ++ c ++ post)%string
        /\ non_space a /\ word b /\ word c.
Proof.
  split.
  - induction s as [|x rest IH]; simpl; [tauto|].
    intros [[Hx Hrest] | [-> Hat]].
    + destruct (IH Hrest) as [a [b [c [post [-> [Ha [Hb Hc]]]]]]].
      exists (String x a), b, c, post.
      split; [reflexivity|]. split; [split; assumption|]. split; assumption.
    + apply after_at_split in Hat.
      destruct Hat as [b [c [post [-> [Hb Hc]]]]].
      exists EmptyString, b, c, post.
      split; [reflexivity|]. split; [exact I|]. split; assumption.
  - intros [a [b [c [post [-> [Ha [Hb Hc]]]]]]].
    induction a as [|x a IH]; simpl.
    + right. split; [reflexivity|]. apply after_at_split.
      exists b, c, post. split; [reflexivity|]. split; assumption.
    + destruct Ha as [Hx Ha]. left. split; [exact Hx | now apply IH].
Qed.

Lemma anywhere_contains_email (s : string) :
  anywhere s <-> contains_email s.
Proof.
  unfold contains_email. split.
  - induction s as [|x rest IH]; simpl; [tauto|].
    intros [Hrest | [Hx Hlocal]].
    + destruct (IH Hrest) as [pre [a [b [c [post [-> H]]]]]].
      exists (String x pre), a, b, c, post. split; [reflexivity | exact H].
    + apply local_tail_split in Hlocal.
      destruct Hlocal as [a [b [c [post [-> [Ha [Hb Hc]]]]]]].
      exists EmptyString, (String x a), b, c, post.
      split; [reflexivity|]. split; [|split; assumption].
      split; [discriminate | split; assumption].
  - intros [pre [a [b [c [post [-> [[Hne Ha] [Hb Hc]]]]]]]].
    induction pre as [|x pre IH]; simpl.
    + destruct a as [|y a]; [congruence|]. destruct Ha as [Hy Ha]. simpl.
      right. split; [exact Hy|]. apply local_tail_split.
      exists a, b, c, post.
      split; [reflexivity|]. split; [assumption|]. split; assumption.
    + left. exact IH.
Qed.

(** [email_regex_test] decides whether some substring of the input has
    the shape [\S+@\S+\.\S+]. *)
Lemma email_regex_test_correct (s : string) :
  email_regex_test s = true <-> contains_email s.
Proof.
  unfold email_regex_test. rewrite run_threads_matched.
  rewrite <- anywhere_contains_email. simpl.
  split; [|tauto].
  intros [H | [[H _] | [[H _] | [[H _] | [[H _] | H]]]]];
    try discriminate; exact H.
Qed.

(* ================================================================== *)
(** ** Properties of the session store *)
(* ================================================================== *)

Lemma clearAuth_initialState (s : AuthState) : clearAuth s = initialState.
Proof. reflexivity. Qed.



Lemma role_invariant_initialState : role_invariant initialState.
Proof. unfold role_invariant; simpl; discriminate. Qed.

(** C8: from every state of the session store, [clearAuth] (the store's
    clear operation) yields [isAuthenticated = false], no current user and
    no selected company; it does so in a single [set] that writes the three
    fields together, and clearing again changes nothing. *)
Theorem clearAuth_total_reset (s : AuthState) :
  isAuthenticated (clearAuth s) = false
  /\ user (clearAuth s) = None
  /\ selectedCompanyId (clearAuth s) = Null
  /\ clearAuth s
     = set {| patch_isAuthenticated := Some false;
              patch_user := Some None;
              patch_selectedCompanyId := Some Null |} s
  /\ clearAuth (clearAuth s) = clearAuth s.
Proof.
  destruct s as [a u c]; unfold clearAuth, set; simpl.
  repeat split; reflexivity.
Qed.

(* ================================================================== *)
(** ** Properties of the route guard *)
(* ================================================================== *)

Lemma includes_In (l : list string) (x : string) :
  includes l x = true <-> In x l.
Proof.
  unfold includes; rewrite existsb_exists; split.
  - intros [y [Hy He]]. apply String.eqb_eq in He. now subst.
  - intros H. exists x. split; [exact H | apply String.eqb_refl].
Qed.

Lemma includes_not_In (l : list string) (x : string) :
  includes l x = false <-> ~ In x l.
Proof.
  rewrite <- includes_In. destruct (includes l x); split; intro H;
    try reflexivity; try discriminate; try (intro; discriminate).
  exfalso; apply H; reflexivity.
Qed.

(** The redirect chosen on a role mismatch is the documented landing
    screen of the user's role. *)
Lemma mismatch_redirect (userRole : string) (w : World) :
  (if String.eqb userRole "superAdmin" then
     (w, Navigate "/admin/select-company" None true)
   else if String.eqb userRole "admin" then
     (w, Navigate "/admin/analytics-dashboard" None true)
   else if String.eqb userRole "employee" then
     (w, Navigate "/" None true)
   else (w, Navigate "/" None true))
  = (w, Navigate (default_landing userRole) None true).
Proof.
  unfold default_landing.
  destruct (String.eqb userRole "superAdmin"); [reflexivity|].
  destruct (String.eqb userRole "admin"); [reflexivity|].
  destruct (String.eqb userRole "employee"); reflexivity.
Qed.

(** Whatever the guard returns is the outcome of one of its branches. *)
Lemma ProtectedRoute_sound
    (roleProp : option RoleProp) (location : Location)
    (w w' : World) (el : Element) :
  ProtectedRoute roleProp location w = (w', el) ->
  guard_case roleProp location w w' el.
Proof.
  unfold ProtectedRoute.
  destruct (isAuthenticated (store w)) eqn:Ha; simpl.
  - destruct (current_role (store w)) as [userRole|] eqn:Hr.
    + destruct roleProp as [required|] eqn:Hp.
      * destruct (role_truthy (Some required)) eqn:Ht.
        -- destruct (includes (requiredRoles required) userRole) eqn:Hi; simpl.
           ++ intros [= <- <-]. apply case_render with userRole; auto.
              right. exists required. split; [reflexivity|].
              now apply includes_In.
           ++ rewrite mismatch_redirect. intros [= <- <-].
              apply case_role_mismatch with required; auto.
              now apply includes_not_In.
        -- intros [= <- <-]. apply case_render with userRole; auto.
      * intros [= <- <-]. apply case_render with userRole; auto.
    + intros [= <- <-]. now apply case_corrupted_session.
  - intros [= <- <-]. now apply case_not_authenticated.
Qed.

(** The outcome of a branch whose tests hold is what the guard returns. *)
Lemma guard_case_complete
    (roleProp : option RoleProp) (location : Location)
    (w w' : World) (el : Element) :
  guard_case roleProp location w w' el ->
  ProtectedRoute roleProp location w = (w', el).
Proof.
  unfold ProtectedRoute.
  intros H; destruct H as [Ha | Ha Hr | required userRole Ha Hr Hp Ht Hn
                          | userRole Ha Hr Hc].
  - rewrite Ha; reflexivity.
  - rewrite Ha, Hr; reflexivity.
  - rewrite Ha, Hr; simpl. subst roleProp. rewrite Ht.
    apply includes_not_In in Hn. rewrite Hn; simpl.
    apply mismatch_redirect.
  - rewrite Ha, Hr; simpl.
    destruct Hc as [Hf | [required [Hp Hin]]].
    + destruct roleProp as [required|]; [|reflexivity].
      rewrite Hf; reflexivity.
    + subst roleProp. apply includes_In in Hin. rewrite Hin.
      destruct (role_truthy (Some required)); reflexivity.
Qed.

Lemma truthy_string_nonempty (s : string) :
  truthy_string s = true <-> s <> "".
Proof.
  unfold truthy_string. rewrite negb_true_iff. apply String.eqb_neq.
Qed.

(** The tests of the component say what the rules say. *)
Lemma has_role_current (s : AuthState) (r : string) :
  has_role s r <-> current_role s = Some r.
Proof.
  unfold has_role, current_role. split.
  - intros [u [-> [-> Hr]]].
    apply String.eqb_neq in Hr. unfold truthy_string. now rewrite Hr.
  - destruct (user s) as [u|]; [|discriminate].
    destruct (role u) as [r'|] eqn:Hrole; [|discriminate].
    unfold truthy_string.
    destruct (String.eqb r' "") eqn:He; [discriminate|].
    intros [= <-]. exists u. repeat split; auto.
    now apply String.eqb_neq.
Qed.

Lemma role_absent_current (s : AuthState) :
  role_absent s <-> current_role s = None.
Proof.
  unfold role_absent, current_role. split.
  - intros [-> | [u [-> [-> | ->]]]]; reflexivity.
  - destruct (user s) as [u|]; [|now left].
    right. exists u. split; [reflexivity|].
    destruct (role u) as [r|]; [|now left].
    unfold truthy_string in H.
    destruct (String.eqb r "") eqn:He; [|discriminate].
    apply String.eqb_eq in He. subst r. now right.
Qed.

Lemma required_truthy (roleProp : option RoleProp) (rs : list string) :
  required roleProp rs
  <-> exists asked, roleProp = Some asked
                    /\ role_truthy roleProp = true
                    /\ requiredRoles asked = rs.
Proof.
  split.
  - intros [r -> Hr | rs' ->].
    + exists (OneRole r). repeat split. simpl.
      now apply truthy_string_nonempty.
    + exists (Roles rs'). repeat split.
  - intros [asked [-> [Ht <-]]]. destruct asked as [r | rs'].
    + apply required_one; [reflexivity|].
      simpl in Ht. now apply truthy_string_nonempty.
    + now apply required_set.
Qed.

Lemma nothing_required_falsy (roleProp : option RoleProp) :
  nothing_required roleProp <-> role_truthy roleProp = false.
Proof.
  unfold nothing_required. split.
  - intros [-> | ->]; reflexivity.
  - destruct roleProp as [[r | rs]|]; simpl; intros H.
    + right. unfold truthy_string in H. apply negb_false_iff in H.
      apply String.eqb_eq in H. now subst.
    + discriminate.
    + now left.
Qed.

Lemma with_cleared_session_clearAuth (w : World) :
  with_cleared_session w = update_store clearAuth w.
Proof. reflexivity. Qed.

(** A branch of the component is the rule of the same rank, and back. *)
Lemma guard_rule_of_case
    (roleProp : option RoleProp) (location : Location)
    (w w' : World) (el : Element) :
  guard_case roleProp location w w' el ->
  guard_rule roleProp location w w' el.
Proof.
  intros [Ha | Ha Hr | asked userRole Ha Hr Hp Ht Hn | userRole Ha Hr Hc].
  - now apply rule_not_authenticated.
  - rewrite <- with_cleared_session_clearAuth.
    apply rule_corrupted_session; [exact Ha|].
    now apply role_absent_current.
  - apply rule_role_mismatch with (requiredRoles asked); auto.
    + now apply has_role_current.
    + apply required_truthy. now exists asked.
  - apply rule_render with userRole; auto.
    + now apply has_role_current.
    + destruct Hc as [Hf | [asked [Hp Hin]]].
      * left. now apply nothing_required_falsy.
      * destruct (role_truthy roleProp) eqn:Ht.
        -- right. exists (requiredRoles asked). split; [|exact Hin].
           apply required_truthy. now exists asked.
        -- left. now apply nothing_required_falsy.
Qed.

Lemma guard_case_of_rule
    (roleProp : option RoleProp) (location : Location)
    (w w' : World) (el : Element) :
  guard_rule roleProp location w w' el ->
  guard_case roleProp location w w' el.
Proof.
  intros [Ha | Ha Hr | rs userRole Ha Hr Hq Hn | userRole Ha Hr Hc].
  - now apply case_not_authenticated.
  - rewrite with_cleared_session_clearAuth.
    apply case_corrupted_session; [exact Ha|].
    now apply role_absent_current.
  - apply required_truthy in Hq. destruct Hq as [asked [Hp [Ht <-]]].
    apply case_role_mismatch with asked; auto.
    now apply has_role_current.
  - apply case_render with userRole; auto.
    + now apply has_role_current.
    + destruct Hc as [Hf | [rs [Hq Hin]]].
      * left. now apply nothing_required_falsy.
      * apply required_truthy in Hq. destruct Hq as [asked [Hp [Ht <-]]].
        right. now exists asked.
Qed.

(** Exactly one outcome: some rule applies, and no two rules disagree. *)
Lemma guard_rule_total
    (roleProp : option RoleProp) (location : Location) (w : World) :
  exists w' el, guard_rule roleProp location w w' el.
Proof.
  destruct (ProtectedRoute roleProp location w) as [w' el] eqn:Hrun.
  exists w', el. now apply guard_rule_of_case, ProtectedRoute_sound.
Qed.

Lemma guard_rule_deterministic
    (roleProp : option RoleProp) (location : Location)
    (w w1 w2 : World) (el1 el2 : Element) :
  guard_rule roleProp location w w1 el1 ->
  guard_rule roleProp location w w2 el2 ->
  w1 = w2 /\ el1 = el2.
Proof.
  intros H1 H2.
  apply guard_case_of_rule, guard_case_complete in H1.
  apply guard_case_of_rule, guard_case_complete in H2.
  rewrite H1 in H2. now injection H2.
Qed.

(** C1 (as amended): whenever the guard is evaluated (for every [role]
    prop, location and state of the tab it is mounted with) it produces
    exactly the outcome of the one rule of section 4.3 that applies, the
    rules being tried in order: not authenticated (redirect to the login
    screen, keeping the attempted location), then missing user or role (the
    session store is cleared, same redirect), then a required role or set of
    roles that does not hold the user's role (redirect to the landing
    screen of the user's role), and otherwise the protected content.  The
    rules are stated in the words of the specification, not through the
    tests of the component. *)
Theorem ProtectedRoute_follows_rules
    (roleProp : option RoleProp) (location : Location)
    (w w' : World) (el : Element) :
  ProtectedRoute roleProp location w = (w', el)
  <-> guard_rule roleProp location w w' el.
Proof.
  split.
  - intros Hrun. now apply guard_rule_of_case, ProtectedRoute_sound.
  - intros Hrule. now apply guard_case_complete, guard_case_of_rule.
Qed.

(* ================================================================== *)
(** ** Properties of the response interceptor *)
(* ================================================================== *)

Lemma truthy_string_true (s : string) : truthy_string s = true <-> s <> "".
Proof.
  unfold truthy_string. rewrite negb_true_iff. apply String.eqb_neq.
Qed.


Lemma append_nonempty (a b : string) : a <> "" -> (a ++ b)%string <> "".
Proof. destruct a; [congruence | simpl; discriminate]. Qed.

Lemma join_nonempty (sep : string) (l : list string) :
  l <> [] -> Forall (fun s => s <> "") l -> join sep l <> "".
Proof.
  destruct l as [|x [|y rest]]; intros Hl Hall.
  - congruence.
  - simpl. now inversion Hall.
  - change (join sep (x :: y :: rest))
      with (x ++ sep ++ join sep (y :: rest))%string.
    apply append_nonempty. now inversion Hall.
Qed.

Lemma stringify_object_nonempty (members : list (string * json)) :
  stringify (JObj members) <> "".
Proof. simpl. discriminate. Qed.

Lemma describe_error_field (m : string) (err : json) :
  field_error m err -> describe_error err = inr m.
Proof.
  intros [members [-> [Hmsg Hm]]]. unfold describe_error, member.
  rewrite Hmsg. apply truthy_string_true in Hm. now rewrite Hm.
Qed.

Lemma describe_errors_fields (msgs : list string) (errs : list json) :
  Forall2 field_error msgs errs -> describe_errors errs = inr msgs.
Proof.
  induction 1 as [|m err msgs errs Hf _ IH]; simpl.
  - reflexivity.
  - now rewrite (describe_error_field m err Hf), IH.
Qed.

Lemma field_errors_nonempty (msgs : list string) (errs : list json) :
  Forall2 field_error msgs errs -> Forall (fun s => s <> "") msgs.
Proof.
  induction 1 as [|m err msgs errs [_ [_ [_ Hm]]] _ IH]; constructor; auto.
Qed.

(** The callback of the map only throws on [null]. *)
Lemma describe_error_defined (err : json) :
  err <> JNull -> exists s, describe_error err = inr s.
Proof.
  intros Hn. destruct err as [|b|q|s|items|members]; simpl;
    try congruence; eauto.
  - destruct (assoc "msg" members) as [[|b|q|m|items|ms]|]; eauto.
    destruct (truthy_string m); eauto.
Qed.

Lemma describe_errors_defined (errs : list json) :
  ~ In JNull errs -> exists msgs, describe_errors errs = inr msgs.
Proof.
  induction errs as [|err rest IH]; intros Hn; simpl.
  - eauto.
  - destruct (describe_error_defined err) as [s Hs].
    { intros ->. apply Hn. now left. }
    destruct IH as [msgs Hmsgs].
    { intros Hin. apply Hn. now right. }
    rewrite Hs, Hmsgs. eauto.
Qed.

Lemma describe_error_defined_or_null (err : json) :
  err = JNull \/ exists s, describe_error err = inr s.
Proof.
  destruct err as [|b|q|s|items|members];
    try (left; reflexivity);
    right; apply describe_error_defined; discriminate.
Qed.

(** An array entry that is [null] makes the 422 case throw before any
    notification is shown. *)
Lemma describe_errors_null (errs : list json) :
  In JNull errs -> describe_errors errs = inl TypeError.
Proof.
  induction errs as [|err rest IH]; intros Hin; simpl.
  - contradiction.
  - destruct (describe_error_defined_or_null err) as [Hnull | [s Hs]].
    + subst err. reflexivity.
    + rewrite Hs. destruct Hin as [-> | Hin].
      * simpl in Hs. discriminate.
      * now rewrite (IH Hin).
Qed.

(** The notification of the 422 case is never the empty string. *)
Lemma validationToast_nonempty (data : option json) (s : string) :
  validationToast data = inr s -> s <> "".
Proof.
  unfold validationToast.
  destruct (validationMessage data) as [t|m]; [discriminate|].
  destruct (truthy_string m) eqn:Hm; intros [= <-].
  - now apply truthy_string_true.
  - discriminate.
Qed.

(** A non-empty message passes through [finalMessage || ...] unchanged. *)
Lemma validationToast_of_message (data : option json) (m : string) :
  validationMessage data = inr m -> m <> "" -> validationToast data = inr m.
Proof.
  intros Hm Hne. unfold validationToast. rewrite Hm.
  apply truthy_string_true in Hne. now rewrite Hne.
Qed.

Lemma responseError_422 (data : option json) (w : World) (s : string) :
  validationToast data = inr s ->
  responseError (ResponseError 422 data) w
  = (toast_error (JStr s) w, Rejected (ResponseError 422 data)).
Proof. intros H. unfold responseError; simpl. now rewrite H. Qed.


Lemma object_message_nonempty (members : list (string * json)) :
  object_message members <> "".
Proof.
  unfold object_message.
  destruct (assoc "message" members) as [[|b|q|m|items|ms]|];
    try apply stringify_object_nonempty.
  destruct (truthy_string m) eqn:Hm.
  - now apply truthy_string_true.
  - apply stringify_object_nonempty.
Qed.

Lemma validationMessage_object (data : option json)
    (members : list (string * json)) :
  response_detail data = Some (JObj members) ->
  validationMessage data = inr (object_message members).
Proof.
  intros Hd. unfold validationMessage, object_message. rewrite Hd. simpl.
  destruct (assoc "message" members) as [[|b|q|m|items|ms]|]; try reflexivity.
  destruct (truthy_string m); reflexivity.
Qed.

(** The message of the 422 case by the detail the interceptor reads. *)
Lemma validation_message_by_detail (data : option json) (w : World) :
  (forall errs, response_detail data = Some (JArr errs) -> ~ In JNull errs) ->
  exists s : string,
    validationToast data = inr s
    /\ s <> ""
    /\ responseError (ResponseError 422 data) w
       = (toast_error (JStr s) w, Rejected (ResponseError 422 data))
    /\ (forall str,
          response_detail data = Some (JStr str) -> str <> "" -> s = str)
    /\ (forall errs msgs,
          response_detail data = Some (JArr errs) -> errs <> [] ->
          Forall2 field_error msgs errs -> s = join "; " msgs)
    /\ (forall members,
          response_detail data = Some (JObj members) ->
          s = object_message members)
    /\ (response_detail data = Some (JArr []) ->
        s = "Unprocessable Content")
    /\ (truthy_u (response_detail data) = false
        \/ (exists b, response_detail data = Some (JBool b))
        \/ (exists q, response_detail data = Some (JNum q)) ->
        s = "Invalid input data.").
Proof.
  intros Hnull.
  assert (Hex : exists s, validationToast data = inr s).
  { unfold validationToast, validationMessage.
    destruct (response_detail data) as [detail|] eqn:Hd; [|eauto].
    destruct (truthy detail); simpl; [|eauto].
    destruct detail as [|b|q|str|errs|members]; simpl; eauto.
    - destruct (describe_errors_defined errs (Hnull errs eq_refl)) as [msgs ->].
      eauto.
    - destruct (assoc "message" members) as [[|b|q|m|items|ms]|]; eauto.
      destruct (truthy_string m); eauto. }
  destruct Hex as [s Hs]. exists s.
  split; [exact Hs|]. split; [now apply validationToast_nonempty with data|].
  split; [now apply responseError_422|].
  split; [|split; [|split; [|split]]].
  - intros str Hd Hne.
    assert (H : validationToast data = inr str).
    { apply validationToast_of_message; [|exact Hne].
      unfold validationMessage. rewrite Hd. simpl.
      apply truthy_string_true in Hne. now rewrite Hne. }
    congruence.
  - intros errs msgs Hd Hne Hf.
    assert (H : validationToast data = inr (join "; " msgs)).
    { apply validationToast_of_message.
      - unfold validationMessage. rewrite Hd. simpl.
        now rewrite (describe_errors_fields msgs errs Hf).
      - apply join_nonempty.
        + intros ->. inversion Hf. congruence.
        + now apply field_errors_nonempty with errs. }
    congruence.
  - intros members Hd.
    assert (H : validationToast data = inr (object_message members)).
    { apply validationToast_of_message.
      - now apply validationMessage_object.
      - apply object_message_nonempty. }
    congruence.
  - intros Hd.
    assert (H : validationToast data = inr "Unprocessable Content").
    { unfold validationToast, validationMessage. now rewrite Hd. }
    congruence.
  - intros Hd.
    assert (H : validationToast data = inr "Invalid input data.").
    { unfold validationToast, validationMessage.
      destruct Hd as [Hfalsy | [[b ->] | [q ->]]]; simpl.
      - destruct (response_detail data) as [detail|]; [|reflexivity].
        simpl in Hfalsy. now rewrite Hfalsy.
      - destruct b; reflexivity.
      - destruct (Qeq_bool q 0); reflexivity. }
    congruence.
Qed.

Lemma assoc_has_member (k : string) (members : list (string * json))
    (v : json) :
  assoc k members = Some v <-> has_member k members v.
Proof.
  induction members as [|[k' v'] rest IH]; simpl.
  - split; [discriminate | intros H; inversion H].
  - destruct (String.eqb k k') eqn:E.
    + apply String.eqb_eq in E. subst k'. split.
      * intros [= <-]. constructor.
      * intros H. inversion H; subst; [reflexivity | congruence].
    + apply String.eqb_neq in E. rewrite IH. split.
      * intros H. constructor; [congruence | exact H].
      * intros H. inversion H; subst; [congruence | assumption].
Qed.

(** What the interceptor reads as [response.data.detail] is the detail
    of the body. *)
Lemma response_detail_is (data : option json) (v : json) :
  response_detail data = Some v <-> detail_is data v.
Proof.
  unfold response_detail, detail_is, member. split.
  - destruct data as [d|]; [|discriminate].
    destruct (truthy d); [|discriminate].
    destruct d as [| | | | |members]; try discriminate.
    intros H. exists members. split; [reflexivity|].
    now apply assoc_has_member.
  - intros [members [-> H]]. simpl. now apply assoc_has_member.
Qed.

(** The 422 case away from its defect: for every 422 response whose
    validation detail is not an array holding a [null] entry, the
    interceptor shows one notification whose text [s] is a non-empty
    string and rejects with the error; [s] is (a) the detail itself when
    the detail is a non-empty string, (b) the [msg] texts joined by "; "
    when the detail is a non-empty array of objects with a [msg] text, (c)
    the [message] text or the serialised object when the detail is an
    object, and a default text otherwise: the one for an empty list when
    the array is empty, the general one when the body carries no detail or
    when the detail is [null], [false], zero, the empty string, a boolean
    or a number. *)
Theorem validation_message_normalised (data : option json) (w : World) :
  (forall errs, detail_is data (JArr errs) -> ~ In JNull errs) ->
  exists s : string,
    validationToast data = inr s
    /\ s <> ""
    /\ responseError (ResponseError 422 data) w
       = (toast_error (JStr s) w, Rejected (ResponseError 422 data))
    /\ (forall str, detail_is data (JStr str) -> str <> "" -> s = str)
    /\ (forall errs msgs,
          detail_is data (JArr errs) -> errs <> [] ->
          Forall2 field_error msgs errs -> s = join "; " msgs)
    /\ (forall members,
          detail_is data (JObj members) -> s = object_message members)
    /\ (detail_is data (JArr []) -> s = "Unprocessable Content")
    /\ ((forall v, ~ detail_is data v)
        \/ detail_is data JNull
        \/ detail_is data (JStr "")
        \/ (exists b, detail_is data (JBool b))
        \/ (exists q, detail_is data (JNum q)) ->
        s = "Invalid input data.").
Proof.
  intros Hnull.
  destruct (validation_message_by_detail data w) as [s H].
  { intros errs Hd. apply Hnull. now apply response_detail_is. }
  destruct H as [Hs [Hne [Hrun [Hstr [Harr [Hobj [Hempty Hdefault]]]]]]].
  exists s. repeat (split; [assumption|]).
  split; [|split; [|split; [|split]]].
  - intros str Hd. apply Hstr. now apply response_detail_is.
  - intros errs msgs Hd. apply Harr. now apply response_detail_is.
  - intros members Hd. apply Hobj. now apply response_detail_is.
  - intros Hd. apply Hempty. now apply response_detail_is.
  - intros Hd. apply Hdefault.
    destruct Hd as [Hnone | [Hd | [Hd | [[b Hd] | [q Hd]]]]].
    + left. destruct (response_detail data) as [v|] eqn:E; [|reflexivity].
      exfalso. apply (Hnone v). now apply response_detail_is.
    + left. apply response_detail_is in Hd. now rewrite Hd.
    + left. apply response_detail_is in Hd. now rewrite Hd.
    + right. left. exists b. now apply response_detail_is.
    + right. right. exists q. now apply response_detail_is.
Qed.

(** The defect of the 422 case: a [null] entry in the detail array makes
    the handler throw, and no notification is shown. *)
Lemma validation_null_entry_throws (data : option json) (w : World)
    (errs : list json) :
  response_detail data = Some (JArr errs) -> In JNull errs ->
  responseError (ResponseError 422 data) w = (w, TypeError).
Proof.
  intros Hd Hin. unfold responseError; simpl.
  unfold validationToast, validationMessage. rewrite Hd. simpl.
  now rewrite (describe_errors_null errs Hin).
Qed.

(** C2 (as amended): for every 401 response, the interceptor removes the
    stored token, assigns the login screen to the window location, shows
    the session-expired notification and rejects with the same error; it
    leaves the session store and the default header of the client as they
    were. *)
Theorem responseError_401 (data : option json) (w : World) :
  let error := ResponseError 401 data in
  let w' := fst (responseError error w) in
  snd (responseError error w) = Rejected error
  /\ token w' = None
  /\ hrefs w' = "/login" :: hrefs w
  /\ toasts w' = JStr session_expired :: toasts w
  /\ store w' = store w
  /\ authHeader w' = authHeader w
  /\ navigations w' = navigations w.
Proof. simpl. repeat split; reflexivity. Qed.


(** C4 (as amended): when several requests fail with 401 one after the
    other before the page is left, every one of them passes through the
    401 branch on its own: [n] failures show [n] session-expired
    notifications and assign the login screen [n] times; the token is gone
    after the first. *)
Theorem every_401_repeats_side_effects (bodies : list (option json)) (w : World) :
  let w' := handle_failures (map (ResponseError 401) bodies) w in
  toasts w' = (repeat (JStr session_expired) (length bodies) ++ toasts w)%list
  /\ hrefs w' = (repeat "/login" (length bodies) ++ hrefs w)%list
  /\ token w' = match bodies with [] => token w | _ :: _ => None end
  /\ store w' = store w.
Proof.
  simpl. revert w. induction bodies as [|b rest IH]; intros w.
  - simpl. repeat split; reflexivity.
  - change (handle_failures (map (ResponseError 401) (b :: rest)) w)
      with (handle_failures (map (ResponseError 401) rest)
              (toast_error (JStr session_expired)
                 (set_href "/login" (removeItem_token w)))).
    destruct (IH (toast_error (JStr session_expired)
                    (set_href "/login" (removeItem_token w))))
      as [Ht [Hh [Hk Hs]]].
    rewrite Ht, Hh, Hk, Hs. simpl.
    repeat split.
    + change (JStr session_expired :: toasts w)
        with ([JStr session_expired] ++ toasts w)%list.
      rewrite app_assoc. f_equal.
      now rewrite <- repeat_cons.
    + change ("/login" :: hrefs w) with (["/login"] ++ hrefs w)%list.
      rewrite app_assoc. f_equal.
      now rewrite <- repeat_cons.
    + destruct rest; reflexivity.
Qed.

(* ================================================================== *)
(** ** Properties of the tickets resource client *)
(* ================================================================== *)

Lemma wire_app (key : string) (q1 q2 : list (string * QueryValue)) :
  wire key (q1 ++ q2)
  = match wire key q1 with
    | Some v => Some v
    | None => wire key q2
    end.
Proof.
  induction q1 as [|[k v] rest IH]; simpl.
  - reflexivity.
  - destruct (String.eqb key k); [reflexivity | exact IH].
Qed.

Lemma wire_when_truthy_other (key k : string) (x : option string) :
  String.eqb key k = false -> wire key (when_truthy k x) = None.
Proof.
  intros Hk. unfold when_truthy.
  destruct x as [s|]; [destruct (truthy_string s)|]; simpl;
    try rewrite Hk; reflexivity.
Qed.

Lemma number_or_positive (n d : Z) : 1 <= n -> number_or (Some n) d = n.
Proof.
  intros Hn. unfold number_or.
  destruct (n =? 0) eqn:E; [apply Z.eqb_eq in E; lia | reflexivity].
Qed.

(** Rounding to the nearest integer does not pass an integer bound. *)
Lemma nearest_even_le (n d m : Z) :
  0 <= n -> 0 < d -> n <= m * d -> nearest_even n d <= m.
Proof.
  intros Hn Hd Hm. unfold nearest_even.
  pose proof (Z.div_mod n d ltac:(lia)) as Hdm.
  pose proof (Z.mod_pos_bound n d Hd) as Hr.
  destruct (2 * (n mod d) <? d) eqn:E1; [nia|].
  apply Z.ltb_ge in E1.
  destruct (d <? 2 * (n mod d)) eqn:E2; [nia|].
  destruct (Z.even (n / d)); nia.
Qed.

Lemma nearest_even_gt (n d k : Z) :
  0 <= n -> 0 < d -> (2 * k + 1) * d < 2 * n -> k + 1 <= nearest_even n d.
Proof.
  intros Hn Hd Hk. unfold nearest_even.
  pose proof (Z.div_mod n d ltac:(lia)) as Hdm.
  pose proof (Z.mod_pos_bound n d Hd) as Hr.
  destruct (2 * (n mod d) <? d) eqn:E1.
  - apply Z.ltb_lt in E1. nia.
  - apply Z.ltb_ge in E1.
    destruct (d <? 2 * (n mod d)) eqn:E2.
    + apply Z.ltb_lt in E2. nia.
    + apply Z.ltb_ge in E2. destruct (Z.even (n / d)); nia.
Qed.

(** [floor_log2 n d] is not too large: [2^j <= n / d]. *)
Lemma floor_log2_lower (n d : Z) :
  0 < n -> 0 < d ->
  d * 2 ^ Z.max (floor_log2 n d) 0 <= n * 2 ^ Z.max (- floor_log2 n d) 0.
Proof.
  intros Hn Hd. unfold floor_log2.
  set (j := Z.log2 n - Z.log2 d).
  destruct (d * 2 ^ Z.max j 0 <=? n * 2 ^ Z.max (- j) 0) eqn:E.
  - now apply Z.leb_le.
  - pose proof (Z.log2_spec n Hn) as [Hn1 _].
    pose proof (Z.log2_spec d Hd) as [_ Hd2].
    pose proof (Z.log2_nonneg n) as Ha.
    pose proof (Z.log2_nonneg d) as Hb.
    rewrite <- Z.add_1_r in Hd2.
    destruct (Z.le_gt_cases 0 (j - 1)) as [Hj | Hj].
    + rewrite (Z.max_l (j - 1) 0), (Z.max_r (- (j - 1)) 0) by lia.
      rewrite Z.pow_0_r, Z.mul_1_r.
      assert (Hpow : 2 ^ (Z.log2 d + 1) * 2 ^ (j - 1) = 2 ^ Z.log2 n).
      { rewrite <- Z.pow_add_r by lia. f_equal. unfold j. lia. }
      assert (0 < 2 ^ (j - 1)) by (apply Z.pow_pos_nonneg; lia).
      nia.
    + rewrite (Z.max_r (j - 1) 0), (Z.max_l (- (j - 1)) 0) by lia.
      rewrite Z.pow_0_r, Z.mul_1_r.
      assert (Hpow : 2 ^ Z.log2 n * 2 ^ (- (j - 1)) = 2 ^ (Z.log2 d + 1)).
      { rewrite <- Z.pow_add_r by lia. f_equal. unfold j. lia. }
      assert (0 < 2 ^ (- (j - 1))) by (apply Z.pow_pos_nonneg; lia).
      nia.
Qed.

(** A quotient of safe integers strictly between two consecutive integers
    is rounded to a value above the lower and not above the upper one. *)
Lemma nearest_binary64_brackets (n d k : Z) :
  0 < n < 2 ^ 53 -> 0 < d <= 2 ^ 53 -> 0 <= k ->
  k * d < n <= (k + 1) * d ->
  let (m, e) := nearest_binary64 n d in
  e <= 0 /\ k * 2 ^ (- e) < m <= (k + 1) * 2 ^ (- e).
Proof.
  intros Hn Hd Hk Hq. unfold nearest_binary64.
  destruct (n =? 0) eqn:E0; [apply Z.eqb_eq in E0; lia|].
  pose proof (floor_log2_lower n d ltac:(lia) ltac:(lia)) as Hlow.
  set (j := floor_log2 n d) in *.
  assert (Hj : j <= 52).
  { destruct (Z.le_gt_cases j 52) as [H | H]; [exact H|].
    rewrite (Z.max_l j 0), (Z.max_r (- j) 0) in Hlow by lia.
    rewrite Z.pow_0_r, Z.mul_1_r in Hlow.
    assert (2 ^ 53 <= 2 ^ j) by (apply Z.pow_le_mono_r; lia).
    nia. }
  set (e := Z.max (j - 52) (-1074)).
  assert (He : e <= 0) by (unfold e; lia).
  rewrite (Z.max_l (- e) 0), (Z.max_r e 0) by lia.
  rewrite Z.pow_0_r, Z.mul_1_r.
  assert (HP : 0 < 2 ^ (- e)) by (apply Z.pow_pos_nonneg; lia).
  assert (Hd2 : d < 2 * 2 ^ (- e)).
  { replace (2 * 2 ^ (- e)) with (2 ^ (1 - e))
      by (replace (1 - e) with (1 + - e) by lia;
          rewrite Z.pow_add_r by lia; reflexivity).
    destruct (Z.le_gt_cases (-1074) (j - 52)) as [Hc | Hc].
    - replace e with (j - 52) by (unfold e; lia).
      replace (1 - (j - 52)) with (53 - j) by lia.
      destruct (Z.le_gt_cases 0 j) as [Hj0 | Hj0].
      + rewrite (Z.max_l j 0), (Z.max_r (- j) 0) in Hlow by lia.
        rewrite Z.pow_0_r, Z.mul_1_r in Hlow.
        assert (Hpow : 2 ^ (53 - j) * 2 ^ j = 2 ^ 53)
          by (rewrite <- Z.pow_add_r by lia; f_equal; lia).
        assert (0 < 2 ^ j) by (apply Z.pow_pos_nonneg; lia).
        nia.
      + rewrite (Z.max_r j 0), (Z.max_l (- j) 0) in Hlow by lia.
        rewrite Z.pow_0_r, Z.mul_1_r in Hlow.
        assert (Hpow : 2 ^ 53 * 2 ^ (- j) = 2 ^ (53 - j))
          by (rewrite <- Z.pow_add_r by lia; f_equal; lia).
        assert (0 < 2 ^ (- j)) by (apply Z.pow_pos_nonneg; lia).
        nia.
    - replace e with (-1074) by (unfold e; lia).
      assert (2 ^ 53 < 2 ^ (1 - -1074)) by (apply Z.pow_lt_mono_r; lia).
      lia. }
  split; [exact He|]. split.
  - assert (k * 2 ^ (- e) + 1 <= nearest_even (n * 2 ^ (- e)) d);
      [|lia].
    apply nearest_even_gt; nia.
  - apply nearest_even_le; nia.
Qed.

(** An integer of magnitude up to [2^53] is a binary64 value. *)
Lemma binary64_integer_exact (z : Z) :
  Z.abs z <= 2 ^ 53 -> binary64_integer z = z.
Proof.
  intros Hz. unfold binary64_integer, nearest_binary64.
  destruct (Z.abs z =? 0) eqn:E0.
  - apply Z.eqb_eq in E0. simpl. lia.
  - apply Z.eqb_neq in E0.
    assert (Hn : 0 < Z.abs z) by lia.
    set (n := Z.abs z) in *.
    assert (Hlog : floor_log2 n 1 = Z.log2 n).
    { unfold floor_log2. change (Z.log2 1) with 0. rewrite Z.sub_0_r.
      pose proof (Z.log2_nonneg n) as Hl.
      rewrite (Z.max_l (Z.log2 n) 0), (Z.max_r (- Z.log2 n) 0) by lia.
      rewrite Z.pow_0_r, Z.mul_1_r, Z.mul_1_l.
      pose proof (Z.log2_spec n Hn) as [H1 _].
      apply Z.leb_le in H1. now rewrite H1. }
    rewrite Hlog.
    pose proof (Z.log2_nonneg n) as Hl.
    pose proof (Z.log2_spec n Hn) as [H1 H2].
    assert (Hl53 : Z.log2 n <= 53).
    { destruct (Z.le_gt_cases (Z.log2 n) 53) as [H | H]; [exact H|].
      assert (2 ^ 54 <= 2 ^ Z.log2 n) by (apply Z.pow_le_mono_r; lia).
      assert (2 ^ 53 < 2 ^ 54) by (apply Z.pow_lt_mono_r; lia).
      lia. }
    rewrite (Z.max_l (Z.log2 n - 52) (-1074)) by lia.
    set (e := Z.log2 n - 52).
    assert (Hsgn : Z.sgn z * n = z) by (unfold n; destruct z; reflexivity).
    destruct (Z.le_gt_cases e 0) as [He | He].
    + rewrite (Z.max_l (- e) 0), (Z.max_r e 0) by lia.
      rewrite Z.pow_0_r, !Z.mul_1_r.
      assert (HP : 0 < 2 ^ (- e)) by (apply Z.pow_pos_nonneg; lia).
      assert (Hm : nearest_even (n * 2 ^ (- e)) 1 = n * 2 ^ (- e)).
      { unfold nearest_even. rewrite Z.mod_1_r, Z.div_1_r. reflexivity. }
      rewrite Hm, Z.div_mul by lia. exact Hsgn.
    + assert (He1 : e = 1) by (unfold e in *; lia).
      assert (Hn53 : n = 2 ^ 53).
      { replace (Z.log2 n) with 53 in H1 by (unfold e in He1; lia). lia. }
      assert (Hval : nearest_even (n * 2 ^ Z.max (- e) 0) (1 * 2 ^ Z.max e 0)
                     * 2 ^ Z.max e 0 / 2 ^ Z.max (- e) 0 = n).
      { rewrite He1, Hn53. vm_compute. reflexivity. }
      rewrite Hval. exact Hsgn.
Qed.

Lemma Qceiling_Qmake (x : Z) (y : positive) :
  Qceiling (Qmake x y) = - ((- x) / Zpos y).
Proof. reflexivity. Qed.

(** [Math.ceil(a / b)] is the exact ceiling for safe integers. *)
Lemma ceil_quotient_exact (a b : Z) :
  0 <= a < 2 ^ 53 -> 1 <= b <= 2 ^ 53 ->
  ceil_quotient a b = - ((- a) / b).
Proof.
  intros Ha Hb. unfold ceil_quotient, js_div, binary64.
  destruct b as [|b|b]; try lia.
  assert (Hq : (inject_Z a / inject_Z (Zpos b))%Q = Qmake (a * 1) (1 * b))
    by reflexivity.
  rewrite Hq. cbn [Qnum Qden]. rewrite Z.mul_1_r, Pos.mul_1_l.
  destruct (a <? 0) eqn:Eneg; [apply Z.ltb_lt in Eneg; lia|].
  destruct (Z.eq_dec a 0) as [-> | Hnz].
  { reflexivity. }
  pose proof (Z.div_mod (- a) (Zpos b) ltac:(lia)) as Hdm.
  pose proof (Z.mod_pos_bound (- a) (Zpos b) ltac:(lia)) as Hmod.
  set (c := - ((- a) / Zpos b)) in *.
  pose proof (nearest_binary64_brackets a (Zpos b) (c - 1)
                ltac:(lia) ltac:(lia) ltac:(nia) ltac:(nia)) as H.
  destruct (nearest_binary64 a (Zpos b)) as [m e].
  destruct H as [He [Hlo Hhi]].
  unfold binary64_value.
  rewrite (Z.max_l (- e) 0), (Z.max_r e 0) by lia.
  rewrite Z.pow_0_r, Z.mul_1_r, Qceiling_Qmake.
  assert (HP : 0 < 2 ^ (- e)) by (apply Z.pow_pos_nonneg; lia).
  rewrite Z2Pos.id by exact HP.
  replace (c - 1 + 1) with c in Hhi by lia.
  assert (Hdiv : (- m) / 2 ^ (- e) = - c).
  { symmetry. apply (Z.div_unique_pos (- m) (2 ^ (- e)) (- c)
                       (- m + c * 2 ^ (- e))); nia. }
  rewrite Hdiv. lia.
Qed.

(** [ceil_quotient a b] is the least [k] with [a <= b * k]. *)
Lemma ceil_quotient_bounds (a b : Z) :
  0 <= a < 2 ^ 53 -> 1 <= b <= 2 ^ 53 ->
  b * (ceil_quotient a b - 1) < a <= b * ceil_quotient a b.
Proof.
  intros Ha Hb. rewrite ceil_quotient_exact by assumption.
  pose proof (Z.div_mod (- a) b ltac:(lia)) as Hdm.
  pose proof (Z.mod_pos_bound (- a) b ltac:(lia)) as Hmod.
  lia.
Qed.

Lemma ceil_quotient_least (a b k : Z) :
  0 <= a < 2 ^ 53 -> 1 <= b <= 2 ^ 53 ->
  a <= b * k -> ceil_quotient a b <= k.
Proof.
  intros Ha Hb Hk. pose proof (ceil_quotient_bounds a b Ha Hb) as [Hlo _]. nia.
Qed.

Lemma number_value_finite (z : Z) :
  Z.abs z <= 2 ^ 53 -> number_value z = QNumber z.
Proof.
  intros Hz. unfold number_value, is_infinite.
  assert (2 ^ 53 < 2 ^ 1024) by (apply Z.pow_lt_mono_r; lia).
  destruct (2 ^ 1024 <=? Z.abs z) eqn:E; [|reflexivity].
  apply Z.leb_le in E. lia.
Qed.

(** The offset of the query is the exact product while it stays a safe
    integer. *)
Lemma offset_exact (p l : Z) :
  1 <= p -> 0 <= l -> (p - 1) * l <= 2 ^ 53 -> l <= 2 ^ 53 ->
  number_value (js_mul (js_sub p 1) l) = QNumber ((p - 1) * l).
Proof.
  intros Hp Hl Hpl Hl53. unfold js_mul, js_sub.
  destruct (Z.eq_dec l 0) as [-> | Hnz].
  - rewrite !Z.mul_0_r. reflexivity.
  - assert (Hp53 : Z.abs (p - 1) <= 2 ^ 53) by nia.
    rewrite (binary64_integer_exact (p - 1)) by exact Hp53.
    assert (Hz : Z.abs ((p - 1) * l) <= 2 ^ 53) by nia.
    rewrite (binary64_integer_exact _ Hz). now apply number_value_finite.
Qed.

Lemma wire_offset (params : GetTicketsParams) :
  wire "offset" (apiParams params)
  = match page params with
    | Some _ =>
        Some (number_value
                (js_mul (js_sub (number_or (page params) 1) 1)
                        (number_or (limit params) 15)))
    | None => None
    end.
Proof.
  unfold apiParams.
  rewrite !wire_app.
  repeat rewrite wire_when_truthy_other by reflexivity.
  destruct (is_critical_only params), (limit params), (page params);
    reflexivity.
Qed.

Lemma wire_limit (params : GetTicketsParams) :
  wire "limit" (apiParams params) = option_map QNumber (limit params).
Proof.
  unfold apiParams.
  rewrite !wire_app.
  repeat rewrite wire_when_truthy_other by reflexivity.
  destruct (is_critical_only params), (limit params), (page params);
    reflexivity.
Qed.

(** C5 (as amended): for a ticket-list request with page number
    [p >= 1] and page size [l >= 1], where a page size that is missing or 0 counts as 15, and
    while [l] and [(p - 1) * l] stay within [2^53], the query carries
    [offset = (p - 1) * l] (and under [limit] what was given); for every
    successful response with [0 <= total < 2^53] the client resolves with
    [totalPages] equal to the ceiling of [total / l], that is the one
    integer [k] with [l * (k - 1) < total <= l * k]. *)
Theorem getTickets_pagination (Ticket : Type) (params : GetTicketsParams)
    (p l : Z) (responseData : TicketsData Ticket) (w : World) :
  page params = Some p ->
  1 <= p ->
  (limit params = Some l /\ 1 <= l)
  \/ ((limit params = None \/ limit params = Some 0) /\ l = 15) ->
  l <= 2 ^ 53 ->
  (p - 1) * l <= 2 ^ 53 ->
  0 <= data_total responseData < 2 ^ 53 ->
  let request := getTickets params (HttpOk responseData) in
  wire "offset" (fst request) = Some (QNumber ((p - 1) * l))
  /\ wire "limit" (fst request) = option_map QNumber (limit params)
  /\ exists r : TicketsResponse Ticket,
       snd request w = (w, inr r)
       /\ tickets r = data_tickets responseData
       /\ total r = data_total responseData
       /\ response_page r = p
       /\ response_limit r = l
       /\ l * (totalPages r - 1) < data_total responseData <= l * totalPages r.
Proof.
  intros Hp Hp1 Hsize Hl53 Hpl Htotal. simpl.
  assert (Hl : number_or (limit params) 15 = l /\ 1 <= l).
  { destruct Hsize as [[-> Hl1] | [[-> | ->] ->]];
      [split; [now apply number_or_positive | exact Hl1] | now split ..]. }
  destruct Hl as [Hl Hl1].
  split; [|split].
  - rewrite wire_offset, Hp, Hl.
    rewrite number_or_positive by exact Hp1.
    f_equal. apply offset_exact; lia.
  - apply wire_limit.
  - exists (shape_response params responseData).
    unfold shape_response; simpl. rewrite Hp, Hl.
    rewrite number_or_positive by exact Hp1.
    repeat split; try reflexivity; apply ceil_quotient_bounds; lia.
Qed.

(* ================================================================== *)
(** ** Properties of the login flow *)
(* ================================================================== *)

Lemma role_is_eq (u : User) (r name : string) :
  role u = Some r -> role_is u name = String.eqb r name.
Proof. intros H. unfold role_is. now rewrite H. Qed.

(** What [login] does on a successful response. *)
Lemma login_success (credentials : LoginCredentials) (d : LoginResponse)
    (w : World) :
  login credentials (HttpOk (Some d)) w
  = ({| token := Some (access_token d);
        authHeader := Some ("Bearer " ++ access_token d)%string;
        store := setIsAuthenticated true
                   (setUser (Some (response_user d)) (store w));
        hrefs := hrefs w;
        toasts := toasts w;
        navigations := navigations w |},
     inr (response_user d)).
Proof. reflexivity. Qed.

(** C6: a submitted form that passes validation, answered by the backend
    with a token and a user whose role is the tenant administrator's and
    whose company is "T1", leaves the session store authenticated with that
    user and with "T1" as selected company, the token in storage, and one
    navigation, to the analytics dashboard. *)
Theorem handleSubmit_tenant_admin (email_input password_input : string)
    (d : LoginResponse) (w : World) :
  validateForm email_input password_input = true ->
  role (response_user d) = Some "admin" ->
  company_id (response_user d) = Val "T1" ->
  let w' := fst (handleSubmit email_input password_input (HttpOk (Some d)) w) in
  isAuthenticated (store w') = true
  /\ user (store w') = Some (response_user d)
  /\ selectedCompanyId (store w') = Val "T1"
  /\ token w' = Some (access_token d)
  /\ navigations w' = "/admin/analytics-dashboard" :: navigations w
  /\ snd (handleSubmit email_input password_input (HttpOk (Some d)) w)
     = no_errors.
Proof.
  intros Hvalid Hrole Hcompany.
  unfold handleSubmit. rewrite Hvalid. simpl negb. cbv iota.
  unfold handleSubmit_try, bind. rewrite login_success.
  rewrite !(role_is_eq _ _ _ Hrole). simpl.
  rewrite Hcompany. repeat split; reflexivity.
Qed.

(** The [catch] block of [login] ends signed out, whatever the tab
    looked like when the [try] block threw. *)
Lemma login_catch_signed_out (error : Thrown) (w : World) :
  login_catch error w
  = (update_store clearAuth (set_authHeader None (removeItem_token w)),
     inl error)
  /\ signed_out (fst (login_catch error w)).
Proof. split; [reflexivity | repeat split]. Qed.

(** A request that the backend fails, or answers without a body, makes
    the [try] block of [login] throw. *)
Lemma login_try_throws (answer : HttpOutcome (option LoginResponse))
    (w : World) :
  (forall d, answer <> HttpOk (Some d)) ->
  exists w1 error, login_try answer w = (w1, inl error).
Proof.
  intros Hfail. destruct answer as [[d|]|e].
  - exfalso. now apply (Hfail d).
  - exists w, TypeError. reflexivity.
  - exists (fst (responseError e w)), (snd (responseError e w)).
    unfold login_try, bind, api_call.
    destruct (responseError e w); reflexivity.
Qed.

(** C9: whenever the [try] block of [login] throws [error], having
    brought the tab to the state [w1], [login] runs its [catch] block:
    it removes the token from storage, deletes the default Authorization
    header, resets the session store and rethrows [error]; and the [catch]
    block leaves the tab signed out whatever state it starts from. *)
Theorem login_failure_signs_out (credentials : LoginCredentials)
    (answer : HttpOutcome (option LoginResponse)) (w w1 : World)
    (error : Thrown) :
  login_try answer w = (w1, inl error) ->
  login credentials answer w = login_catch error w1
  /\ snd (login credentials answer w) = inl error
  /\ fst (login credentials answer w)
     = update_store clearAuth (set_authHeader None (removeItem_token w1))
  /\ token (fst (login credentials answer w)) = None
  /\ authHeader (fst (login credentials answer w)) = None
  /\ store (fst (login credentials answer w)) = initialState
  /\ (forall w2 : World, signed_out (fst (login_catch error w2))).
Proof.
  intros Htry. unfold login, try_catch. rewrite Htry.
  repeat split; reflexivity.
Qed.

(* ================================================================== *)
(** ** Properties of [isTokenValid] *)
(* ================================================================== *)

(** [isTokenValid] answers with a boolean and leaves the tab alone. *)
Lemma isTokenValid_returns (now : Z) (w : World) :
  exists b, isTokenValid now w = (w, inr b).
Proof.
  unfold isTokenValid, try_catch, ret, throw.
  destruct (truthy_opt (token w)); simpl; [|eauto].
  destruct (token w) as [t|]; [|eauto].
  destruct (jwtDecode t); eauto.
Qed.

(** C10: [isTokenValid] returns a boolean for every content of the token
    slot and every behaviour of the decoder, never an exception, and does
    not touch the tab; the boolean is [false] when nothing (or the empty
    string) is stored and when the stored string cannot be decoded; it is
    [true] only for a decoded payload whose [exp], converted to a number
    the way [>] converts it, is strictly greater than the clock reading in
    seconds ([Date.now() / 1000] as a binary64 value); for an [exp] that is
    a number that condition is also sufficient. *)
Theorem isTokenValid_total (now : Z) (w : World) :
  exists b : bool,
    isTokenValid now w = (w, inr b)
    /\ (truthy_opt (token w) = false -> b = false)
    /\ (forall t, token w = Some t -> jwtDecode t = DecodeThrows -> b = false)
    /\ (forall t, token w = Some t -> jwtDecode t = DecodedNull -> b = false)
    /\ (b = true ->
        exists t p v,
          token w = Some t /\ jwtDecode t = DecodedPayload p
          /\ exp p = Some v
          /\ (ToNumber v = PlusInfinity
              \/ exists e, ToNumber v = Num e /\ (currentTime now < e)%Q))
    /\ (forall t p e,
          token w = Some t -> t <> "" -> jwtDecode t = DecodedPayload p ->
          exp p = Some (JNum e) ->
          (b = true <-> (currentTime now < e)%Q)).
Proof.
  unfold isTokenValid, try_catch, ret, throw.
  destruct (truthy_opt (token w)) eqn:Htruthy; simpl.
  - destruct (token w) as [t|] eqn:Htoken; [|discriminate].
    destruct (jwtDecode t) as [| |p] eqn:Hdecode; simpl.
    + exists false. do 5 (split; [now auto|]).
      intros t' p' e' [= <-] _ Hp. congruence.
    + exists false. do 5 (split; [now auto|]).
      intros t' p' e' [= <-] _ Hp. congruence.
    + exists (exp_in_future p now).
      split; [reflexivity|]. split; [discriminate|].
      split; [intros t' [= <-]; congruence|].
      split; [intros t' [= <-]; congruence|].
      split.
      * intros Hb. unfold exp_in_future in Hb.
        destruct (exp p) as [v|] eqn:He; [|discriminate].
        exists t, p, v. repeat split; auto.
        unfold number_gt in Hb.
        destruct (ToNumber v) as [|e| |]; try discriminate.
        -- right. exists e. split; [reflexivity|].
           apply negb_true_iff in Hb.
           apply Qnot_le_lt. intros Hle.
           apply Qle_bool_iff in Hle. congruence.
        -- now left.
      * intros t' p' e [= <-] _ Hp He.
        rewrite Hdecode in Hp. injection Hp as <-.
        unfold exp_in_future. rewrite He. simpl.
        rewrite negb_true_iff. split.
        -- intros Hb. apply Qnot_le_lt. intros Hle.
           apply Qle_bool_iff in Hle. congruence.
        -- intros Hlt. destruct (Qle_bool e (currentTime now)) eqn:Hle;
             [|reflexivity].
           apply Qle_bool_iff in Hle. exfalso.
           exact (Qlt_not_le _ _ Hlt Hle).
  - exists false. do 5 (split; [now auto|]).
    intros t' p' e' Ht Hne. rewrite Ht in Htruthy. simpl in Htruthy.
    apply truthy_string_true in Hne. congruence.
Qed.

(* ================================================================== *)
(** ** Recovery from a user record without a role *)
(* ================================================================== *)


(** [refreshToken] never throws, and a user it returns is the body of a
    successful [/auth/me] response. *)
Lemma refreshToken_returns (now : Z) (answer : HttpOutcome (option User))
    (w : World) :
  exists w1 r,
    refreshToken now answer w = (w1, inr r)
    /\ (forall u, r = Some u -> answer = HttpOk (Some u)).
Proof.
  unfold refreshToken, bind.
  destruct (isTokenValid_returns now w) as [b ->].
  destruct b; simpl.
  - unfold try_catch, bind.
    destruct answer as [data|e]; simpl.
    + eexists; exists data; split; [reflexivity|].
      now intros u ->.
    + destruct (responseError e w) as [w1 t]; simpl.
      eexists; exists None; split; [reflexivity|]. discriminate.
  - eexists; exists None; split; [reflexivity|]. discriminate.
Qed.


(** The two ways [attemptRehydrate] can end when a token is held: signed
    out with the token removed, or authenticated as the user the backend
    returned, who then has a role. *)
Lemma attemptRehydrate_outcome (captured : bool) (now1 now2 : Z)
    (answer : HttpOutcome (option User)) (w : World) :
  truthy_opt (token w) = true ->
  exists w',
    attemptRehydrate captured now1 now2 answer w = (w', inr tt)
    /\ ((store w' = initialState /\ token w' = None)
        \/ (exists u,
              answer = HttpOk (Some u)
              /\ truthy_opt (role u) = true
              /\ isAuthenticated (store w') = true
              /\ user (store w') = Some u)).
Proof.
  intros Htoken. unfold attemptRehydrate, bind, get_world. rewrite Htoken.
  destruct (isTokenValid_returns now1 w) as [b1 ->].
  destruct b1.
  - unfold try_catch, bind.
    destruct (refreshToken_returns now2 answer w) as [w1 [r [-> Hr]]].
    destruct r as [u|].
    + destruct (truthy_opt (role u)) eqn:Hrole; simpl.
      * assert (Hans : answer = HttpOk (Some u)) by now apply Hr.
        destruct (role_is u "superAdmin");
          [| destruct (role_is u "admin" || role_is u "employee");
             [destruct (company_id u) |] ];
          (eexists; split; [reflexivity|];
           right; exists u; repeat split; assumption || reflexivity).
      * eexists. split; [reflexivity|]. left. split; reflexivity.
    + eexists. split; [reflexivity|]. left. split; reflexivity.
  - eexists. split; [reflexivity|]. left. split; reflexivity.
Qed.

Lemma role_invariant_of_user (s : AuthState) (u : User) :
  user s = Some u -> truthy_opt (role u) = true -> role_invariant s.
Proof.
  intros Hu Hrole _. unfold current_role. rewrite Hu.
  unfold truthy_opt in Hrole. destruct (role u) as [r|]; [|discriminate].
  rewrite Hrole. now exists r.
Qed.

(** After the guard has run, an authenticated store has a role. *)
Lemma ProtectedRoute_restores_invariant (roleProp : option RoleProp)
    (location : Location) (w : World) :
  role_invariant (store (fst (ProtectedRoute roleProp location w))).
Proof.
  destruct (ProtectedRoute roleProp location w) as [w' el] eqn:Hrun.
  apply ProtectedRoute_sound in Hrun. simpl.
  destruct Hrun as [Ha | Ha Hr | required userRole Ha Hr Hp Ht Hn
                   | userRole Ha Hr Hc]; unfold role_invariant.
  - congruence.
  - simpl. discriminate.
  - intros _. now exists userRole.
  - intros _. now exists userRole.
Qed.

(** C7 (as amended): when a rehydration with a held token receives from
    [/auth/me] a user record without a role, the session store is cleared
    and the token removed; when the guard finds an authenticated store
    with no user or no role, the session store is cleared and the
    navigation goes to the login screen.  After a rehydration with a held
    token, and after every evaluation of the guard, an authenticated store
    has a user with a role. *)
Theorem missing_role_recovery :
  (forall (captured : bool) (now1 now2 : Z)
          (answer : HttpOutcome (option User)) (w : World),
      truthy_opt (token w) = true ->
      let w' := fst (attemptRehydrate captured now1 now2 answer w) in
      role_invariant (store w')
      /\ (forall u, answer = HttpOk (Some u) ->
                    truthy_opt (role u) = false ->
                    store w' = initialState /\ token w' = None))
  /\ (forall (roleProp : option RoleProp) (location : Location) (w : World),
      let w' := fst (ProtectedRoute roleProp location w) in
      role_invariant (store w')
      /\ (isAuthenticated (store w) = true ->
          current_role (store w) = None ->
          store w' = initialState
          /\ snd (ProtectedRoute roleProp location w)
             = Navigate "/login" (Some location) true)).
Proof.
  split.
  - intros captured now1 now2 answer w Htoken. simpl.
    destruct (attemptRehydrate_outcome captured now1 now2 answer w Htoken)
      as [w' [-> Hcases]]. simpl.
    destruct Hcases as [[Hstore Htok] | [u [Hans [Hrole [Ha Hu]]]]].
    + split.
      * rewrite Hstore. apply role_invariant_initialState.
      * intros; split; assumption.
    + split.
      * now apply role_invariant_of_user with u.
      * intros u' Hans' Hrole'. rewrite Hans in Hans'.
        injection Hans' as <-. congruence.
  - intros roleProp location w. simpl. split.
    + apply ProtectedRoute_restores_invariant.
    + intros Ha Hr. unfold ProtectedRoute. rewrite Ha, Hr. simpl.
      split; reflexivity.
Qed.

(* ================================================================== *)
(** ** Further properties of the interceptors *)
(* ================================================================== *)

(** The error callback never touches the store, the default header of
    the client or the router. *)
Lemma responseError_frame (error : AxiosError) (w : World) :
  store (fst (responseError error w)) = store w
  /\ authHeader (fst (responseError error w)) = authHeader w
  /\ navigations (fst (responseError error w)) = navigations w.
Proof.
  destruct error as [status data|]; unfold responseError;
    [|repeat split].
  destruct (status =? 401); [repeat split|].
  destruct (status =? 403); [repeat split|].
  destruct (status =? 404); [repeat split|].
  destruct (status =? 422);
    [destruct (validationToast data); repeat split|].
  destruct (status =? 500); repeat split.
Qed.

Lemma describe_errors_throws_TypeError (errs : list json) (t : Thrown) :
  describe_errors errs = inl t -> t = TypeError.
Proof.
  induction errs as [|err rest IH]; simpl; [discriminate|].
  destruct (describe_error_defined_or_null err) as [-> | [s Hs]].
  - simpl. now intros [= <-].
  - rewrite Hs. destruct (describe_errors rest) as [t'|ss].
    + intros [= <-]. now apply IH.
    + discriminate.
Qed.

Lemma validationToast_throws_TypeError (data : option json) (t : Thrown) :
  validationToast data = inl t -> t = TypeError.
Proof.
  unfold validationToast, validationMessage.
  destruct (response_detail data) as [detail|]; [|discriminate].
  destruct (truthy detail); simpl; [|discriminate].
  destruct detail as [|b|q|str|errs|members]; simpl; try discriminate.
  - destruct (describe_errors errs) as [t'|msgs] eqn:He; [|discriminate].
    intros [= <-]. now apply describe_errors_throws_TypeError with errs.
  - destruct (assoc "message" members) as [[|b|q|m|items|ms]|];
      try discriminate.
    destruct (truthy_string m); discriminate.
Qed.

Lemma defaultToast_truthy (data : option json) :
  truthy (defaultToast data) = true.
Proof.
  unfold defaultToast.
  destruct data as [d|]; [|reflexivity].
  destruct d as [|b|q|s|items|members]; try reflexivity.
  simpl. destruct (assoc "message" members) as [m|]; [|reflexivity].
  destruct (truthy m) eqn:Hm; [exact Hm | reflexivity].
Qed.

(** Only the 401 case removes the token or assigns the location. *)
Lemma responseError_not_401 (error : AxiosError) (w : World) :
  is_401 error = false ->
  token (fst (responseError error w)) = token w
  /\ hrefs (fst (responseError error w)) = hrefs w.
Proof.
  intros Hnot. destruct error as [status data|]; simpl in *;
    [|split; reflexivity].
  unfold responseError. rewrite Hnot.
  destruct (status =? 403); [split; reflexivity|].
  destruct (status =? 404); [split; reflexivity|].
  destruct (status =? 422);
    [destruct (validationToast data); split; reflexivity|].
  destruct (status =? 500); split; reflexivity.
Qed.

(** X1: an error that is not a 401 response never signs the user out:
    the stored token, the window location, the session store, the default
    header of the client and the router are left as they were. *)
Theorem only_401_signs_out (error : AxiosError) (w : World) :
  is_401 error = false ->
  let w' := fst (responseError error w) in
  token w' = token w
  /\ hrefs w' = hrefs w
  /\ store w' = store w
  /\ authHeader w' = authHeader w
  /\ navigations w' = navigations w.
Proof.
  intros Hnot. simpl.
  destruct (responseError_not_401 error w Hnot) as [Htoken Hhrefs].
  destruct (responseError_frame error w) as [Hstore [Hheader Hnav]].
  repeat split; assumption.
Qed.

(** X2: a failed request shows at most one notification, and never an
    empty one: either the handler of the 422 case threw a TypeError before
    showing anything, or exactly one notification with a truthy content was
    added and the promise is rejected with the error the callback
    received. *)
Theorem one_notification_per_failure (error : AxiosError) (w : World) :
  (toasts (fst (responseError error w)) = toasts w
   /\ snd (responseError error w) = TypeError
   /\ exists data, error = ResponseError 422 data)
  \/ (exists m,
        toasts (fst (responseError error w)) = m :: toasts w
        /\ truthy m = true
        /\ snd (responseError error w) = Rejected error).
Proof.
  destruct error as [status data|]; unfold responseError;
    [|right; eexists; repeat split].
  destruct (status =? 401) eqn:H401; [right; eexists; repeat split|].
  destruct (status =? 403) eqn:H403; [right; eexists; repeat split|].
  destruct (status =? 404) eqn:H404; [right; eexists; repeat split|].
  destruct (status =? 422) eqn:H422.
  - apply Z.eqb_eq in H422. subst status.
    destruct (validationToast data) as [t|m] eqn:Hv.
    + left. repeat split; simpl.
      * now apply validationToast_throws_TypeError with data.
      * now exists data.
    + right. exists (JStr m). repeat split. simpl.
      apply truthy_string_true. now apply validationToast_nonempty with data.
  - destruct (status =? 500); right; eexists; repeat split.
    apply defaultToast_truthy.
Qed.

Lemma requestInterceptor_with_token (authorization : option string)
    (w : World) (t : string) :
  token w = Some t -> t <> "" ->
  requestInterceptor authorization w = Some ("Bearer " ++ t)%string.
Proof.
  intros Ht Hne. unfold requestInterceptor. rewrite Ht.
  apply truthy_string_true in Hne. now rewrite Hne.
Qed.

(** X3: the token in storage wins over the default header: with a
    non-empty token stored every request leaves with [Bearer <token>].
    After a successful login that is the new access token; after [logout]
    a request carries no Authorization header at all. *)
Theorem outgoing_authorization_follows_session
    (credentials : LoginCredentials) (d : LoginResponse) (w : World) :
  (forall t, token w = Some t -> t <> "" ->
             outgoing_authorization w = Some ("Bearer " ++ t)%string)
  /\ (access_token d <> "" ->
      outgoing_authorization (fst (login credentials (HttpOk (Some d)) w))
      = Some ("Bearer " ++ access_token d)%string)
  /\ outgoing_authorization (logout w) = None.
Proof.
  split; [|split].
  - intros t Ht Hne. now apply requestInterceptor_with_token.
  - intros Hne. rewrite login_success. simpl.
    now apply requestInterceptor_with_token.
  - reflexivity.
Qed.

(* ================================================================== *)
(** ** Further properties of the store, [refreshToken] and rehydration *)
(* ================================================================== *)

(** Every setter of the store writes its own field only; writing a
    field twice keeps the last value; setters of different fields commute. *)
Theorem setters_are_independent (s : AuthState) (u u' : option User)
    (b b' : bool) (c c' : nullable string) :
  (isAuthenticated (setUser u s) = isAuthenticated s
   /\ selectedCompanyId (setUser u s) = selectedCompanyId s
   /\ user (setUser u s) = u)
  /\ (user (setIsAuthenticated b s) = user s
      /\ selectedCompanyId (setIsAuthenticated b s) = selectedCompanyId s
      /\ isAuthenticated (setIsAuthenticated b s) = b)
  /\ (user (setSelectedCompanyId c s) = user s
      /\ isAuthenticated (setSelectedCompanyId c s) = isAuthenticated s
      /\ selectedCompanyId (setSelectedCompanyId c s) = c)
  /\ (setUser u' (setUser u s) = setUser u' s
      /\ setIsAuthenticated b' (setIsAuthenticated b s) = setIsAuthenticated b' s
      /\ setSelectedCompanyId c' (setSelectedCompanyId c s)
         = setSelectedCompanyId c' s)
  /\ (setUser u (setIsAuthenticated b s) = setIsAuthenticated b (setUser u s)
      /\ setUser u (setSelectedCompanyId c s)
         = setSelectedCompanyId c (setUser u s)
      /\ setIsAuthenticated b (setSelectedCompanyId c s)
         = setSelectedCompanyId c (setIsAuthenticated b s)).
Proof.
  destruct s as [a0 u0 c0]. repeat split.
Qed.

(** X4: [refreshToken] never throws.  With an invalid token it clears
    the store and returns null, whatever the backend would answer; when
    [/auth/me] answers, the body becomes the stored user, the session is
    marked authenticated and the body is returned, also when the body is
    null; when [/auth/me] fails the store is cleared, null is returned, and
    the token is gone exactly when the failure was a 401. *)
Theorem refreshToken_outcome (now : Z) (answer : HttpOutcome (option User))
    (w : World) (valid : bool) :
  isTokenValid now w = (w, inr valid) ->
  (valid = false ->
   refreshToken now answer w = (update_store clearAuth w, inr None))
  /\ (valid = true -> forall data, answer = HttpOk data ->
      refreshToken now answer w
      = (update_store (setIsAuthenticated true)
           (update_store (setUser data) w), inr data))
  /\ (valid = true -> forall e, answer = HttpFail e ->
      snd (refreshToken now answer w) = inr None
      /\ store (fst (refreshToken now answer w)) = initialState
      /\ token (fst (refreshToken now answer w))
         = if is_401 e then None else token w).
Proof.
  intros Hvalid. unfold refreshToken, bind. rewrite Hvalid.
  split; [|split].
  - intros ->. reflexivity.
  - intros -> data ->. reflexivity.
  - intros -> e ->. simpl. unfold try_catch, bind, api_call.
    destruct (responseError e w) as [w1 t] eqn:He. simpl.
    repeat split.
    assert (Hw1 : w1 = fst (responseError e w)) by now rewrite He.
    subst w1. clear He.
    destruct (is_401 e) eqn:H401.
    + destruct e as [status data|]; [|discriminate]. simpl in H401.
      unfold responseError. now rewrite H401.
    + now destruct (responseError_not_401 e w H401) as [Ht _].
Qed.

(** X5: a rehydration with a valid token, answered with a user who has a
    role, signs that user in and selects the company by role: none for the
    cross-tenant administrator, the user's own company for a tenant
    administrator or employee (none when the record has no [company_id]),
    and the company selected before for any other role.  Storage, default
    header, location and notifications are not touched. *)
Theorem rehydration_signs_in (captured : bool) (now1 now2 : Z) (u : User)
    (w : World) :
  truthy_opt (token w) = true ->
  isTokenValid now1 w = (w, inr true) ->
  isTokenValid now2 w = (w, inr true) ->
  truthy_opt (role u) = true ->
  attemptRehydrate captured now1 now2 (HttpOk (Some u)) w
  = ({| token := token w;
        authHeader := authHeader w;
        store := {| isAuthenticated := true;
                    user := Some u;
                    selectedCompanyId :=
                      rehydrated_company u (selectedCompanyId (store w)) |};
        hrefs := hrefs w;
        toasts := toasts w;
        navigations := navigations w |},
     inr tt).
Proof.
  intros Htoken Hv1 Hv2 Hrole.
  unfold attemptRehydrate, bind, get_world. rewrite Htoken, Hv1.
  unfold try_catch, bind, refreshToken, bind. rewrite Hv2. simpl.
  rewrite Hrole. simpl. unfold rehydrated_company.
  destruct (role_is u "superAdmin"); [reflexivity|].
  destruct (role_is u "admin" || role_is u "employee");
    [destruct (company_id u); reflexivity|].
  destruct w as [tk hd [a us c] hr ts nv]. reflexivity.
Qed.

(** X6: with a token held, a rehydration ends signed out, with the
    token removed from storage, whenever the token is expired or cannot be
    decoded (at either check), or [/auth/me] fails, or it answers without a
    body; it never throws. *)
Theorem rehydration_failure_signs_out (captured : bool) (now1 now2 : Z)
    (answer : HttpOutcome (option User)) (w : World) :
  truthy_opt (token w) = true ->
  isTokenValid now1 w = (w, inr false)
  \/ isTokenValid now2 w = (w, inr false)
  \/ (exists e, answer = HttpFail e)
  \/ answer = HttpOk None ->
  snd (attemptRehydrate captured now1 now2 answer w) = inr tt
  /\ store (fst (attemptRehydrate captured now1 now2 answer w)) = initialState
  /\ token (fst (attemptRehydrate captured now1 now2 answer w)) = None.
Proof.
  intros Htoken Hfail.
  unfold attemptRehydrate, bind, get_world. rewrite Htoken.
  destruct (isTokenValid_returns now1 w) as [b1 Hv1]. rewrite Hv1.
  destruct b1; [|repeat split].
  unfold try_catch, bind, refreshToken, bind.
  destruct (isTokenValid_returns now2 w) as [b2 Hv2]. rewrite Hv2.
  destruct b2; [|repeat split].
  destruct Hfail as [H | [H | [[e ->] | ->]]].
  - rewrite Hv1 in H. discriminate.
  - rewrite Hv2 in H. discriminate.
  - simpl. unfold try_catch, bind, api_call.
    destruct (responseError e w) as [w1 t]. repeat split.
  - repeat split.
Qed.

(** X7: the effect of [App] does nothing, whatever the backend would
    answer, when the render saw an authenticated store or when no token (or
    an empty one) is stored. *)
Theorem App_effect_idle (now1 now2 : Z) (answer : HttpOutcome (option User))
    (w : World) :
  isAuthenticated (store w) = true \/ truthy_opt (token w) = false ->
  App_effect now1 now2 answer w = (w, inr tt).
Proof.
  intros Hidle. unfold App_effect, bind, get_world.
  destruct (isAuthenticated (store w)) eqn:Ha; [reflexivity|].
  destruct Hidle as [H | H]; [discriminate|].
  simpl. unfold attemptRehydrate, bind, get_world. now rewrite H.
Qed.

(* ================================================================== *)
(** ** Properties of the route tables *)
(* ================================================================== *)

Lemma current_role_user (s : AuthState) (r : string) :
  current_role s = Some r ->
  exists u, user s = Some u /\ role u = Some r /\ truthy_string r = true.
Proof.
  unfold current_role. destruct (user s) as [u|]; [|discriminate].
  destruct (role u) as [r'|] eqn:Hrole; [|discriminate].
  destruct (truthy_string r') eqn:Ht; [|discriminate].
  intros [= <-]. exists u. repeat split; assumption.
Qed.

Lemma user_role_is_current (s : AuthState) (r name : string) :
  current_role s = Some r -> user_role_is s name = String.eqb r name.
Proof.
  intros H. destruct (current_role_user s r H) as [u [Hu [Hr _]]].
  unfold user_role_is, role_is. now rewrite Hu, Hr.
Qed.

(** The guard lets a user through when no role is asked for, or when the
    user's role is among those asked for. *)
Lemma ProtectedRoute_admits (roleProp : option RoleProp) (location : Location)
    (w : World) (userRole : string) :
  isAuthenticated (store w) = true ->
  current_role (store w) = Some userRole ->
  match roleProp with
  | Some required => includes (requiredRoles required) userRole = true
  | None => True
  end ->
  ProtectedRoute roleProp location w = (w, Children).
Proof.
  intros Ha Hr Hin. apply guard_case_complete.
  apply case_render with userRole; auto.
  destruct roleProp as [required|]; [|now left].
  right. exists required. split; [reflexivity | now apply includes_In].
Qed.

(** A guarded page of the sidebar layout is shown to a user the guard
    admits. *)
Lemma App_outlet_guarded (path page : string) (roleProp : option RoleProp)
    (w : World) (userRole : string) :
  isAuthenticated (store w) = true ->
  current_role (store w) = Some userRole ->
  includes ["/login"; "/signup"; "/"] path = false ->
  match_route sidebar_routes path = Some (Guarded roleProp page) ->
  match roleProp with
  | Some required => includes (requiredRoles required) userRole = true
  | None => True
  end ->
  App_outlet (location_of path) w = (w, Page page).
Proof.
  intros Ha Hr Hpath Hroute Hin.
  unfold App_outlet, shouldUseSidebar.
  change (location_pathname (location_of path)) with path.
  rewrite Ha, Hpath. cbn [andb negb]. rewrite Hroute.
  now rewrite (ProtectedRoute_admits roleProp (location_of path) w userRole).
Qed.

(** Every link of the sidebar is routed, and its guard admits the
    user. *)
Lemma Sidebar_links_routed (w : World) (userRole path : string) :
  isAuthenticated (store w) = true ->
  current_role (store w) = Some userRole ->
  In path (Sidebar_links (store w)) ->
  exists page, App_outlet (location_of path) w = (w, Page page).
Proof.
  intros Ha Hr Hin. unfold Sidebar_links in Hin.
  rewrite !(user_role_is_current _ _ _ Hr) in Hin.
  destruct (current_role_user _ _ Hr) as [u [Hu _]]. rewrite Hu in Hin.
  assert (Hgeneral :
    In path ["/product"; "/profile"] ->
    exists page, App_outlet (location_of path) w = (w, Page page)).
  { intros [<- | [<- | []]].
    - exists "ProductPage". unfold App_outlet, shouldUseSidebar. simpl.
      now rewrite Ha.
    - exists "ProfilePage".
      now apply App_outlet_guarded with None userRole. }
  destruct (String.eqb userRole "superAdmin") eqn:Hsuper.
  { apply String.eqb_eq in Hsuper. subst userRole. simpl in Hin.
    destruct (truthy_nullable (selectedCompanyId (store w))); simpl in Hin;
      repeat (destruct Hin as [<- | Hin];
              [eexists;
               eapply App_outlet_guarded with (userRole := "superAdmin");
               try eassumption; reflexivity|]);
      apply Hgeneral; exact Hin. }
  destruct (String.eqb userRole "admin") eqn:Hadmin.
  { apply String.eqb_eq in Hadmin. subst userRole. simpl in Hin.
    repeat (destruct Hin as [<- | Hin];
            [eexists;
             eapply App_outlet_guarded with (userRole := "admin");
             try eassumption; reflexivity|]).
    apply Hgeneral; exact Hin. }
  destruct (String.eqb userRole "employee") eqn:Hemployee.
  { apply String.eqb_eq in Hemployee. subst userRole. simpl in Hin.
    repeat (destruct Hin as [<- | Hin];
            [eexists;
             eapply App_outlet_guarded with (userRole := "employee");
             try eassumption; reflexivity|]).
    apply Hgeneral; exact Hin. }
  simpl in Hin. apply Hgeneral; exact Hin.
Qed.

(** X8: every link the sidebar renders for an authenticated user who has
    a role passes the router and the guard: its path is in the route table
    of the sidebar layout and the guard of that route admits the user's
    role, so the page component of the route is mounted, the tab
    unchanged.  That is not yet a page on the screen: the dashboard link
    the sidebar renders for an employee mounts the analytics dashboard
    page, whose own check refuses every role but "admin", notifies
    "Access Denied" and redirects to the login screen. *)
Theorem Sidebar_links_pass_the_guard (w : World) (userRole : string) :
  isAuthenticated (store w) = true ->
  current_role (store w) = Some userRole ->
  (forall path, In path (Sidebar_links (store w)) ->
     exists page, App_outlet (location_of path) w = (w, Page page))
  /\ (userRole = "employee" ->
      In "/employee/dashboard" (Sidebar_links (store w))
      /\ App_outlet (location_of "/employee/dashboard") w
         = (w, Page "AdminAnalyticsDashboardPage")
      /\ AdminAnalyticsDashboardPage_checks (user (store w)) w
         = (toast_error
              (JStr "Access Denied. You must be an Admin to view this page.")
              w,
            Some "/login")).
Proof.
  intros Ha Hr. split.
  - intros path Hin. now apply Sidebar_links_routed with userRole.
  - intros ->.
    destruct (current_role_user _ _ Hr) as [u [Hu [Hrole _]]].
    split; [|split].
    + unfold Sidebar_links.
      rewrite !(user_role_is_current _ _ _ Hr). simpl. now left.
    + apply App_outlet_guarded
        with (roleProp := Some (OneRole "employee")) (userRole := "employee");
        try assumption; reflexivity.
    + unfold AdminAnalyticsDashboardPage_checks. rewrite Hu.
      now rewrite (role_is_eq u "employee" "admin" Hrole).
Qed.

Lemma App_outlet_unauthenticated (location : Location) (w : World) :
  isAuthenticated (store w) = false ->
  App_outlet location w
  = (w, match match_route public_routes (location_pathname location) with
        | Some (Unguarded page) => Page page
        | _ => NoMatch
        end).
Proof.
  intros Ha. unfold App_outlet, shouldUseSidebar. rewrite Ha. simpl.
  unfold public_routes, match_route.
  repeat match goal with
         | |- context [if ?b then _ else _] => destruct b
         end; reflexivity.
Qed.

Lemma App_outlet_home (w : World) :
  App_outlet (location_of "/") w = (w, Page "HomePage").
Proof.
  unfold App_outlet, shouldUseSidebar. simpl.
  now rewrite andb_false_r.
Qed.

(** X9: a redirect of the guard never meets a second redirect: for
    every evaluation of [ProtectedRoute] that answers with a [Navigate],
    the target, looked up in the routes of [App] in the state the guard
    leaves behind, is a page that is shown. *)
Theorem guard_redirect_lands_on_a_page (roleProp : option RoleProp)
    (location : Location) (w w' : World) (to : string)
    (from : option Location) (replace : bool) :
  ProtectedRoute roleProp location w = (w', Navigate to from replace) ->
  exists page, App_outlet (location_of to) w' = (w', Page page).
Proof.
  intros Hrun. apply ProtectedRoute_sound in Hrun.
  inversion Hrun as [Ha | Ha Hr | required userRole Ha Hr Hp Ht Hn
                    | userRole Ha Hr Hc]; subst.
  - exists "SignInPage". now rewrite App_outlet_unauthenticated.
  - exists "SignInPage". now rewrite App_outlet_unauthenticated.
  - unfold default_landing.
    destruct (String.eqb userRole "superAdmin") eqn:Hsuper.
    { apply String.eqb_eq in Hsuper. subst userRole. eexists.
      eapply App_outlet_guarded with (userRole := "superAdmin");
        try eassumption; reflexivity. }
    destruct (String.eqb userRole "admin") eqn:Hadmin.
    { apply String.eqb_eq in Hadmin. subst userRole. eexists.
      eapply App_outlet_guarded with (userRole := "admin");
        try eassumption; reflexivity. }
    exists "HomePage".
    destruct (String.eqb userRole "employee"); apply App_outlet_home.
Qed.

(** X10: an unauthenticated store only ever sees the routes of the
    public layout: [App] evaluates no guard and changes nothing, the outlet
    is one of the five public pages or no route at all, and every path of
    the sidebar layout other than /product and /company matches no
    route. *)
Theorem unauthenticated_sees_public_routes (location : Location) (w : World) :
  isAuthenticated (store w) = false ->
  fst (App_outlet location w) = w
  /\ (snd (App_outlet location w) = NoMatch
      \/ exists page, In page public_pages
                      /\ snd (App_outlet location w) = Page page)
  /\ (In (location_pathname location)
         ["/tickets"; "/profile"; "/admin/select-company";
          "/admin/company-dashboard"; "/admin/analytics-dashboard";
          "/employee/dashboard"; "/admin/team";
          "/admin/dummy-create-ticket"; "/admin/documentation"] ->
      snd (App_outlet location w) = NoMatch).
Proof.
  intros Ha. rewrite (App_outlet_unauthenticated location w Ha). simpl.
  split; [reflexivity|]. split.
  - unfold public_pages.
    repeat match goal with
           | |- context [if ?b then _ else _] => destruct b
           end;
      try (left; reflexivity);
      right; eexists; (split; [|reflexivity]); simpl; tauto.
  - intros Hin.
    repeat (destruct Hin as [<- | Hin]; [reflexivity|]).
    contradiction.
Qed.


(* ================================================================== *)
(** ** Further properties of the sign-in form *)
(* ================================================================== *)

Lemma truthy_string_false_empty (s : string) :
  truthy_string s = false -> s = "".
Proof.
  unfold truthy_string. rewrite negb_false_iff. apply String.eqb_eq.
Qed.

Lemma role_is_true (u : User) (name : string) :
  role_is u name = true -> role u = Some name.
Proof.
  unfold role_is. destruct (role u) as [r|]; [|discriminate].
  intros H. apply String.eqb_eq in H. now subst.
Qed.

(** A login that does not succeed leaves the router alone and ends
    signed out. *)
Lemma login_failure_outcome (credentials : LoginCredentials)
    (answer : HttpOutcome (option LoginResponse)) (w : World) :
  (forall d, answer <> HttpOk (Some d)) ->
  exists w1 error,
    login credentials answer w = (w1, inl error)
    /\ signed_out w1
    /\ navigations w1 = navigations w.
Proof.
  intros Hfail. unfold login, try_catch, login_try, bind, api_call.
  destruct answer as [[d|]|e].
  - exfalso. now apply (Hfail d).
  - eexists; eexists. split; [reflexivity|]. repeat split.
  - destruct (responseError_frame e w) as [_ [_ Hnav]].
    destruct (responseError e w) as [w1 t]. simpl in Hnav.
    eexists; eexists. split; [reflexivity|]. repeat split. exact Hnav.
Qed.

(** X11: whenever the sign-in form navigates, it navigates once, and to
    a page that is shown to the user it has just signed in: the target is
    in the routes of [App] and, where the route is guarded, the guard admits
    the user's role. *)
Theorem handleSubmit_navigates_to_a_page (email_input password_input : string)
    (answer : HttpOutcome (option LoginResponse)) (w : World) :
  let w' := fst (handleSubmit email_input password_input answer w) in
  navigations w' = navigations w
  \/ exists path page,
       navigations w' = path :: navigations w
       /\ App_outlet (location_of path) w' = (w', Page page).
Proof.
  simpl. unfold handleSubmit.
  destruct (validateForm email_input password_input); simpl; [|now left].
  destruct answer as [[d|]|e].
  - unfold handleSubmit_try, bind. rewrite login_success.
    set (u := response_user d).
    destruct (role_is u "superAdmin") eqn:Hsuper.
    { right. exists "/admin/select-company", "SelectCompanyPage".
      split; [reflexivity|].
      apply App_outlet_guarded
        with (roleProp := Some (OneRole "superAdmin"))
             (userRole := "superAdmin"); try reflexivity.
      simpl. unfold current_role. simpl. fold u.
      now rewrite (role_is_true u _ Hsuper). }
    destruct (role_is u "admin") eqn:Hadmin.
    { right. exists "/admin/analytics-dashboard", "AdminAnalyticsDashboardPage".
      split; [reflexivity|].
      apply App_outlet_guarded
        with (roleProp := Some (OneRole "admin")) (userRole := "admin");
        try reflexivity.
      simpl. unfold current_role. simpl. fold u.
      now rewrite (role_is_true u _ Hadmin). }
    destruct (role_is u "employee") eqn:Hemployee.
    { destruct (truthy_opt (department_id u)) eqn:Hdept; simpl.
      - right. exists "/tickets", "AllTicketsPage".
        split; [reflexivity|].
        apply App_outlet_guarded
          with (roleProp := Some (Roles ["admin"; "employee"]))
               (userRole := "employee"); try reflexivity.
        simpl. unfold current_role. simpl. fold u.
        now rewrite (role_is_true u _ Hemployee).
      - now left. }
    right. exists "/", "HomePage". split; [reflexivity|].
    apply App_outlet_home.
  - unfold handleSubmit_try, bind.
    destruct (login_failure_outcome
                {| credentials_username := email_input;
                   credentials_password := password_input |}
                (HttpOk None) w) as [w1 [error [-> [_ Hnav]]]].
    { discriminate. }
    now left.
  - unfold handleSubmit_try, bind.
    destruct (login_failure_outcome
                {| credentials_username := email_input;
                   credentials_password := password_input |}
                (HttpFail e) w) as [w1 [error [-> [_ Hnav]]]].
    { discriminate. }
    now left.
Qed.

(** X12: [validateForm] accepts exactly the forms whose e-mail field
    contains a substring of the shape [\S+@\S+\.\S+] and whose password
    field is not empty; a form it refuses changes nothing in the tab and
    sends nothing, whatever the backend would answer. *)
Theorem validateForm_accepts (email_input password_input : string) :
  (validateForm email_input password_input = true
   <-> contains_email email_input /\ password_input <> "")
  /\ (validateForm email_input password_input = false ->
      forall answer w,
        handleSubmit email_input password_input answer w
        = (w, newErrors email_input password_input)).
Proof.
  split.
  - unfold validateForm, newErrors. simpl.
    rewrite <- email_regex_test_correct, <- truthy_string_true.
    destruct (truthy_string email_input) eqn:He; simpl.
    + destruct (email_regex_test email_input); simpl;
        destruct (truthy_string password_input); simpl;
        split; try discriminate; try tauto;
        intros [H1 H2]; discriminate.
    + apply truthy_string_false_empty in He. subst email_input.
      destruct (truthy_string password_input); simpl;
        split; try discriminate; intros [H1 H2]; discriminate.
  - intros Hinvalid answer w. unfold handleSubmit. now rewrite Hinvalid.
Qed.

(** X13: when the login behind the form fails, because the request is
    rejected or because the body of the response is [null], on which the
    destructuring in [login] throws, the form ends with the general error
    "Failed to sign in", without navigating, and the tab is signed out: no
    token, no default header, the store reset. *)
Theorem handleSubmit_login_failure (email_input password_input : string)
    (answer : HttpOutcome (option LoginResponse)) (w : World) :
  validateForm email_input password_input = true ->
  answer = HttpOk None \/ (exists e, answer = HttpFail e) ->
  let w' := fst (handleSubmit email_input password_input answer w) in
  snd (handleSubmit email_input password_input answer w)
  = general_error "Failed to sign in. Please check your credentials."
  /\ signed_out w'
  /\ navigations w' = navigations w.
Proof.
  intros Hvalid Hcause. simpl. unfold handleSubmit. rewrite Hvalid. simpl.
  unfold handleSubmit_try, bind.
  assert (Hfail : forall d, answer <> HttpOk (Some d))
    by (destruct Hcause as [-> | [e ->]]; discriminate).
  destruct (login_failure_outcome
              {| credentials_username := email_input;
                 credentials_password := password_input |}
              answer w Hfail) as [w1 [error [-> [Hout Hnav]]]].
  simpl. repeat split; try apply Hout. exact Hnav.
Qed.

(** X14: an employee without a department is refused by the form after
    the login has succeeded: there is no navigation, the store ends not
    authenticated and without a user, and the form shows the department
    error.  What the login wrote outside these two fields stays: the token
    in storage, the default header, and the employee's company as selected
    company. *)
Theorem handleSubmit_employee_without_department
    (email_input password_input : string) (d : LoginResponse) (w : World) :
  validateForm email_input password_input = true ->
  role (response_user d) = Some "employee" ->
  truthy_opt (department_id (response_user d)) = false ->
  let w' := fst (handleSubmit email_input password_input (HttpOk (Some d)) w) in
  snd (handleSubmit email_input password_input (HttpOk (Some d)) w)
  = general_error
      "Your account is not associated with a department. Please contact your administrator."
  /\ navigations w' = navigations w
  /\ isAuthenticated (store w') = false
  /\ user (store w') = None
  /\ selectedCompanyId (store w') = company_id (response_user d)
  /\ token w' = Some (access_token d)
  /\ authHeader w' = Some ("Bearer " ++ access_token d)%string.
Proof.
  intros Hvalid Hrole Hdept. simpl. unfold handleSubmit. rewrite Hvalid.
  simpl. unfold handleSubmit_try, bind. rewrite login_success.
  rewrite !(role_is_eq _ _ _ Hrole). simpl. rewrite Hdept. simpl.
  repeat split.
Qed.

(* ================================================================== *)
(** ** Further properties of the resource clients *)
(* ================================================================== *)

Lemma wire_when_truthy_same (key : string) (x : option string) :
  wire key (when_truthy key x) = sent x.
Proof.
  unfold when_truthy, sent.
  destruct x as [s|]; [destruct (truthy_string s)|]; simpl;
    try rewrite String.eqb_refl; reflexivity.
Qed.

Lemma wire_in_keys (key : string) (q : list (string * QueryValue)) :
  wire key q <> None -> In key (map fst q).
Proof.
  induction q as [|[k v] rest IH]; simpl; [congruence|].
  destruct (String.eqb key k) eqn:E.
  - apply String.eqb_eq in E. intros _. now left.
  - intros H. right. now apply IH.
Qed.

Lemma when_truthy_keys (key k : string) (x : option string) :
  In key (map fst (when_truthy k x)) -> key = k.
Proof.
  unfold when_truthy.
  destruct x as [s|]; [destruct (truthy_string s)|]; simpl;
    intros H; try contradiction.
  destruct H as [H | H]; [now subst | contradiction].
Qed.

(** X15: the ticket query carries a string filter under its snake_case
    key exactly when the filter is set and not empty, [is_critical_only]
    and [limit] exactly when they are set, and no key outside the ten of
    the backend; the camelCase names of the form never reach the wire. *)
Theorem apiParams_wire (params : GetTicketsParams) :
  wire "company_id" (apiParams params) = sent (companyId params)
  /\ wire "department_id" (apiParams params) = sent (departmentId params)
  /\ wire "search" (apiParams params) = sent (search params)
  /\ wire "status" (apiParams params) = sent (status params)
  /\ wire "priority" (apiParams params) = sent (priority params)
  /\ wire "sort_by" (apiParams params) = sent (sortBy params)
  /\ wire "sort_order" (apiParams params) = sent (sortOrder params)
  /\ wire "is_critical_only" (apiParams params)
     = option_map QBool (is_critical_only params)
  /\ wire "limit" (apiParams params) = option_map QNumber (limit params)
  /\ (forall key, wire key (apiParams params) <> None ->
                  In key ticket_query_keys).
Proof.
  unfold apiParams.
  repeat split;
    try (rewrite !wire_app;
         rewrite ?(wire_when_truthy_same "company_id"),
                 ?(wire_when_truthy_same "department_id"),
                 ?(wire_when_truthy_same "search"),
                 ?(wire_when_truthy_same "status"),
                 ?(wire_when_truthy_same "priority"),
                 ?(wire_when_truthy_same "sort_by"),
                 ?(wire_when_truthy_same "sort_order");
         repeat rewrite wire_when_truthy_other by reflexivity;
         destruct (is_critical_only params), (limit params), (page params);
         simpl;
         repeat match goal with
                | |- context [sent ?x] => destruct (sent x)
                end;
         reflexivity).
  intros key Hkey. apply wire_in_keys in Hkey.
  rewrite !map_app, !in_app_iff in Hkey. unfold ticket_query_keys.
  repeat match goal with
         | H : _ \/ _ |- _ => destruct H as [H | H]
         | H : In _ (map fst (when_truthy _ _)) |- _ =>
             apply when_truthy_keys in H; subst key
         end;
    try (simpl; tauto);
    destruct (is_critical_only params), (limit params), (page params);
    simpl in *;
    repeat match goal with
           | H : _ \/ _ |- _ => destruct H as [H | H]
           | H : False |- _ => contradiction
           | H : _ = key |- _ => subst key
           end;
    simpl; tauto.
Qed.

Lemma offset_first_page (l : Z) :
  number_value (js_mul (js_sub 1 1) l) = QNumber 0.
Proof.
  unfold js_mul. replace (js_sub 1 1) with 0 by reflexivity.
  rewrite Z.mul_0_l. reflexivity.
Qed.

(** X16: the fallbacks of [getTickets].  Without a page number no
    offset is sent and the result reports page 1; a page number of 0 counts
    as page 1.  A page size that is missing or 0 counts as 15 for the
    offset, for the reported limit and for [totalPages], while the [limit]
    key of the query still carries what was given (nothing, or 0).  The
    offset is the exact product [(p - 1) * 15] while that stays within
    [2^53], and [totalPages] the exact ceiling for [0 <= total < 2^53]. *)
Theorem getTickets_fallbacks (Ticket : Type) (params : GetTicketsParams)
    (responseData : TicketsData Ticket) :
  let r := shape_response params responseData in
  (page params = None ->
   wire "offset" (apiParams params) = None /\ response_page r = 1)
  /\ (page params = Some 0 ->
      wire "offset" (apiParams params) = Some (QNumber 0)
      /\ response_page r = 1)
  /\ (limit params = None \/ limit params = Some 0 ->
      response_limit r = 15
      /\ totalPages r = ceil_quotient (data_total responseData) 15
      /\ (0 <= data_total responseData < 2 ^ 53 ->
          15 * (totalPages r - 1) < data_total responseData
          <= 15 * totalPages r)
      /\ wire "limit" (apiParams params) = option_map QNumber (limit params)
      /\ forall p, page params = Some p -> 1 <= p -> (p - 1) * 15 <= 2 ^ 53 ->
           wire "offset" (apiParams params) = Some (QNumber ((p - 1) * 15))).
Proof.
  cbv zeta. rewrite wire_offset. unfold shape_response.
  cbn [response_page response_limit totalPages].
  split; [|split].
  - intros ->. split; reflexivity.
  - intros ->. split; [|reflexivity].
    change (number_or (Some 0) 1) with 1. now rewrite offset_first_page.
  - intros Hlimit.
    assert (Hl : number_or (limit params) 15 = 15)
      by (destruct Hlimit as [-> | ->]; reflexivity).
    rewrite Hl. split; [reflexivity|]. split; [reflexivity|].
    split; [|split].
    + intros Htotal. apply ceil_quotient_bounds; [exact Htotal|].
      split; [lia | now apply Z.leb_le].
    + apply wire_limit.
    + intros p -> Hp Hbound. rewrite number_or_positive by exact Hp.
      f_equal. apply offset_exact; solve [lia | now apply Z.leb_le].
Qed.

(* ================================================================== *)
(** ** Properties of the ticket list page *)
(* ================================================================== *)

Lemma click_page (totalPages p : Z) (c : PageClick)
    (filters : GetTicketsParams) :
  1 <= totalPages < 2 ^ 53 ->
  page filters = Some p -> 1 <= p <= totalPages ->
  exists p', page (click totalPages c filters) = Some p'
             /\ 1 <= p' <= totalPages
             /\ p' = match c with
                     | ClickPrevious => if p =? 1 then 1 else p - 1
                     | ClickNext => if p =? totalPages then p else p + 1
                     end.
Proof.
  intros HT Hp Hrange.
  assert (Hsub : js_sub p 1 = p - 1)
    by (apply binary64_integer_exact; lia).
  assert (Hadd : js_add p 1 = p + 1)
    by (apply binary64_integer_exact; lia).
  destruct c; simpl; unfold previousPage, nextPage; simpl;
    rewrite Hp; rewrite number_or_positive by lia;
    rewrite ?Hsub, ?Hadd; eexists;
    (split; [reflexivity|]).
  - destruct (p =? 1) eqn:E;
      [apply Z.eqb_eq in E | apply Z.eqb_neq in E]; lia.
  - destruct (p =? totalPages) eqn:E;
      [apply Z.eqb_eq in E | apply Z.eqb_neq in E]; lia.
Qed.

Lemma click_keeps_limit (totalPages : Z) (c : PageClick)
    (filters : GetTicketsParams) :
  limit (click totalPages c filters) = limit filters.
Proof. destruct c; reflexivity. Qed.

Lemma clicks_page (totalPages : Z) (cs : list PageClick) :
  1 <= totalPages < 2 ^ 53 ->
  forall (filters : GetTicketsParams) (p : Z),
    page filters = Some p -> 1 <= p <= totalPages ->
    exists p', page (clicks totalPages cs filters) = Some p'
               /\ 1 <= p' <= totalPages
               /\ limit (clicks totalPages cs filters) = limit filters.
Proof.
  intros HT. unfold clicks.
  induction cs as [|c rest IH]; intros filters p Hp Hrange; simpl.
  - exists p. repeat split; auto; lia.
  - destruct (click_page totalPages p c filters HT Hp Hrange)
      as [p1 [Hp1 [Hrange1 _]]].
    destruct (IH (click totalPages c filters) p1 Hp1 Hrange1)
      as [p' [Hp' [Hrange' Hlimit]]].
    exists p'. repeat split; auto; try lia.
    now rewrite Hlimit, click_keeps_limit.
Qed.

(** X17: the paging buttons keep the page number between 1 and the
    number of pages.  With a page size [l] and a number of tickets [total]
    that are safe integers ([1 <= l <= 2^53], [1 <= total < 2^53]), where
    number arithmetic is exact, and starting from a page between 1 and the
    [totalPages] of the response, after any series of clicks on Previous
    and Next the page is still in that range and the offset the next query
    sends points at an existing ticket: [0 <= offset < total]. *)
Theorem paging_stays_in_range (l total p : Z) (cs : list PageClick)
    (filters : GetTicketsParams) :
  1 <= l <= 2 ^ 53 ->
  1 <= total < 2 ^ 53 ->
  limit filters = Some l ->
  page filters = Some p ->
  1 <= p <= ceil_quotient total l ->
  let filters' := clicks (ceil_quotient total l) cs filters in
  exists p' offset,
    page filters' = Some p'
    /\ 1 <= p' <= ceil_quotient total l
    /\ wire "offset" (apiParams filters') = Some (QNumber offset)
    /\ 0 <= offset < total.
Proof.
  intros Hl Htotal Hlimit Hp Hrange. simpl.
  pose proof (ceil_quotient_bounds total l ltac:(lia) Hl) as [Hlow Hhigh].
  assert (HT : 1 <= ceil_quotient total l < 2 ^ 53) by nia.
  destruct (clicks_page (ceil_quotient total l) cs HT filters p Hp Hrange)
    as [p' [Hp' [Hrange' Hlimit']]].
  exists p', ((p' - 1) * l). split; [exact Hp'|]. split; [exact Hrange'|].
  assert (Hoffset : 0 <= (p' - 1) * l < total) by nia.
  split; [|exact Hoffset].
  rewrite wire_offset, Hp', Hlimit', Hlimit.
  rewrite !number_or_positive by lia.
  f_equal. apply offset_exact; lia.
Qed.

(** X18: a click on a column header sorts by that column and goes back
    to page 1, leaving the other filters alone; the direction is
    descending exactly when the list was already sorted by that column in
    ascending order, so repeated clicks on one column alternate between
    ascending and descending. *)
Theorem handleSort_toggles (sortKey : string) (prev : GetTicketsParams) :
  sortBy (handleSort sortKey prev) = Some sortKey
  /\ page (handleSort sortKey prev) = Some 1
  /\ (sortOrder (handleSort sortKey prev) = Some "desc"
      <-> sortBy prev = Some sortKey /\ sortOrder prev = Some "asc")
  /\ (sortOrder (handleSort sortKey prev) = Some "asc"
      <-> ~ (sortBy prev = Some sortKey /\ sortOrder prev = Some "asc"))
  /\ sortOrder (handleSort sortKey (handleSort sortKey prev))
     = Some (if sorted_ascending_by sortKey prev then "asc" else "desc")
  /\ handleSort sortKey (handleSort sortKey (handleSort sortKey prev))
     = handleSort sortKey prev
  /\ (search (handleSort sortKey prev) = search prev
      /\ status (handleSort sortKey prev) = status prev
      /\ priority (handleSort sortKey prev) = priority prev
      /\ departmentId (handleSort sortKey prev) = departmentId prev
      /\ limit (handleSort sortKey prev) = limit prev).
Proof.
  assert (Hasc : sorted_ascending_by sortKey prev = true
                 <-> sortBy prev = Some sortKey /\ sortOrder prev = Some "asc").
  { unfold sorted_ascending_by.
    destruct (sortBy prev) as [k|], (sortOrder prev) as [o|];
      try (split; [discriminate | intros [H1 H2]; discriminate]).
    rewrite andb_true_iff, !String.eqb_eq.
    split; intros [H1 H2]; split; congruence. }
  assert (Hstep : forall f,
            sorted_ascending_by sortKey (handleSort sortKey f)
            = negb (sorted_ascending_by sortKey f)).
  { intros f. unfold sorted_ascending_by at 1. simpl.
    rewrite String.eqb_refl.
    destruct (sorted_ascending_by sortKey f); reflexivity. }
  split; [reflexivity|]. split; [reflexivity|].
  split; [|split; [|split; [|split]]].
  - rewrite <- Hasc. simpl.
    destruct (sorted_ascending_by sortKey prev);
      split; congruence.
  - rewrite <- Hasc. simpl.
    destruct (sorted_ascending_by sortKey prev);
      split; try congruence; intros H; exfalso; now apply H.
  - simpl. rewrite Hstep.
    destruct (sorted_ascending_by sortKey prev); reflexivity.
  - unfold handleSort. simpl. f_equal. f_equal.
    unfold sorted_ascending_by; simpl. rewrite !String.eqb_refl.
    destruct (match sortBy prev with
              | Some k =>
                  match sortOrder prev with
                  | Some o => (k =? sortKey)%string && (o =? "asc")%string
                  | None => false
                  end
              | None => false
              end); reflexivity.
  - repeat split.
Qed.

Ltac wire_of_key lemma :=
  unfold apiParams; rewrite !wire_app;
  rewrite lemma;
  repeat rewrite wire_when_truthy_other by reflexivity;
  match goal with
  | |- context [is_critical_only ?p] =>
      destruct (is_critical_only p), (limit p), (page p)
  end;
  simpl;
  repeat match goal with
         | |- context [sent ?x] => destruct (sent x)
         end;
  reflexivity.

Lemma wire_company_id (params : GetTicketsParams) :
  wire "company_id" (apiParams params) = sent (companyId params).
Proof. wire_of_key (wire_when_truthy_same "company_id"). Qed.

Lemma wire_department_id (params : GetTicketsParams) :
  wire "department_id" (apiParams params) = sent (departmentId params).
Proof. wire_of_key (wire_when_truthy_same "department_id"). Qed.

Lemma wire_search (params : GetTicketsParams) :
  wire "search" (apiParams params) = sent (search params).
Proof. wire_of_key (wire_when_truthy_same "search"). Qed.

Lemma wire_status (params : GetTicketsParams) :
  wire "status" (apiParams params) = sent (status params).
Proof. wire_of_key (wire_when_truthy_same "status"). Qed.

Lemma wire_priority (params : GetTicketsParams) :
  wire "priority" (apiParams params) = sent (priority params).
Proof. wire_of_key (wire_when_truthy_same "priority"). Qed.

Lemma wire_filter_key (name : FilterField) (params : GetTicketsParams) :
  wire (filter_key name) (apiParams params)
  = sent (match name with
          | SearchField => search params
          | StatusField => status params
          | PriorityField => priority params
          | DepartmentIdField => departmentId params
          end).
Proof.
  destruct name; simpl.
  - apply wire_search.
  - apply wire_status.
  - apply wire_priority.
  - apply wire_department_id.
Qed.

(** X19: a change of one of the four filter inputs goes back to the
    first page (offset 0 in the next query) and sets that filter alone: a
    non-empty value is sent under the filter's key, an emptied input
    removes the key from the query, and the other three filters are sent as
    before. *)
Theorem handleFilterChange_effect (name : FilterField) (value : string)
    (prev : GetTicketsParams) :
  let filters := handleFilterChange name value prev in
  page filters = Some 1
  /\ wire "offset" (apiParams filters) = Some (QNumber 0)
  /\ wire (filter_key name) (apiParams filters) = sent (Some value)
  /\ (value = "" -> wire (filter_key name) (apiParams filters) = None)
  /\ (forall other, other <> name ->
        wire (filter_key other) (apiParams filters)
        = wire (filter_key other) (apiParams prev)).
Proof.
  simpl. split; [reflexivity|]. split; [|split; [|split]].
  - rewrite wire_offset. reflexivity.
  - rewrite wire_filter_key. unfold sent.
    destruct name; simpl;
      destruct (truthy_string value) eqn:E; rewrite ?E; reflexivity.
  - intros ->. rewrite wire_filter_key. destruct name; reflexivity.
  - intros other Hother. rewrite !wire_filter_key.
    destruct other, name; try reflexivity; congruence.
Qed.

Lemma sent_option_or_undefined (x : option string) :
  sent (option_or_undefined x) = sent x.
Proof.
  destruct x as [s|]; simpl; [|reflexivity].
  destruct (truthy_string s) eqn:E; simpl; [now rewrite E | reflexivity].
Qed.

(** X20: the ticket query is bound to the signed-in user.  For an
    employee the department sent is the employee's own (none when the
    record has none), whatever the department filter of the page holds, and
    no company is sent; for a tenant or cross-tenant administrator the
    company sent is the user's own and the department is the filter's.  The
    text, status and priority filters pass through unchanged. *)
Theorem queryParams_binds_user (u : User) (filters : GetTicketsParams) :
  let q := apiParams (queryParams (Some u) filters) in
  (role u = Some "employee" ->
   wire "department_id" q = sent (department_id u)
   /\ wire "company_id" q = None)
  /\ (role u = Some "admin" \/ role u = Some "superAdmin" ->
      wire "company_id" q
      = match company_id u with
        | Val c => sent (Some c)
        | _ => None
        end
      /\ wire "department_id" q = sent (departmentId filters))
  /\ wire "search" q = wire "search" (apiParams filters)
  /\ wire "status" q = wire "status" (apiParams filters)
  /\ wire "priority" q = wire "priority" (apiParams filters)
  /\ wire "offset" q = wire "offset" (apiParams filters).
Proof.
  simpl. rewrite !wire_search, !wire_status, !wire_priority, !wire_offset.
  rewrite wire_company_id, wire_department_id.
  split; [|split; [|repeat split]].
  - intros Hrole. simpl. rewrite !(role_is_eq _ _ _ Hrole). simpl.
    split; [apply sent_option_or_undefined | reflexivity].
  - intros Hrole. simpl.
    destruct Hrole as [Hrole | Hrole]; rewrite !(role_is_eq _ _ _ Hrole);
      simpl; (split; [|reflexivity]);
      destruct (company_id u) as [| |c]; simpl; try reflexivity;
      destruct (truthy_string c) eqn:E; simpl; now rewrite ?E.
Qed.

(** X21: the analytics query carries each of the six filters under its
    snake_case key exactly when the filter is set and not empty, and no
    other key; without filters it is empty. *)
Theorem prepareAnalyticsParams_wire (filters : AnalyticsFilters) :
  let q := prepareAnalyticsParams filters in
  wire "company_id" q = sent (analytics_companyId filters)
  /\ wire "department_id" q = sent (analytics_departmentId filters)
  /\ wire "start_date" q = sent (analytics_startDate filters)
  /\ wire "end_date" q = sent (analytics_endDate filters)
  /\ wire "user_id" q = sent (analytics_userId filters)
  /\ wire "interval" q = sent (analytics_interval filters)
  /\ (forall key, wire key q <> None -> In key analytics_query_keys)
  /\ (sent (analytics_companyId filters) = None ->
      sent (analytics_departmentId filters) = None ->
      sent (analytics_startDate filters) = None ->
      sent (analytics_endDate filters) = None ->
      sent (analytics_userId filters) = None ->
      sent (analytics_interval filters) = None ->
      q = []).
Proof.
  simpl. unfold prepareAnalyticsParams.
  repeat split;
    try (rewrite !wire_app;
         rewrite ?(wire_when_truthy_same "company_id"),
                 ?(wire_when_truthy_same "department_id"),
                 ?(wire_when_truthy_same "start_date"),
                 ?(wire_when_truthy_same "end_date"),
                 ?(wire_when_truthy_same "user_id"),
                 ?(wire_when_truthy_same "interval");
         repeat rewrite wire_when_truthy_other by reflexivity;
         repeat match goal with
                | |- context [sent ?x] => destruct (sent x)
                end;
         reflexivity).
  - intros key Hkey. apply wire_in_keys in Hkey.
    rewrite !map_app, !in_app_iff in Hkey. unfold analytics_query_keys.
    repeat match goal with
           | H : _ \/ _ |- _ => destruct H as [H | H]
           | H : In _ (map fst (when_truthy _ _)) |- _ =>
               apply when_truthy_keys in H; subst key
           end;
      simpl; tauto.
  - unfold sent, when_truthy.
    destruct (analytics_companyId filters) as [s1|];
      [destruct (truthy_string s1); [discriminate|]|];
    destruct (analytics_departmentId filters) as [s2|];
      try (destruct (truthy_string s2); [discriminate|]);
    destruct (analytics_startDate filters) as [s3|];
      try (destruct (truthy_string s3); [discriminate|]);
    destruct (analytics_endDate filters) as [s4|];
      try (destruct (truthy_string s4); [discriminate|]);
    destruct (analytics_userId filters) as [s5|];
      try (destruct (truthy_string s5); [discriminate|]);
    destruct (analytics_interval filters) as [s6|];
      try (destruct (truthy_string s6); [discriminate|]);
    reflexivity.
Qed.

Lemma wire_when_defined_same {A : Type} (key : string)
    (inject : A -> QueryValue) (x : option A) :
  wire key (when_defined key inject x) = option_map inject x.
Proof.
  destruct x; simpl; [now rewrite String.eqb_refl | reflexivity].
Qed.

Lemma wire_when_defined_other {A : Type} (key k : string)
    (inject : A -> QueryValue) (x : option A) :
  String.eqb key k = false -> wire key (when_defined k inject x) = None.
Proof.
  intros Hk. destruct x; simpl; [now rewrite Hk | reflexivity].
Qed.

(** X22: [getUsers] sends a filter exactly when it is defined: unlike
    the ticket and analytics queries, an empty string is sent as it is.
    [getUsersInDepartment] sends the department, the limit and offset it was
    given, and never a company, role or search text. *)
Theorem getUsers_params_wire (filters : UserFilters)
    (departmentId_arg : string) (limit_arg offset_arg : option Z) :
  let q := getUsers_params filters in
  let q' := getUsers_params
              (getUsersInDepartment_filters departmentId_arg
                 limit_arg offset_arg) in
  (wire "company_id" q = option_map QString (users_companyId filters)
   /\ wire "department_id" q = option_map QString (users_departmentId filters)
   /\ wire "role" q = option_map QString (users_role filters)
   /\ wire "search" q = option_map QString (users_search filters)
   /\ wire "limit" q = option_map QNumber (users_limit filters)
   /\ wire "offset" q = option_map QNumber (users_offset filters))
  /\ (wire "department_id" q' = Some (QString departmentId_arg)
      /\ wire "limit" q' = option_map QNumber limit_arg
      /\ wire "offset" q' = option_map QNumber offset_arg
      /\ wire "company_id" q' = None
      /\ wire "role" q' = None
      /\ wire "search" q' = None).
Proof.
  simpl.
  assert (H : forall f,
    wire "company_id" (getUsers_params f) = option_map QString (users_companyId f)
    /\ wire "department_id" (getUsers_params f)
       = option_map QString (users_departmentId f)
    /\ wire "role" (getUsers_params f) = option_map QString (users_role f)
    /\ wire "search" (getUsers_params f) = option_map QString (users_search f)
    /\ wire "limit" (getUsers_params f) = option_map QNumber (users_limit f)
    /\ wire "offset" (getUsers_params f) = option_map QNumber (users_offset f)).
  { intros f. unfold getUsers_params.
    repeat split; rewrite !wire_app;
      rewrite ?(wire_when_defined_same "company_id"),
              ?(wire_when_defined_same "department_id"),
              ?(wire_when_defined_same "role"),
              ?(wire_when_defined_same "search"),
              ?(wire_when_defined_same "limit"),
              ?(wire_when_defined_same "offset");
      repeat rewrite wire_when_defined_other by reflexivity;
      repeat match goal with
             | |- context [option_map ?i ?x] => destruct (option_map i x)
             end;
      reflexivity. }
  split; [apply H|].
  destruct (H (getUsersInDepartment_filters departmentId_arg
                 limit_arg offset_arg))
    as [Hc [Hd [Hr [Hs [Hl Ho]]]]].
  repeat split; assumption.
Qed.

(* ------------------------------------------------------------------ *)
(** *** AllTicketsPage: the table and its query *)
(* ------------------------------------------------------------------ *)

(** X23: whenever the tickets page gets past its checks and shows the
    table, nothing was notified, the query that fills the table is enabled
    and is bound to the user: for a tenant administrator it carries the
    administrator's own, non-empty company; for an employee it carries the
    employee's own, non-empty department and no company. *)
Theorem tickets_table_is_scoped (u : User) (filters : GetTicketsParams)
    (w w' : World) :
  AllTicketsPage_checks (Some u) w = (w', None) ->
  let q := apiParams (queryParams (Some u) filters) in
  w' = w
  /\ (role u = Some "admin" ->
      query_enabled (Some u) = true
      /\ exists c, company_id u = Val c /\ c <> ""
                   /\ wire "company_id" q = Some (QString c))
  /\ (role u = Some "employee" ->
      query_enabled (Some u) = true
      /\ exists d, department_id u = Some d /\ d <> ""
                   /\ wire "department_id" q = Some (QString d)
                   /\ wire "company_id" q = None).
Proof.
  intros Hchecks. simpl. rewrite wire_company_id, wire_department_id.
  unfold AllTicketsPage_checks in Hchecks. unfold query_enabled. simpl.
  split; [|split].
  - destruct (role_is u "admin" && negb (truthy_nullable (company_id u)));
      [discriminate|].
    destruct (role_is u "employee" && negb (truthy_opt (department_id u)));
      [discriminate|].
    now inversion Hchecks.
  - intros Hrole. rewrite !(role_is_eq _ _ _ Hrole) in *. simpl in *.
    destruct (company_id u) as [| |c]; simpl in *; try discriminate.
    destruct (truthy_string c) eqn:Hc; simpl in *; [|discriminate].
    split; [reflexivity|]. exists c. split; [reflexivity|].
    split; [now apply truthy_string_true|]. now rewrite Hc.
  - intros Hrole. rewrite !(role_is_eq _ _ _ Hrole) in *. simpl in *.
    split; [now rewrite orb_true_r|].
    destruct (department_id u) as [d|]; simpl in *; [|discriminate].
    destruct (truthy_string d) eqn:Hd; simpl in *; [|discriminate].
    exists d. split; [reflexivity|].
    split; [now apply truthy_string_true|]. now rewrite Hd.
Qed.

(* ------------------------------------------------------------------ *)
(** *** HomePage *)
(* ------------------------------------------------------------------ *)


(* ------------------------------------------------------------------ *)
(** *** UploadDropzone *)
(* ------------------------------------------------------------------ *)

Lemma split_dot_nonempty (s : string) : split_dot s <> [].
Proof.
  induction s as [|c rest IH]; simpl; [discriminate|].
  destruct (Ascii.eqb c "."); [discriminate|].
  destruct (split_dot rest); [contradiction | discriminate].
Qed.

Lemma split_dot_dotless (s : string) :
  dotless s = true -> split_dot s = [s].
Proof.
  induction s as [|c rest IH]; simpl; [reflexivity|].
  destruct (Ascii.eqb c "."); simpl; [discriminate|].
  intros H. now rewrite (IH H).
Qed.

Lemma split_dot_app (a b : string) :
  split_dot (a ++ "." ++ b) = (split_dot a ++ split_dot b)%list.
Proof.
  induction a as [|c a' IH]; [reflexivity|].
  change (String c a' ++ "." ++ b)%string
    with (String c (a' ++ "." ++ b))%string.
  cbn [split_dot]. rewrite IH.
  destruct (Ascii.eqb c "."); [reflexivity|].
  destruct (split_dot a') as [|first others] eqn:Ha';
    [now destruct (split_dot_nonempty a') | reflexivity].
Qed.

Lemma pop_app (l1 l2 : list string) :
  l2 <> [] -> pop (l1 ++ l2)%list = pop l2.
Proof.
  intros Hl2. induction l1 as [|x l1 IH]; [reflexivity|].
  simpl. rewrite IH.
  destruct (l1 ++ l2)%list eqn:E; [|reflexivity].
  apply app_eq_nil in E. now destruct E.
Qed.

(** X25: a dropped file is judged by the lower-cased text after the last
    dot of its name, or by its MIME type: it is handed on exactly when the
    list of accepted entries holds one of the two.  A name without any dot
    counts as its own extension.  A file chosen through the file input is
    handed on without any such check. *)
Theorem handleDrop_checks_extension (accept : list string)
    (base ext type : string) (rest : list File) :
  dotless ext = true ->
  let file := {| file_name := base ++ "." ++ ext; file_type := type |} in
  let bare := {| file_name := ext; file_type := type |} in
  let accepted :=
    includes accept ("." ++ toLowerCase ext) || includes accept type in
  handleDrop accept (file :: rest) = (if accepted then Some file else None)
  /\ handleDrop accept (bare :: rest) = (if accepted then Some bare else None)
  /\ handleFileChange (Some (file :: rest)) = Some file
  /\ handleFileChange (Some (bare :: rest)) = Some bare.
Proof.
  intros Hext file bare accepted. subst file bare accepted.
  unfold handleDrop, handleFileChange, fileExtension.
  cbn [file_name file_type].
  rewrite split_dot_app, pop_app by apply split_dot_nonempty.
  rewrite (split_dot_dotless ext Hext). cbn [pop].
  repeat split.
Qed.

(* ------------------------------------------------------------------ *)
(** *** SignUpStepper *)
(* ------------------------------------------------------------------ *)

Lemma trimStart_blank (s : string) : blank s = true -> trimStart s = "".
Proof.
  induction s as [|c rest IH]; simpl; [reflexivity|].
  destruct (is_space c); simpl; [exact IH | discriminate].
Qed.

Lemma trimStart_visible (s : string) :
  blank s = false ->
  exists c rest, trimStart s = String c rest /\ is_space c = false.
Proof.
  induction s as [|c rest IH]; simpl; [discriminate|].
  destruct (is_space c) eqn:Hc; simpl.
  - exact IH.
  - intros _. now exists c, rest.
Qed.

Lemma trimEnd_visible (c : ascii) (rest : string) :
  is_space c = false -> trimEnd (String c rest) <> "".
Proof.
  intros Hc. simpl. rewrite Hc. now destruct (trimEnd rest).
Qed.

Lemma trim_blank (s : string) : truthy_string (trim s) = negb (blank s).
Proof.
  unfold trim. destruct (blank s) eqn:Hb.
  - now rewrite (trimStart_blank s Hb).
  - destruct (trimStart_visible s Hb) as [c [rest [-> Hc]]].
    apply truthy_string_true. now apply trimEnd_visible.
Qed.

Lemma blank_visible (s : string) : blank s = false <-> visible s.
Proof.
  unfold visible. induction s as [|c rest IH]; simpl.
  - split; [discriminate|]. intros [pre [x [post [H _]]]].
    now destruct pre.
  - destruct (is_space c) eqn:Hc; simpl.
    + rewrite IH. split.
      * intros [pre [x [post [-> Hx]]]]. now exists (String c pre), x, post.
      * intros [pre [x [post [H Hx]]]]. destruct pre as [|p pre]; simpl in H.
        -- injection H as <- _. congruence.
        -- injection H as _ ->. now exists pre, x, post.
    + split; [|reflexivity]. intros _. now exists "", c, rest.
Qed.

Lemma blank_no_email (s : string) :
  blank s = true -> email_regex_test s = false.
Proof.
  unfold email_regex_test. intros Hb.
  assert (H : run_threads no_threads s = no_threads); [|now rewrite H].
  induction s as [|c rest IH]; [reflexivity|].
  simpl in Hb. apply andb_true_iff in Hb. destruct Hb as [Hc Hrest].
  simpl. replace (step_threads no_threads c) with no_threads; [now apply IH|].
  unfold step_threads, no_threads. simpl. rewrite Hc. simpl.
  now rewrite !andb_false_r.
Qed.

Lemma validateStep1_bool (f : FormData) :
  validateStep1 f
  = negb (blank (form_companyName f)) && negb (blank (form_adminName f))
    && email_regex_test (form_email f)
    && Nat.leb 8 (String.length (form_password f))
    && String.eqb (form_password f) (form_confirmPassword f).
Proof.
  unfold validateStep1, step1_errors.
  cbn [step1_companyName step1_adminName step1_email step1_password
       step1_confirmPassword].
  rewrite !trim_blank, !negb_involutive, Nat.ltb_antisym.
  assert (Hp : truthy_string (form_password f) = false ->
               Nat.leb 8 (String.length (form_password f)) = false).
  { intros H. apply truthy_string_false_empty in H. now rewrite H. }
  assert (He : blank (form_email f) = true ->
               email_regex_test (form_email f) = false)
    by apply blank_no_email.
  destruct (blank (form_companyName f)), (blank (form_adminName f)),
    (blank (form_email f)), (email_regex_test (form_email f)),
    (truthy_string (form_password f)),
    (Nat.leb 8 (String.length (form_password f))),
    (String.eqb (form_password f) (form_confirmPassword f));
    cbn [negb andb]; try reflexivity;
    try (specialize (Hp eq_refl); discriminate);
    try (specialize (He eq_refl); discriminate).
Qed.

(** X26: the first step of the sign-up form is accepted exactly when the
    company name and the administrator name each hold a character that is
    not white space, the e-mail field contains a substring of the shape
    [\S+@\S+\.\S+], the password has at least eight characters and the
    confirmation repeats it. *)
Theorem validateStep1_accepts (f : FormData) :
  validateStep1 f = true
  <-> visible (form_companyName f)
      /\ visible (form_adminName f)
      /\ contains_email (form_email f)
      /\ (8 <= String.length (form_password f))%nat
      /\ form_confirmPassword f = form_password f.
Proof.
  rewrite validateStep1_bool, !andb_true_iff, !negb_true_iff.
  rewrite !blank_visible, email_regex_test_correct, Nat.leb_le, String.eqb_eq.
  intuition congruence.
Qed.

Lemma handle_event_step (st : Stepper) (ev : StepperEvent) :
  (currentStep st = 1 \/ currentStep st = 2)%Z ->
  (currentStep (handle_event st ev) = 1
   \/ currentStep (handle_event st ev) = 2)%Z.
Proof.
  intros Hst. destruct ev; simpl; try assumption.
  - unfold nextStep.
    destruct ((currentStep st =? 1)%Z && validateStep1 (formData st));
      simpl; [now right | assumption].
  - unfold prevStep. destruct (currentStep st >? 1)%Z eqn:Hgt; simpl;
      [|assumption].
    destruct Hst as [Hst | Hst]; rewrite Hst in *; [discriminate | now left].
Qed.

(** X27: whatever the user types, selects and clicks, the sign-up form
    stays on step 1 or step 2, and it leaves step 1 only through the
    "next" button pressed on data that [validateStep1] accepts, which the
    move leaves as they are. *)
Theorem stepper_steps (st : Stepper) (evs : list StepperEvent) :
  (currentStep st = 1 \/ currentStep st = 2)%Z ->
  (currentStep (handle_events st evs) = 1
   \/ currentStep (handle_events st evs) = 2)%Z
  /\ (forall ev,
        currentStep st = 1%Z ->
        currentStep (handle_event st ev) <> 1%Z ->
        ev = Next
        /\ validateStep1 (formData st) = true
        /\ handle_event st ev = {| currentStep := 2; formData := formData st |}).
Proof.
  intros Hst. split.
  - unfold handle_events. revert st Hst.
    induction evs as [|ev evs IH]; intros st Hst; simpl; [assumption|].
    apply IH. now apply handle_event_step.
  - intros ev H1 Hmoved. destruct ev; simpl in *; try contradiction.
    + unfold nextStep in *. rewrite H1 in *. simpl in *.
      destruct (validateStep1 (formData st)); simpl in *;
        [now repeat split | contradiction].
    + unfold prevStep in *. rewrite H1 in *. simpl in *. contradiction.
Qed.

End Platform.

(* ================================================================== *)
(** ** Concrete runs *)
(* ================================================================== *)

(** Counterexample for C2 as documented: a tab signed in as a tenant
    administrator receives a 401; after the interceptor has run the token
    is gone, but the session store still says authenticated, with the same
    user and the same selected company. *)
Lemma session_store_survives_401 :
  let w' := fst (responseError sample_show_number
                   (ResponseError 401 None) signed_in_world) in
  token w' = None
  /\ isAuthenticated (store w') = true
  /\ user (store w') = Some sample_admin
  /\ selectedCompanyId (store w') = Val "T1"
  /\ store w' <> clearAuth (store signed_in_world).
Proof. repeat split; discriminate. Qed.

(** Counterexample for C4 as documented: two requests answered with 401
    one after the other leave two session-expired notifications and two
    assignments of the login screen. *)
Lemma two_failures_two_notifications :
  let w' := handle_failures sample_show_number
              [ResponseError 401 None; ResponseError 401 None]
              signed_in_world in
  toasts w' = [JStr session_expired; JStr session_expired]
  /\ hrefs w' = ["/login"; "/login"]
  /\ length (toasts w') <> 1%nat
  /\ length (hrefs w') <> 1%nat.
Proof. repeat split; discriminate. Qed.

(** Counterexample for C7 as documented: (1) a login answered with a user
    record without a role ends authenticated, with the token stored and no
    role, and the form navigates to the site root; (2) the guard, run on a
    tab that holds a token and an authenticated store without a role,
    clears the store but leaves the token in storage. *)
Lemma roleless_session_is_accepted :
  let w1 := fst (handleSubmit sample_show_number "bob@t1.example" "secret"
                   (HttpOk (Some roleless_login_response)) fresh_world) in
  let w2 := fst (ProtectedRoute (Some (Roles ["admin"; "employee"]))
                   tickets_location corrupted_world) in
  (isAuthenticated (store w1) = true
   /\ current_role (store w1) = None
   /\ token w1 = Some "good"
   /\ navigations w1 = ["/"]
   /\ ~ role_invariant (store w1))
  /\ (store w2 = initialState
      /\ token w2 = Some "good"
      /\ token w2 <> None).
Proof.
  repeat split; try discriminate.
  intros Hinv. destruct (Hinv eq_refl) as [r Hr]. discriminate.
Qed.

(** C3: a 422 response whose detail array holds a [null] entry, alone
    or after a well-formed field error: reading [err.msg] throws a
    TypeError inside the interceptor, no notification is shown, and the
    request is rejected with the TypeError instead of the error of the
    response.  The same array without the [null] entry yields the message
    of the field error. *)
Theorem validation_null_entry_shows_nothing :
  let null_only := Some (JObj [("detail", JArr [JNull])]) in
  let after_field :=
    Some (JObj [("detail",
                 JArr [JObj [("msg", JStr "field required")]; JNull])]) in
  let well_formed :=
    Some (JObj [("detail", JArr [JObj [("msg", JStr "field required")]])]) in
  (validationToast sample_show_number null_only = inl TypeError
   /\ responseError sample_show_number (ResponseError 422 null_only)
        fresh_world
      = (fresh_world, TypeError)
   /\ toasts (fst (responseError sample_show_number
                     (ResponseError 422 null_only) fresh_world)) = [])
  /\ (validationToast sample_show_number after_field = inl TypeError
      /\ responseError sample_show_number (ResponseError 422 after_field)
           fresh_world
         = (fresh_world, TypeError))
  /\ toasts (fst (responseError sample_show_number
                    (ResponseError 422 well_formed) fresh_world))
     = [JStr "field required"].
Proof. repeat split. Qed.

(** Counterexample for C1 as documented: a navigation to the protected
    route /tickets in a tab that is not signed in.  [App] mounts the
    public routes, none of which matches: no guard is evaluated and nothing
    redirects to the login screen, although the guard of that route, had it
    been evaluated, would have done so. *)
Lemma unauthenticated_navigation_meets_no_guard :
  isAuthenticated (store fresh_world) = false
  /\ match_route sidebar_routes "/tickets"
     = Some (Guarded (Some (Roles ["admin"; "employee"])) "AllTicketsPage")
  /\ App_outlet tickets_location fresh_world = (fresh_world, NoMatch)
  /\ ProtectedRoute (Some (Roles ["admin"; "employee"])) tickets_location
       fresh_world
     = (fresh_world, Navigate "/login" (Some tickets_location) true).
Proof. repeat split. Qed.

(** The 422 run of the specification, shape (b): two field errors become
    one notification. *)
Lemma validation_message_normalised_witness :
  validationToast sample_show_number sample_validation_body
  = inr "field required; value is not a valid email"
  /\ toasts (fst (responseError sample_show_number
                    (ResponseError 422 sample_validation_body) fresh_world))
     = [JStr "field required; value is not a valid email"].
Proof.
  destruct (validation_message_normalised sample_show_number
              sample_validation_body fresh_world)
    as [s [Hs [_ [Hrun [_ [Harr _]]]]]].
  - intros errs Hd Hin.
    apply response_detail_is in Hd.
    injection Hd as <-.
    destruct Hin as [H | [H | []]]; discriminate.
  - assert (E : s = "field required; value is not a valid email").
    { apply (Harr sample_field_errors
               ["field required"; "value is not a valid email"]).
      - exists [("detail", JArr sample_field_errors)].
        split; [reflexivity | constructor].
      - discriminate.
      - repeat constructor; eexists; repeat split; discriminate. }
    subst s. rewrite Hrun. split; [exact Hs | reflexivity].
Defined.

(** Counterexample for C5 as documented: (1) with a page size of 0 the
    query for page 3 carries offset 30, not [(3 - 1) * 0], and forty-two
    tickets make 3 pages: the page size counts as 15; (2) with page 4 and a
    page size of [2^53 - 1] the offset sent is the binary64 value nearest to
    the product, which is not the product. *)
Lemma pagination_beyond_the_claim :
  (wire "offset" (apiParams page_three_unsized) = Some (QNumber 30)
   /\ wire "limit" (apiParams page_three_unsized) = Some (QNumber 0)
   /\ (3 - 1) * 0 = 0
   /\ totalPages (shape_response page_three_unsized forty_two_tickets) = 3)
  /\ (wire "offset" (apiParams page_four_huge)
      = Some (QNumber 27021597764222972)
      /\ (4 - 1) * (2 ^ 53 - 1) = 27021597764222973
      /\ wire "offset" (apiParams page_four_huge)
         <> Some (QNumber ((4 - 1) * (2 ^ 53 - 1)))).
Proof.
  repeat split; try (vm_compute; reflexivity).
  vm_compute. discriminate.
Qed.

(** The pagination run of the specification: page 3 at 15 per page is
    offset 30, and 42 tickets make 3 pages. *)
Lemma getTickets_pagination_witness :
  let request := getTickets sample_show_number page_three
                   (HttpOk forty_two_tickets) in
  wire "offset" (fst request) = Some (QNumber 30)
  /\ wire "limit" (fst request) = Some (QNumber 15)
  /\ exists r : TicketsResponse string,
       snd request fresh_world = (fresh_world, inr r)
       /\ tickets r = ["t1"; "t2"]
       /\ total r = 42
       /\ response_page r = 3
       /\ response_limit r = 15
       /\ 15 * (totalPages r - 1) < 42 <= 15 * totalPages r.
Proof.
  apply (getTickets_pagination sample_show_number string page_three 3 15
           forty_two_tickets fresh_world);
    [reflexivity | lia | left; split; [reflexivity | lia]
    | now apply Z.leb_le | now apply Z.leb_le
    | split; [now apply Z.leb_le | reflexivity]].
Defined.

Example total_pages_of_42_by_15 :
  totalPages (shape_response page_three forty_two_tickets) = 3.
Proof. reflexivity. Qed.

(** The login run of the specification: a tenant administrator of "T1". *)
Lemma handleSubmit_tenant_admin_witness :
  let w' := fst (handleSubmit sample_show_number "ada@t1.example" "secret"
                   (HttpOk (Some admin_login_response)) fresh_world) in
  isAuthenticated (store w') = true
  /\ user (store w') = Some sample_admin
  /\ selectedCompanyId (store w') = Val "T1"
  /\ token w' = Some "good"
  /\ navigations w' = ["/admin/analytics-dashboard"]
  /\ snd (handleSubmit sample_show_number "ada@t1.example" "secret"
            (HttpOk (Some admin_login_response)) fresh_world)
     = no_errors.
Proof.
  exact (handleSubmit_tenant_admin sample_show_number
           "ada@t1.example" "secret" admin_login_response fresh_world
           eq_refl eq_refl eq_refl).
Defined.

(** A login refused with 401 from a tab that still carried an old
    session: afterwards the tab is signed out and the error is rethrown. *)
Lemma login_failure_signs_out_witness :
  let credentials := {| credentials_username := "ada@t1.example";
                        credentials_password := "wrong" |} in
  let run := login sample_show_number credentials
               (HttpFail (ResponseError 401 None)) signed_in_world in
  snd run = inl (Rejected (ResponseError 401 None))
  /\ token (fst run) = None
  /\ authHeader (fst run) = None
  /\ store (fst run) = initialState.
Proof.
  destruct (login_failure_signs_out sample_show_number
              {| credentials_username := "ada@t1.example";
                 credentials_password := "wrong" |}
              (HttpFail (ResponseError 401 None)) signed_in_world
              (fst (responseError sample_show_number
                      (ResponseError 401 None) signed_in_world))
              (Rejected (ResponseError 401 None)) eq_refl)
    as [_ [Hthrown [_ [Htoken [Hheader [Hstore _]]]]]].
  repeat split; assumption.
Defined.

(** [isTokenValid] at second 1000 on the token "good", whose [exp] is
    the number 2000, and on the token "text", whose [exp] is the string
    "2000"; and one millisecond after the epoch on the token "edge", whose
    [exp] is the binary64 value of [1 / 1000]: that is the clock value the
    code compares with, so the token is not valid, although its [exp] lies
    above the exact quotient. *)
Lemma isTokenValid_total_witness :
  isTokenValid sample_show_number sample_jwtDecode sample_string_to_number
    1000000 signed_in_world
  = (signed_in_world, inr true)
  /\ (currentTime 1000000 < inject_Z 2000)%Q
  /\ isTokenValid sample_show_number sample_jwtDecode sample_string_to_number
       1000000 (tab_with_token "text")
     = (tab_with_token "text", inr true)
  /\ isTokenValid sample_show_number sample_jwtDecode sample_string_to_number
       1 (tab_with_token "edge")
     = (tab_with_token "edge", inr false)
  /\ (currentTime 1 == one_thousandth)%Q
  /\ (1 # 1000 < one_thousandth)%Q.
Proof.
  destruct (isTokenValid_total sample_show_number sample_jwtDecode
              sample_string_to_number 1000000 signed_in_world)
    as [b [Hrun [_ [_ [_ [_ Hnumber]]]]]].
  assert (Hlt : (currentTime 1000000 < inject_Z 2000)%Q) by reflexivity.
  assert (Hb : b = true).
  { apply (Hnumber "good" {| exp := Some (JNum (inject_Z 2000)) |}
             (inject_Z 2000));
      [reflexivity | discriminate | reflexivity | reflexivity | exact Hlt]. }
  subst b. split; [exact Hrun|]. split; [exact Hlt|].
  repeat split.
Defined.

(** The two recoveries on the corrupted tab: a rehydration answered with
    a user without a role, and an evaluation of the guard. *)
Lemma missing_role_recovery_witness :
  let w1 := fst (attemptRehydrate sample_show_number sample_jwtDecode sample_string_to_number
                   false 1000000 1000001
                   (HttpOk (Some roleless_user))
                   (update_store clearAuth corrupted_world)) in
  let w2 := fst (ProtectedRoute (Some (OneRole "admin")) tickets_location
                   corrupted_world) in
  (store w1 = initialState /\ token w1 = None)
  /\ (store w2 = initialState
      /\ snd (ProtectedRoute (Some (OneRole "admin")) tickets_location
                corrupted_world)
         = Navigate "/login" (Some tickets_location) true).
Proof.
  destruct (missing_role_recovery sample_show_number sample_jwtDecode sample_string_to_number)
    as [Hrehydrate Hguard].
  split.
  - destruct (Hrehydrate false 1000000 1000001
                (HttpOk (Some roleless_user))
                (update_store clearAuth corrupted_world) eq_refl)
      as [_ Hclear].
    exact (Hclear roleless_user eq_refl eq_refl).
  - destruct (Hguard (Some (OneRole "admin")) tickets_location
                corrupted_world) as [_ Hclear].
    exact (Hclear eq_refl eq_refl).
Defined.

(** A server error on a signed-in tab: the session is left alone. *)
Lemma only_401_signs_out_witness :
  let w' := fst (responseError sample_show_number (ResponseError 500 None)
                   signed_in_world) in
  token w' = Some "good"
  /\ hrefs w' = []
  /\ store w' = store signed_in_world
  /\ authHeader w' = Some "Bearer good"
  /\ navigations w' = [].
Proof.
  exact (only_401_signs_out sample_show_number (ResponseError 500 None)
           signed_in_world eq_refl).
Defined.

(** [refreshToken] with a valid token, answered with 401: null is
    returned, the store is cleared and the token is gone. *)
Lemma refreshToken_outcome_witness :
  let run := refreshToken sample_show_number sample_jwtDecode sample_string_to_number 1000000
               (HttpFail (ResponseError 401 None)) signed_in_world in
  snd run = inr None
  /\ store (fst run) = initialState
  /\ token (fst run) = None.
Proof.
  destruct (refreshToken_outcome sample_show_number sample_jwtDecode sample_string_to_number 1000000
              (HttpFail (ResponseError 401 None)) signed_in_world true
              eq_refl) as [_ [_ Hfail]].
  exact (Hfail eq_refl (ResponseError 401 None) eq_refl).
Defined.

(** A reload of the tab of the tenant administrator: the rehydration
    brings back the session as it was. *)
Lemma rehydration_signs_in_witness :
  attemptRehydrate sample_show_number sample_jwtDecode sample_string_to_number false 1000000 1000001
    (HttpOk (Some sample_admin)) reloaded_world
  = (signed_in_world, inr tt).
Proof.
  exact (rehydration_signs_in sample_show_number sample_jwtDecode sample_string_to_number false
           1000000 1000001 sample_admin reloaded_world
           eq_refl eq_refl eq_refl eq_refl).
Defined.

(** A reload with a token the decoder rejects. *)
Lemma rehydration_failure_signs_out_witness :
  let run := attemptRehydrate sample_show_number sample_jwtDecode sample_string_to_number false
               1000000 1000001 (HttpOk (Some sample_admin)) stale_world in
  snd run = inr tt
  /\ store (fst run) = initialState
  /\ token (fst run) = None.
Proof.
  exact (rehydration_failure_signs_out sample_show_number sample_jwtDecode sample_string_to_number
           false 1000000 1000001 (HttpOk (Some sample_admin)) stale_world
           eq_refl (or_introl eq_refl)).
Defined.

(** The effect of [App] on a tab that is signed in. *)
Lemma App_effect_idle_witness :
  App_effect sample_show_number sample_jwtDecode sample_string_to_number 1000000 1000001
    (HttpOk (Some sample_admin)) signed_in_world
  = (signed_in_world, inr tt).
Proof.
  exact (App_effect_idle sample_show_number sample_jwtDecode sample_string_to_number 1000000 1000001
           (HttpOk (Some sample_admin)) signed_in_world (or_introl eq_refl)).
Defined.

(** The "tickets" link of the tenant administrator's sidebar. *)
Lemma Sidebar_links_pass_the_guard_witness :
  exists page,
    App_outlet (location_of "/tickets") signed_in_world
    = (signed_in_world, Page page).
Proof.
  apply (proj1 (Sidebar_links_pass_the_guard signed_in_world "admin"
                  eq_refl eq_refl) "/tickets").
  simpl; tauto.
Defined.

(** A tenant administrator who opens a route of the cross-tenant
    administrator is sent to the analytics dashboard, which is shown. *)
Lemma guard_redirect_lands_on_a_page_witness :
  exists page,
    App_outlet (location_of "/admin/analytics-dashboard") signed_in_world
    = (signed_in_world, Page page).
Proof.
  exact (guard_redirect_lands_on_a_page (Some (OneRole "superAdmin"))
           tickets_location signed_in_world signed_in_world
           "/admin/analytics-dashboard" None true eq_refl).
Defined.

(** The ticket list asked for by a tab that is not signed in: no route
    matches, and nothing changes. *)
Lemma unauthenticated_sees_public_routes_witness :
  fst (App_outlet tickets_location fresh_world) = fresh_world
  /\ snd (App_outlet tickets_location fresh_world) = NoMatch.
Proof.
  destruct (unauthenticated_sees_public_routes tickets_location fresh_world
              eq_refl) as [Hsame [_ Hnone]].
  split; [exact Hsame | apply Hnone; simpl; tauto].
Defined.

(** A sign-in refused with 401. *)
Lemma handleSubmit_login_failure_witness :
  let run := handleSubmit sample_show_number "ada@t1.example" "wrong"
               (HttpFail (ResponseError 401 None)) signed_in_world in
  snd run = general_error "Failed to sign in. Please check your credentials."
  /\ signed_out (fst run)
  /\ navigations (fst run) = [].
Proof.
  apply (handleSubmit_login_failure sample_show_number "ada@t1.example"
           "wrong" (HttpFail (ResponseError 401 None)) signed_in_world);
    [reflexivity | right; now exists (ResponseError 401 None)].
Defined.

(** The sign-in of an employee whose record names no department. *)
Lemma handleSubmit_employee_without_department_witness :
  let run := handleSubmit sample_show_number "dan@t1.example" "secret"
               (HttpOk (Some unassigned_login_response)) fresh_world in
  snd run
  = general_error
      "Your account is not associated with a department. Please contact your administrator."
  /\ navigations (fst run) = []
  /\ isAuthenticated (store (fst run)) = false
  /\ user (store (fst run)) = None
  /\ selectedCompanyId (store (fst run)) = Val "T1"
  /\ token (fst run) = Some "good"
  /\ authHeader (fst run) = Some "Bearer good".
Proof.
  exact (handleSubmit_employee_without_department sample_show_number
           "dan@t1.example" "secret" unassigned_login_response fresh_world
           eq_refl eq_refl eq_refl).
Defined.

(** Three clicks from the last of the three pages of forty-two
    tickets. *)
Lemma paging_stays_in_range_witness :
  exists p' offset,
    page (clicks (ceil_quotient 42 15) [ClickNext; ClickNext; ClickPrevious]
            page_three) = Some p'
    /\ 1 <= p' <= ceil_quotient 42 15
    /\ wire "offset"
         (apiParams
            (clicks (ceil_quotient 42 15)
               [ClickNext; ClickNext; ClickPrevious] page_three))
       = Some (QNumber offset)
    /\ 0 <= offset < 42.
Proof.
  apply (paging_stays_in_range 15 42 3 [ClickNext; ClickNext; ClickPrevious]
           page_three);
    [lia | lia | reflexivity | reflexivity
    | vm_compute; split; discriminate].
Defined.

(** The ticket table of the tenant administrator of "T1". *)
Lemma tickets_table_is_scoped_witness :
  query_enabled (Some sample_admin) = true
  /\ exists c,
       company_id sample_admin = Val c /\ c <> ""
       /\ wire "company_id"
            (apiParams (queryParams (Some sample_admin) page_three))
          = Some (QString c).
Proof.
  destruct (tickets_table_is_scoped sample_admin page_three
              signed_in_world signed_in_world eq_refl) as [_ [Hadmin _]].
  exact (Hadmin eq_refl).
Defined.

(** A file of unknown type named "Profile.PDF", and one named "PDF",
    dropped on a zone that accepts PDF documents. *)
Lemma handleDrop_checks_extension_witness :
  handleDrop [".pdf"; "application/pdf"] [sample_profile]
  = Some sample_profile
  /\ handleDrop [".pdf"; "application/pdf"]
       [{| file_name := "PDF"; file_type := "" |}]
     = Some {| file_name := "PDF"; file_type := "" |}
  /\ handleFileChange (Some [sample_profile]) = Some sample_profile
  /\ handleFileChange (Some [{| file_name := "PDF"; file_type := "" |}])
     = Some {| file_name := "PDF"; file_type := "" |}.
Proof.
  exact (handleDrop_checks_extension [".pdf"; "application/pdf"]
           "Profile" "PDF" "" [] eq_refl).
Defined.

(** The filled-in form: next, a file, and back twice. *)
Lemma stepper_steps_witness :
  currentStep (handle_events sample_stepper
                 [Next; Selected sample_profile; Back; Back]) = 1
  \/ currentStep (handle_events sample_stepper
                    [Next; Selected sample_profile; Back; Back]) = 2.
Proof.
  exact (proj1 (stepper_steps sample_stepper
                  [Next; Selected sample_profile; Back; Back]
                  (or_introl eq_refl))).
Defined.
